(** * Light Regional Council development-application scraper

    A shallow embedding of the layout-based record extraction of
    [scraper.ts]: the geometry helpers, the start-marker search, the
    row bands, the per-band field extraction and the page/document
    driver, followed by the properties stated about them.

    Conventions of the embedding.
    - A JavaScript number is a rational ([Q]): co-ordinates, areas and
      percentages are exact, so rounding, NaN and overflow are outside
      the model.  Comparisons are the decidable ones of [QArith].
    - A JavaScript string is a [string] whose characters are code units
      below 256 (Latin-1).
    - [console.log] is an explicit list of lines; a thrown [TypeError]
      is an explicit completion.
    - The libraries the scraper calls ([didyoumean2], [moment]) and the
      built-ins ([Number], [Array.prototype.sort]) are given executable
      models of their documented behaviour on the options the scraper
      passes. *)

From Stdlib Require Import List String Ascii Bool Arith ZArith QArith Lia Lqa.
From Stdlib Require Import DecimalString DecimalNat Sorted Finite Qround.
Import ListNotations.

Set Implicit Arguments.

(** ** Geometry kernel *)

Module Geometry.

Local Open Scope Q_scope.

(** [interface Rectangle]. *)
Record Rectangle : Type := mkRectangle {
  x : Q;
  y : Q;
  width : Q;
  height : Q
}.

Definition Qmax (a b : Q) : Q := if Qlt_le_dec a b then b else a.
Definition Qmin (a b : Q) : Q := if Qlt_le_dec b a then b else a.
Definition Qleb (a b : Q) : bool := if Qlt_le_dec b a then false else true.
Definition Qltb (a b : Q) : bool := if Qlt_le_dec a b then true else false.

Definition zeroRectangle : Rectangle := mkRectangle 0 0 0 0.

(** [intersect(rectangle1, rectangle2)]. *)
Definition intersect (rectangle1 rectangle2 : Rectangle) : Rectangle :=
  let x1 := Qmax (x rectangle1) (x rectangle2) in
  let y1 := Qmax (y rectangle1) (y rectangle2) in
  let x2 := Qmin (x rectangle1 + width rectangle1) (x rectangle2 + width rectangle2) in
  let y2 := Qmin (y rectangle1 + height rectangle1) (y rectangle2 + height rectangle2) in
  if Qleb x1 x2 && Qleb y1 y2
  then mkRectangle x1 y1 (x2 - x1) (y2 - y1)
  else zeroRectangle.

(** [getArea(rectangle)]. *)
Definition getArea (rectangle : Rectangle) : Q :=
  width rectangle * height rectangle.

(** The projection of a rectangle on an axis is the closed interval
    between its two edges. *)
Definition inProjectionX (r : Rectangle) (t : Q) : Prop :=
  x r <= t /\ t <= x r + width r.
Definition inProjectionY (r : Rectangle) (t : Q) : Prop :=
  y r <= t /\ t <= y r + height r.

Definition disjointX (a b : Rectangle) : Prop :=
  forall t, ~ (inProjectionX a t /\ inProjectionX b t).
Definition disjointY (a b : Rectangle) : Prop :=
  forall t, ~ (inProjectionY a t /\ inProjectionY b t).

End Geometry.

Import Geometry.

(** ** JavaScript strings *)

Module Text.

Local Open Scope string_scope.
Local Open Scope nat_scope.

(** White space of [String.prototype.trim] and of the regular
    expression class [\s], among the code units below 256. *)
Definition isWhiteSpace (c : ascii) : bool :=
  let n := nat_of_ascii c in
  ((9 <=? n) && (n <=? 13)) || (n =? 32) || (n =? 160).

(** The class [[0-9]]. *)
Definition isDigit (c : ascii) : bool :=
  let n := nat_of_ascii c in (48 <=? n) && (n <=? 57).

Fixpoint trimStart (s : string) : string :=
  match s with
  | EmptyString => EmptyString
  | String c s' => if isWhiteSpace c then trimStart s' else s
  end.

Fixpoint trimEnd (s : string) : string :=
  match s with
  | EmptyString => EmptyString
  | String c s' =>
      match trimEnd s' with
      | EmptyString => if isWhiteSpace c then EmptyString else String c EmptyString
      | t => String c t
      end
  end.

(** [s.trim()]. *)
Definition trim (s : string) : string := trimEnd (trimStart s).

(** [s.replace(/\s/g, empty)]. *)
Fixpoint removeWhiteSpace (s : string) : string :=
  match s with
  | EmptyString => EmptyString
  | String c s' =>
      if isWhiteSpace c then removeWhiteSpace s' else String c (removeWhiteSpace s')
  end.

(** [s.replace(/\s+/g, space)]: every maximal run of white space becomes
    one space ([inRun] tells that the previous character was white). *)
Fixpoint collapseFrom (inRun : bool) (s : string) : string :=
  match s with
  | EmptyString => EmptyString
  | String c s' =>
      if isWhiteSpace c
      then (if inRun then collapseFrom true s' else String " " (collapseFrom true s'))
      else String c (collapseFrom false s')
  end.

Definition collapseWhiteSpace (s : string) : string := collapseFrom false s.

Definition toLowerChar (c : ascii) : ascii :=
  let n := nat_of_ascii c in
  if ((65 <=? n) && (n <=? 90)) || ((192 <=? n) && (n <=? 222) && negb (n =? 215))
  then ascii_of_nat (n + 32)
  else c.

(** [s.toLowerCase()]. *)
Fixpoint toLowerCase (s : string) : string :=
  match s with
  | EmptyString => EmptyString
  | String c s' => String (toLowerChar c) (toLowerCase s')
  end.

(** [s.startsWith(p)]. *)
Definition startsWith (s p : string) : bool := String.prefix p s.

(** [s.split(sep)] for a one-character separator. *)
Fixpoint split (sep : ascii) (s : string) : list string :=
  match s with
  | EmptyString => [EmptyString]
  | String c s' =>
      if Ascii.eqb c sep
      then EmptyString :: split sep s'
      else match split sep s' with
           | h :: t => String c h :: t
           | [] => [String c EmptyString]
           end
  end.

(** [l.join(sep)]. *)
Fixpoint join (sep : string) (l : list string) : string :=
  match l with
  | [] => EmptyString
  | [s] => s
  | s :: l' => s ++ sep ++ join sep l'
  end.

(** [/[0-9]+/.test(s)]: some digit occurs in [s]. *)
Fixpoint containsDigit (s : string) : bool :=
  match s with
  | EmptyString => false
  | String c s' => isDigit c || containsDigit s'
  end.

(** [/\/[0-9]{4}$/.test(s)]: [s] ends with a slash and four digits. *)
Fixpoint endsWithSlashFourDigits (s : string) : bool :=
  match s with
  | EmptyString => false
  | String c s' =>
      match s' with
      | String d1 (String d2 (String d3 (String d4 EmptyString))) =>
          (Ascii.eqb c "/" && isDigit d1 && isDigit d2 && isDigit d3 && isDigit d4)
      | _ => endsWithSlashFourDigits s'
      end
  end.

(** The decimal digits of a natural number, as a template literal
    prints an integer. *)
Definition natToString (n : nat) : string :=
  NilEmpty.string_of_uint (Nat.to_uint n).

(** The double-quote character of the log lines. *)
Definition dquote : string := String (ascii_of_nat 34) EmptyString.

End Text.

Import Text.

(** ** Built-ins and libraries the scraper calls *)

(** [Number(s)] and comparison of the result with a constant. *)
Module JSNumber.

Local Open Scope nat_scope.

Inductive number : Type :=
| NaN
| Infinity (negative : bool)
| Finite (q : Q).

Definition digitValue (c : ascii) : Z := Z.of_nat (nat_of_ascii c - 48).

(** The value of a digit in a base up to 16, if it is one. *)
Definition digitInBase (base : Z) (c : ascii) : option Z :=
  let n := nat_of_ascii c in
  let v := if isDigit c then Some (Z.of_nat (n - 48))
           else if (97 <=? n) && (n <=? 102) then Some (Z.of_nat (n - 87))
           else if (65 <=? n) && (n <=? 70) then Some (Z.of_nat (n - 55))
           else None in
  match v with
  | Some d => if (d <? base)%Z then Some d else None
  | None => None
  end.

(** All of [s] read as digits of [base], after [acc]. *)
Fixpoint digitsInBase (base acc : Z) (s : string) : option Z :=
  match s with
  | EmptyString => Some acc
  | String c s' =>
      match digitInBase base c with
      | Some d => digitsInBase base (base * acc + d)%Z s'
      | None => None
      end
  end.

Definition nonDecimal (base : Z) (digits : string) : number :=
  match digits with
  | EmptyString => NaN
  | _ => match digitsInBase base 0 digits with
         | Some v => Finite (inject_Z v)
         | None => NaN
         end
  end.

(** The longest run of decimal digits at the head of [s]: its value
    after [acc], how many digits it has, and what follows. *)
Fixpoint takeDigits (s : string) (acc : Z) (n : nat) : Z * nat * string :=
  match s with
  | EmptyString => (acc, n, s)
  | String c s' =>
      if isDigit c then takeDigits s' (10 * acc + digitValue c)%Z (S n)
      else (acc, n, s)
  end.

(** [ExponentPart], which must reach the end of the literal. *)
Definition exponentPart (s : string) : option Z :=
  match s with
  | EmptyString => Some 0%Z
  | String c s' =>
      if Ascii.eqb c "e" || Ascii.eqb c "E" then
        let '(negative, s'') :=
          match s' with
          | String sign r =>
              if Ascii.eqb sign "+" then (false, r)
              else if Ascii.eqb sign "-" then (true, r)
              else (false, s')
          | EmptyString => (false, s')
          end in
        let '(v, n, rest) := takeDigits s'' 0%Z 0 in
        match rest with
        | EmptyString => if n =? 0 then None else Some (if negative then (- v)%Z else v)
        | _ => None
        end
      else None
  end.

(** [m * 10 ^ k]. *)
Definition scale10 (m k : Z) : Q :=
  if (0 <=? k)%Z then inject_Z (m * 10 ^ k)
  else Qmake m (Z.to_pos (10 ^ (- k))).

(** [StrUnsignedDecimalLiteral]. *)
Definition unsignedDecimal (s : string) : number :=
  if String.eqb s "Infinity" then Infinity false
  else
    let '(i, ni, r1) := takeDigits s 0%Z 0 in
    let '(m, nf, r2) :=
      match r1 with
      | String c r => if Ascii.eqb c "." then takeDigits r i 0 else (i, 0, r1)
      | EmptyString => (i, 0, r1)
      end in
    if ni + nf =? 0 then NaN
    else match exponentPart r2 with
         | Some e => Finite (scale10 m (e - Z.of_nat nf))
         | None => NaN
         end.

Definition negate (n : number) : number :=
  match n with
  | NaN => NaN
  | Infinity negative => Infinity (negb negative)
  | Finite q => Finite (- q)%Q
  end.

(** [Number(s)] for a string [s] ([StringToNumber]). *)
Definition Number (s : string) : number :=
  match trim s with
  | EmptyString => Finite 0%Q
  | String c1 r1 as t =>
      match r1 with
      | String c2 r2 =>
          if Ascii.eqb c1 "0" && (Ascii.eqb c2 "x" || Ascii.eqb c2 "X") then nonDecimal 16 r2
          else if Ascii.eqb c1 "0" && (Ascii.eqb c2 "o" || Ascii.eqb c2 "O") then nonDecimal 8 r2
          else if Ascii.eqb c1 "0" && (Ascii.eqb c2 "b" || Ascii.eqb c2 "B") then nonDecimal 2 r2
          else if Ascii.eqb c1 "+" then unsignedDecimal r1
          else if Ascii.eqb c1 "-" then negate (unsignedDecimal r1)
          else unsignedDecimal t
      | EmptyString => unsignedDecimal t
      end
  end.

(** [n < k] for a finite constant [k]. *)
Definition lessThan (n : number) (k : Q) : bool :=
  match n with
  | NaN => false
  | Infinity negative => negative
  | Finite q => Qltb q k
  end.

End JSNumber.

(** [didyoumean2] with the options of the scraper: case-insensitive,
    first closest match, edit-distance threshold, spaces trimmed;
    letters are compared as they stand. *)
Module DidYouMean.

Local Open Scope nat_scope.

(** One row of the edit-distance table: [prev] is the row of the
    previous character of the first string, [left] the cell to the left. *)
Fixpoint nextRow (c : ascii) (b : string) (prev : list nat) (left : nat) : list nat :=
  match b, prev with
  | String bj b', diag :: ((up :: _) as prev') =>
      let cell := Nat.min (Nat.min (up + 1) (left + 1))
                          (diag + if Ascii.eqb c bj then 0 else 1) in
      cell :: nextRow c b' prev' cell
  | _, _ => []
  end.

Fixpoint editRows (a b : string) (row : list nat) : list nat :=
  match a with
  | EmptyString => row
  | String c a' =>
      let first := S (hd 0 row) in
      editRows a' b (first :: nextRow c b row first)
  end.

(** The Levenshtein distance of two strings. *)
Definition getEditDistance (a b : string) : nat :=
  last (editRows a b (seq 0 (S (String.length b)))) 0.

Definition normalizeString (s : string) : string :=
  toLowerCase (collapseWhiteSpace (trim s)).

Fixpoint firstClosest (matchList : list string) (scores : list nat)
    (marker threshold : nat) : option string :=
  match matchList, scores with
  | item :: matchList', score :: scores' =>
      if (score <=? threshold) && (score =? marker) then Some item
      else firstClosest matchList' scores' marker threshold
  | _, _ => None
  end.

(** [didyoumean(input, matchList, { threshold })]: the first item at the
    least edit distance from the input, when that distance is within the
    threshold; [None] stands for [null]. *)
Definition didyoumean (input : string) (matchList : list string) (threshold : nat)
    : option string :=
  let normalizedInput := normalizeString input in
  let scores := map (fun item => getEditDistance normalizedInput (normalizeString item))
                    matchList in
  match scores with
  | [] => None
  | score :: scores' =>
      firstClosest matchList scores (fold_left Nat.min scores' score) threshold
  end.

End DidYouMean.

(** [moment(s, "D/MM/YYYY", true)]: strict parsing of a date, and
    [format("YYYY-MM-DD")]. *)
Module Moment.

Local Open Scope nat_scope.

Record date : Type := mkDate { year : nat; month : nat; day : nat }.

Definition isLeapYear (y : nat) : bool :=
  ((y mod 4 =? 0) && negb (y mod 100 =? 0)) || (y mod 400 =? 0).

Definition daysInMonth (y m : nat) : nat :=
  match m with
  | 2 => if isLeapYear y then 29 else 28
  | 4 | 6 | 9 | 11 => 30
  | _ => 31
  end.

Definition digit (c : ascii) : nat := nat_of_ascii c - 48.

(** What follows the day: a slash, two digits, a slash, four digits and
    the end of the input; the date must exist in the calendar. *)
Definition monthAndYear (d : nat) (s : string) : option date :=
  match s with
  | String s1 (String m1 (String m2 (String s2
      (String y1 (String y2 (String y3 (String y4 EmptyString))))))) =>
      if Ascii.eqb s1 "/" && Ascii.eqb s2 "/" && isDigit m1 && isDigit m2
         && isDigit y1 && isDigit y2 && isDigit y3 && isDigit y4
      then
        let m := 10 * digit m1 + digit m2 in
        let y := 1000 * digit y1 + 100 * digit y2 + 10 * digit y3 + digit y4 in
        if (1 <=? m) && (m <=? 12) && (1 <=? d) && (d <=? daysInMonth y m)
        then Some (mkDate y m d)
        else None
      else None
  | _ => None
  end.

(** The parsed date when [moment(s, "D/MM/YYYY", true).isValid()], and
    [None] otherwise.  The day takes two digits when two are there. *)
Definition parseStrict (s : string) : option date :=
  match s with
  | String d1 r =>
      if isDigit d1 then
        match r with
        | String d2 r' =>
            if isDigit d2 then monthAndYear (10 * digit d1 + digit d2) r'
            else monthAndYear (digit d1) r
        | EmptyString => None
        end
      else None
  | EmptyString => None
  end.

Definition isValid (s : string) : bool :=
  match parseStrict s with Some _ => true | None => false end.

Definition pad (w n : nat) : string :=
  let s := natToString n in
  String.concat EmptyString (repeat "0"%string (w - String.length s)) ++ s.

(** [format("YYYY-MM-DD")]. *)
Definition format (d : date) : string :=
  (pad 4 (year d) ++ "-" ++ pad 2 (month d) ++ "-" ++ pad 2 (day d))%string.

End Moment.

(** [Array.prototype.sort(comparer)]: a stable sort; the comparer's
    results 1, -1 and 0 are [Gt], [Lt] and [Eq]. *)
Module JSArray.

Section Sort.
Variable A : Type.
Variable comparer : A -> A -> comparison.

Fixpoint insertSorted (a : A) (l : list A) : list A :=
  match l with
  | [] => [a]
  | b :: t =>
      match comparer a b with
      | Gt => b :: insertSorted a t
      | _ => a :: l
      end
  end.

Definition sort (l : list A) : list A := fold_right insertSorted [] l.

End Sort.

(** [l.slice(-n)] and what [l.splice(-n, n)] leaves in [l]. *)
Definition sliceLast (A : Type) (n : nat) (l : list A) : list A :=
  skipn (List.length l - n) l.
Definition spliceLast (A : Type) (n : nat) (l : list A) : list A :=
  firstn (List.length l - n) l.

End JSArray.

(** ** Effects: console lines and thrown errors *)

Module Effects.

(** How a computation ends: with a value, with a thrown [TypeError],
    or without an answer within the iteration bound of the model. *)
Inductive Completion (A : Type) : Type :=
| Normal (a : A)
| Throw (error : string)
| Unfinished.

Arguments Normal {A} a.
Arguments Throw {A} error.
Arguments Unfinished {A}.

(** A computation that writes console lines and may throw. *)
Definition Eff (A : Type) : Type := (Completion A * list string)%type.

Definition ret (A : Type) (a : A) : Eff A := (Normal a, []).

Definition bind (A B : Type) (m : Eff A) (f : A -> Eff B) : Eff B :=
  match m with
  | (Normal a, lines) => let (r, lines') := f a in (r, lines ++ lines')
  | (Throw e, lines) => (Throw e, lines)
  | (Unfinished, lines) => (Unfinished, lines)
  end.

Definition log (line : string) : Eff unit := (Normal tt, [line]).

Definition lift (A : Type) (c : Completion A) : Eff A := (c, []).

End Effects.

Import Effects.

Notation "x <- m ;; k" := (bind m (fun x => k))
  (at level 61, m at next level, right associativity).
Notation "m ;;; k" := (bind m (fun _ => k))
  (at level 61, right associativity).

(** ** The scraper *)

Module Scraper.

Import JSNumber DidYouMean JSArray.

Local Open Scope string_scope.
Local Open Scope nat_scope.

Definition CommentUrl : string := "mailto:light@light.sa.gov.au".

(** [Number.MAX_VALUE]. *)
Definition MAX_VALUE : Q := inject_Z (2 ^ 1024 - 2 ^ 971).

(** [interface Element extends Rectangle].  The [confidence] field is
    never set on the elements [parsePdf] builds and never read. *)
Record Element : Type := mkElement {
  text : string;
  bounds :> Rectangle
}.

(** [getVerticalOverlapPercentage(element1, element2)].  When the height
    of [element2] is zero the quotient is [NaN] in JavaScript and 0
    here; the scraper only tests the result with [> 50], which fails
    for both. *)
Definition getVerticalOverlapPercentage (element1 element2 : Rectangle) : Q :=
  let y1 := Qmax (y element1) (y element2) in
  let y2 := Qmin (y element1 + height element1) (y element2 + height element2) in
  if Qltb y2 y1 then 0%Q else (((y2 - y1) * 100) / height element2)%Q.

(** [getRowTop(elements, startElement)]. *)
Definition getRowTop (elements : list Element) (startElement : Rectangle) : Q :=
  fold_left
    (fun top (element : Element) =>
       if Qltb (y element) (y startElement + height startElement)
          && Qltb (y startElement) (y element + height element)
       then if Qltb 50 (getVerticalOverlapPercentage startElement element)
            then if Qltb (y element) top then y element else top
            else top
       else top)
    elements (y startElement).

(** [calculateDistance(element1, element2)]. *)
Definition calculateDistance (element1 element2 : Rectangle) : Q :=
  let point1x := (x element1 + width element1)%Q in
  let point1y := (y element1 + height element1 / 2)%Q in
  let point2x := x element2 in
  let point2y := (y element2 + height element2 / 2)%Q in
  if Qltb point2x (point1x - width element1 / 5)
  then MAX_VALUE
  else ((point2x - point1x) * (point2x - point1x)
        + (point2y - point1y) * (point2y - point1y))%Q.

(** [isVerticalOverlap(element1, element2)]. *)
Definition isVerticalOverlap (element1 element2 : Rectangle) : bool :=
  Qltb (y element2) (y element1 + height element1)
  && Qltb (y element1) (y element2 + height element2).

(** The rectangle of [closestElement]: before any element is chosen it
    is the placeholder whose [text] is [undefined]. *)
Definition closestBounds (closestElement : option Element) : Rectangle :=
  match closestElement with
  | Some e => e
  | None => mkRectangle MAX_VALUE MAX_VALUE 0 0
  end.

(** [getRightElement(elements, element)]; [None] is [undefined]. *)
Definition getRightElement (elements : list Element) (element : Element)
    : option Element :=
  fold_left
    (fun closestElement (rightElement : Element) =>
       if isVerticalOverlap element rightElement
          && Qltb 50 (getVerticalOverlapPercentage element rightElement)
          && Qltb (x element + width element) (x rightElement)
          && Qltb (x rightElement - (x element + width element)) 30
          && Qltb (calculateDistance element rightElement)
                  (calculateDistance element (closestBounds closestElement))
       then Some rightElement
       else closestElement)
    elements None.

(** The global [SuburbNames]: its keys, which are distinct, in the
    order [Object.keys] lists them, each with its value. *)
Definition SuburbTable : Type := list (string * string).

Definition keys (SuburbNames : SuburbTable) : list string := map fst SuburbNames.

Fixpoint lookup (SuburbNames : SuburbTable) (key : string) : string :=
  match SuburbNames with
  | [] => "undefined"
  | (k, v) :: rest => if String.eqb k key then v else lookup rest key
  end.

(** The loop of [formatAddress] over [index]: the suburb found and the
    tokens left once it is spliced off. *)
Fixpoint findSuburb (SuburbNames : SuburbTable) (tokens : list string)
    (indexes : list nat) : option (string * list string) :=
  match indexes with
  | [] => None
  | index :: rest =>
      match didyoumean (join " " (sliceLast index tokens)) (keys SuburbNames) 2 with
      | Some suburbNameMatch =>
          Some (lookup SuburbNames suburbNameMatch, spliceLast index tokens)
      | None => findSuburb SuburbNames tokens rest
      end
  end.

(** [formatAddress(address)]. *)
Definition formatAddress (SuburbNames : SuburbTable) (address : string) : Eff string :=
  let address := trim address in
  if String.eqb address "" then ret ""
  else
    let tokens := split " " address in
    match findSuburb SuburbNames tokens [1; 2; 3; 4] with
    | None =>
        log ("The state and post code will not be added because the suburb was not recognised: " ++ address) ;;;
        ret address
    | Some (suburbName, tokens) =>
        let streetName := trim (join " " tokens) in
        ret (trim (streetName ++ (if String.eqb streetName "" then "" else ", ") ++ suburbName))
    end.

(** The object [parseApplicationElements] returns. *)
Record DevelopmentApplication : Type := mkApplication {
  applicationNumber : string;
  address : string;
  description : string;
  informationUrl : string;
  commentUrl : string;
  scrapeDate : string;
  receivedDate : string
}.

Definition xComparer (a b : Element) : comparison :=
  if Qltb (x b) (x a) then Gt else if Qltb (x a) (x b) then Lt else Eq.

Definition yComparer (a b : Element) : comparison :=
  if Qltb (y b) (y a) then Gt else if Qltb (y a) (y b) then Lt else Eq.

Definition elementComparer (a b : Element) : comparison :=
  if Qltb (y b) (y a) then Gt
  else if Qltb (y a) (y b) then Lt
  else if Qltb (x b) (x a) then Gt
  else if Qltb (x a) (x b) then Lt
  else Eq.

(** [elements.map(element => `[${element.text}]`).join(empty)]. *)
Definition elementSummary (elements : list Element) : string :=
  join "" (map (fun element => "[" ++ text element ++ "]") elements).

Definition applicationNumberElements (elements : list Element)
    (startElement applicantElement : Element) : list Element :=
  sort xComparer
    (filter (fun element : Element =>
               Qltb (x element) (x applicantElement)
               && Qltb (y element) (y startElement + 2 * height startElement))
            elements).

(** The text tried at [index]: the first [index] elements joined, white
    space removed. *)
Definition applicationNumberText (candidates : list Element) (index : nat) : string :=
  removeWhiteSpace (join "" (map text (firstn index candidates))).

Fixpoint firstApplicationNumber (candidates : list Element) (indexes : list nat)
    : option string :=
  match indexes with
  | [] => None
  | index :: rest =>
      let text := applicationNumberText candidates index in
      if endsWithSlashFourDigits text then Some text
      else firstApplicationNumber candidates rest
  end.

(** The loop over [index] from 1 to the number of candidates. *)
Definition findApplicationNumber (elements : list Element)
    (startElement applicantElement : Element) : option string :=
  let candidates := applicationNumberElements elements startElement applicantElement in
  firstApplicationNumber candidates (seq 1 (List.length candidates)).

(** The three tests on areas against the rectangle of the date column
    moved to the element's own [y]. *)
Definition inDateColumn (applicationElement element : Element) : bool :=
  let dateRectangle :=
    mkRectangle (x applicationElement) (y element)
                (width applicationElement) (height applicationElement) in
  Qltb 0 (getArea element)
  && Qltb (0.5 * getArea dateRectangle) (getArea element)
  && Qltb (0.75 * getArea element) (getArea (intersect element dateRectangle)).

Definition findApplicationDateElement (elements : list Element)
    (applicationElement : Element) : option Element :=
  find (inDateColumn applicationElement) elements.

Definition isReceivedDateElement (applicationElement applicationDateElement element : Element)
    : bool :=
  inDateColumn applicationElement element
  && Qltb (y applicationDateElement + height applicationDateElement) (y element)
  && Moment.isValid (trim (text element)).

(** The element the second loop settles on, the fallback included. *)
Definition findReceivedDateElement (elements : list Element)
    (applicationElement applicationDateElement : Element) : Element :=
  match find (isReceivedDateElement applicationElement applicationDateElement) elements with
  | Some element => element
  | None => applicationDateElement
  end.

(** The text the address is formatted from. *)
Definition addressText (elements : list Element)
    (applicationDateElement proposalElement : Element) : string :=
  join ""
    (map text
       (sort xComparer
          (filter (fun element : Element =>
                     Qltb (x applicationDateElement + width applicationDateElement) (x element)
                     && Qltb 50 (getVerticalOverlapPercentage applicationDateElement element)
                     && Qltb (x element) (x proposalElement - height proposalElement / 2))
                  elements))).

(** The description before the placeholder is considered. *)
Definition descriptionText (elements : list Element)
    (proposalElement : Element) (referralsElement : option Element) : string :=
  match referralsElement with
  | None => ""
  | Some referralsElement =>
      let descriptionElements :=
        filter (fun element : Element =>
                  Qltb (x proposalElement - height proposalElement / 2) (x element)
                  && Qltb (x element) (x referralsElement))
               elements in
      fst (fold_left
             (fun (state : string * option Q) (descriptionElement : Element) =>
                let (description, previousY) := state in
                let description :=
                  match previousY with
                  | Some previousY =>
                      if Qltb (previousY + height descriptionElement / 2) (y descriptionElement)
                      then description ++ " "
                      else description
                  | None => description
                  end in
                (description ++ text descriptionElement, Some (y descriptionElement)))
             descriptionElements ("", None))
  end.

(** [parseApplicationElements]; [today] is what [moment().format]
    gives for the scrape date, and [None] is [undefined]. *)
Definition parseApplicationElements (SuburbNames : SuburbTable) (today : string)
    (elements : list Element)
    (startElement applicantElement applicationElement proposalElement : Element)
    (referralsElement : option Element) (informationUrl : string)
    : Eff (option DevelopmentApplication) :=
  match findApplicationNumber elements startElement applicantElement with
  | None =>
      log ("Could not find the application number on the PDF page for the current development application.  The development application will be ignored.  Elements: "
           ++ elementSummary elements) ;;;
      ret None
  | Some applicationNumber =>
      log ("    Found " ++ dquote ++ applicationNumber ++ dquote ++ ".") ;;;
      match findApplicationDateElement elements applicationElement with
      | None =>
          log ("Could not find the application date on the PDF page for the current development application.  The development application will be ignored.  Elements: "
               ++ elementSummary elements) ;;;
          ret None
      | Some applicationDateElement =>
          let receivedDateElement :=
            findReceivedDateElement elements applicationElement applicationDateElement in
          let receivedDate := Moment.parseStrict (trim (text applicationDateElement)) in
          address <- formatAddress SuburbNames
                       (addressText elements applicationDateElement proposalElement) ;;
          let description := descriptionText elements proposalElement referralsElement in
          ret (Some
            {| applicationNumber := applicationNumber;
               address := address;
               description := if String.eqb (trim description) ""
                              then "No Description Provided" else description;
               informationUrl := informationUrl;
               commentUrl := CommentUrl;
               scrapeDate := today;
               receivedDate := match receivedDate with
                               | Some d => Moment.format d
                               | None => ""
                               end |})
      end
  end.

(** An entry of [matches] in [findStartElements]: it has the two
    properties [element] and [threshold] and no other. *)
Record Match : Type := mkMatch {
  element : Element;
  threshold : nat
}.

(** The threshold recorded for the text joined so far, if it matches. *)
Definition matchThreshold (text : string) : option nat :=
  if String.eqb text "lodgement" then Some 0
  else match didyoumean text ["Lodgement"] 1 with
       | Some _ => Some 1
       | None =>
           match didyoumean text ["Lodgement"] 2 with
           | Some _ => Some 2
           | None => None
           end
       end.

(** The [do ... while] loop of [findStartElements]: one unit of [fuel]
    for each pass through its body, of which there are at most ten. *)
Fixpoint walk (elements : list Element) (fuel : nat) (rightElement : Element)
    (rightElements : list Element) (matches : list Match) : list Match :=
  match fuel with
  | 0 => matches
  | S fuel' =>
      let rightElements := (rightElements ++ [rightElement])%list in
      let text := toLowerCase (removeWhiteSpace (join "" (map text rightElements))) in
      if 10 <=? String.length text then matches
      else
        let matches :=
          if 8 <=? String.length text
          then match matchThreshold text with
               | Some t => (matches ++ [mkMatch rightElement t])%list
               | None => matches
               end
          else matches in
        match getRightElement elements rightElement with
        | Some rightElement =>
            if List.length rightElements <? 10
            then walk elements fuel' rightElement rightElements matches
            else matches
        | None => matches
        end
  end.

(** The callback of [matches.reduce].  A match has no [text] property,
    so comparing the lengths of the texts, which happens when the two
    thresholds are equal, reads a property of [undefined] and throws. *)
Definition chooseMatch (previous : option Match) (current : Match)
    : Completion (option Match) :=
  match previous with
  | None => Normal (Some current)
  | Some previous =>
      if threshold current <? threshold previous then Normal (Some current)
      else if threshold current =? threshold previous
      then Throw "TypeError: Cannot read property 'trim' of undefined"
      else Normal (Some previous)
  end.

(** [matches.reduce(callback, undefined)]. *)
Fixpoint reduceMatches (matches : list Match) (previous : option Match)
    : Completion (option Match) :=
  match matches with
  | [] => Normal previous
  | current :: rest =>
      match chooseMatch previous current with
      | Normal chosen => reduceMatches rest chosen
      | Throw e => Throw e
      | Unfinished => Unfinished
      end
  end.

Definition startsWithL (element : Element) : bool :=
  startsWith (toLowerCase (trim (text element))) "l".

(** The body of the [for] loop of [findStartElements], over the
    elements that begin with the letter l. *)
Fixpoint collectStartElements (elements candidates startElements : list Element)
    : Completion (list Element) :=
  match candidates with
  | [] => Normal startElements
  | candidate :: rest =>
      match walk elements 10 candidate [] [] with
      | [] => collectStartElements elements rest startElements
      | matches =>
          match reduceMatches matches None with
          | Normal (Some bestMatch) =>
              collectStartElements elements rest (startElements ++ [element bestMatch])%list
          | Normal None => Throw "TypeError: Cannot read property 'element' of undefined"
          | Throw e => Throw e
          | Unfinished => Unfinished
          end
      end
  end.

(** [findStartElements(elements)]. *)
Definition findStartElements (elements : list Element) : Completion (list Element) :=
  match collectStartElements elements (filter startsWithL elements) [] with
  | Normal startElements => Normal (sort yComparer startElements)
  | Throw e => Throw e
  | Unfinished => Unfinished
  end.

(** [elements[elements.length - 1]]. *)
Fixpoint lastElement (elements : list Element) : option Element :=
  match elements with
  | [] => None
  | [e] => Some e
  | _ :: rest => lastElement rest
  end.

(** The test that takes the last element for the page number. *)
Definition isPageNumber (element : Element) : bool :=
  containsDigit (text element) && lessThan (Number (text element)) 1000.

(** The page number is popped; on a page without elements the test
    reads [text] of [undefined]. *)
Definition withoutPageNumber (elements : list Element) : Completion (list Element) :=
  match lastElement elements with
  | None => Throw "TypeError: Cannot read property 'text' of undefined"
  | Some last => Normal (if isPageNumber last then removelast elements else elements)
  end.

Definition findHeading (heading : string) (elements : list Element) : option Element :=
  find (fun element => String.eqb (trim (text element)) heading) elements.

(** An entry of [applicationElementGroups]. *)
Record Group : Type := mkGroup {
  startElement : Element;
  groupElements : list Element
}.

Definition raisedStartElement (startElement : Element) : Element :=
  mkElement (text startElement)
    (mkRectangle (x startElement) (y startElement - height startElement / 2)
                 (width startElement) (height startElement)).

Definition rowTop (elements : list Element) (startElement : Element) : Q :=
  getRowTop elements (raisedStartElement startElement).

(** The top of the row of the next start element, or [Number.MAX_VALUE]. *)
Definition nextRowTop (elements : list Element) (following : list Element) : Q :=
  match following with
  | next :: _ => getRowTop elements next
  | [] => MAX_VALUE
  end.

Definition inRows (top bottom : Q) (element : Element) : bool :=
  Qleb top (y element) && Qltb (y element + height element) bottom.

(** The loop of [parsePdf] that builds [applicationElementGroups]. *)
Fixpoint groupElementsByRow (elements startElements : list Element) : list Group :=
  match startElements with
  | [] => []
  | startElement :: following =>
      mkGroup startElement
        (filter (inRows (rowTop elements startElement) (nextRowTop elements following))
                elements)
      :: groupElementsByRow elements following
  end.

(** The callback of [developmentApplications.some]. *)
Definition clashes (developmentApplication otherDevelopmentApplication : DevelopmentApplication)
    : bool :=
  String.eqb (applicationNumber otherDevelopmentApplication)
             (applicationNumber developmentApplication)
  && (negb (String.eqb (address otherDevelopmentApplication) (address developmentApplication))
      || negb (String.eqb (description otherDevelopmentApplication)
                          (description developmentApplication))
      || negb (String.eqb (receivedDate otherDevelopmentApplication)
                          (receivedDate developmentApplication))).

Definition withApplicationNumber (developmentApplication : DevelopmentApplication)
    (number : string) : DevelopmentApplication :=
  {| applicationNumber := number;
     address := address developmentApplication;
     description := description developmentApplication;
     informationUrl := informationUrl developmentApplication;
     commentUrl := commentUrl developmentApplication;
     scrapeDate := scrapeDate developmentApplication;
     receivedDate := receivedDate developmentApplication |}.

(** [`${applicationNumber} (${suffix})`]. *)
Definition suffixed (applicationNumber : string) (suffix : nat) : string :=
  applicationNumber ++ " (" ++ natToString suffix ++ ")".

(** The [while] loop that adds a suffix: one unit of [fuel] for each
    pass through its body. *)
Fixpoint addSuffix (fuel : nat) (developmentApplications : list DevelopmentApplication)
    (applicationNumber : string) (suffix : nat)
    (developmentApplication : DevelopmentApplication)
    : Completion DevelopmentApplication :=
  if existsb (clashes developmentApplication) developmentApplications
  then match fuel with
       | 0 => Unfinished
       | S fuel' =>
           addSuffix fuel' developmentApplications applicationNumber (S suffix)
             (withApplicationNumber developmentApplication
                (suffixed applicationNumber (S suffix)))
       end
  else Normal developmentApplication.

(** What is pushed for a parsed application.  The loop is given one
    pass more than there are applications so far, which is enough
    (see [addSuffix_finishes]). *)
Definition uniqueApplication (developmentApplications : list DevelopmentApplication)
    (developmentApplication : DevelopmentApplication)
    : Completion DevelopmentApplication :=
  addSuffix (S (List.length developmentApplications)) developmentApplications
    (applicationNumber developmentApplication) 0 developmentApplication.

Section Page.

Variable SuburbNames : SuburbTable.
Variable today : string.
Variable url : string.

(** The last loop of a page in [parsePdf], over the groups. *)
Fixpoint parseGroups (applicantElement applicationElement proposalElement : Element)
    (referralsElement : option Element) (groups : list Group)
    (developmentApplications : list DevelopmentApplication)
    : Eff (list DevelopmentApplication) :=
  match groups with
  | [] => ret developmentApplications
  | applicationElementGroup :: rest =>
      developmentApplication <-
        parseApplicationElements SuburbNames today
          (groupElements applicationElementGroup) (startElement applicationElementGroup)
          applicantElement applicationElement proposalElement referralsElement url ;;
      match developmentApplication with
      | None =>
          parseGroups applicantElement applicationElement proposalElement
            referralsElement rest developmentApplications
      | Some developmentApplication =>
          developmentApplication <-
            lift (uniqueApplication developmentApplications developmentApplication) ;;
          parseGroups applicantElement applicationElement proposalElement
            referralsElement rest (developmentApplications ++ [developmentApplication])%list
      end
  end.

Definition missingHeading (heading : string) (elements : list Element) : string :=
  "No development applications can be parsed from the current page because the "
  ++ dquote ++ heading ++ dquote
  ++ " column heading was not found.  Elements: " ++ elementSummary elements.

Definition readingLine (pageIndex numPages : nat) : string :=
  "Reading and parsing applications from page " ++ natToString (pageIndex + 1)
  ++ " of " ++ natToString numPages ++ ".".

(** The body of the loop of [parsePdf] over the pages, from the search
    for the column headings on. *)
Definition parseElements (elements : list Element)
    (developmentApplications : list DevelopmentApplication)
    : Eff (list DevelopmentApplication) :=
  let applicantElement := findHeading "Applicant" elements in
  let applicationElement := findHeading "Application" elements in
  let proposalElement := findHeading "Proposal" elements in
  let referralsElement := findHeading "Referrals/" elements in
  match applicantElement, applicationElement, proposalElement with
  | None, _, _ =>
      log (missingHeading "Applicant" elements) ;;; ret developmentApplications
  | Some _, None, _ =>
      log (missingHeading "Application Date" elements) ;;; ret developmentApplications
  | Some _, Some _, None =>
      log (missingHeading "Proposal" elements) ;;; ret developmentApplications
  | Some applicantElement, Some applicationElement, Some proposalElement =>
      startElements <- lift (findStartElements elements) ;;
      parseGroups applicantElement applicationElement proposalElement referralsElement
        (groupElementsByRow elements startElements) developmentApplications
  end.

(** The body of the loop of [parsePdf] over the pages; [items] are the
    elements built from the text items of the page.  They are sorted
    and the page number is popped before anything is looked for. *)
Definition parsePage (pageIndex numPages : nat) (items : list Element)
    (developmentApplications : list DevelopmentApplication)
    : Eff (list DevelopmentApplication) :=
  log (readingLine pageIndex numPages) ;;;
  elements <- lift (withoutPageNumber (sort elementComparer items)) ;;
  parseElements elements developmentApplications.

Fixpoint parsePages (pageIndex numPages : nat) (pages : list (list Element))
    (developmentApplications : list DevelopmentApplication)
    : Eff (list DevelopmentApplication) :=
  match pages with
  | [] => ret developmentApplications
  | items :: rest =>
      developmentApplications <- parsePage pageIndex numPages items developmentApplications ;;
      parsePages (S pageIndex) numPages rest developmentApplications
  end.

(** [parsePdf(url)], given the pages of the document read from [url]. *)
Definition parsePdf (pages : list (list Element)) : Eff (list DevelopmentApplication) :=
  parsePages 0 (List.length pages) pages [].

End Page.

End Scraper.

Import Scraper.

(** ** Sample pages *)

Module Samples.

Local Open Scope string_scope.

Definition fragment (t : string) (left top w h : Q) : Element :=
  mkElement t (mkRectangle left top w h).

Definition applicationHeading : Element := fragment "Application" 50 0 40 10.
Definition applicantHeading : Element := fragment "Applicant" 200 0 40 10.
Definition proposalHeading : Element := fragment "Proposal" 260 0 40 10.
Definition referralsHeading : Element := fragment "Referrals/" 400 0 40 10.

Definition headings : list Element :=
  [applicationHeading; applicantHeading; proposalHeading; referralsHeading].

Definition lodgement (top : Q) : Element := fragment "Lodgement" 420 top 50 10.

(** One application: its number, the application date, the address and
    the description on the line of the marker, and the received date
    on the line below. *)
Definition row (top : Q) (number applied received street proposal : string)
    : list Element :=
  [fragment number 0 top 45 10; fragment applied 50 top 40 10;
   fragment street 100 top 80 10; fragment proposal 260 top 30 10;
   lodgement top; fragment received 50 (top + 15) 40 10].

Definition firstRow : list Element :=
  row 30 "123/4567" "1/02/2018" "5/03/2018" "7 Smith ST KAPUNDA" "Shed".

Definition secondRow : list Element :=
  row 70 "123/4568" "2/02/2018" "6/03/2018" "9 Jones RD KAPUNDA" "Verandah".

(** A row whose texts never end with a slash and four digits. *)
Definition unnumberedRow : list Element :=
  row 50 "DA 12" "3/02/18" "4/03/18" "1 High ST KAPUNDA" "Fence".

Definition suburbs : SuburbTable := [("KAPUNDA", "KAPUNDA SA 5373")].

Definition portAugusta : SuburbTable := [("PORT AUGUSTA", "PORT AUGUSTA, SA 5700")].

(** Two records of the same number that differ in their descriptions. *)
Definition shed : DevelopmentApplication :=
  {| applicationNumber := "123/4567";
     address := "7 Smith ST, KAPUNDA SA 5373";
     description := "Shed";
     informationUrl := "https://www.light.sa.gov.au/register.pdf";
     commentUrl := CommentUrl;
     scrapeDate := "2018-10-20";
     receivedDate := "2018-02-01" |}.

Definition carport : DevelopmentApplication :=
  {| applicationNumber := "123/4567";
     address := "7 Smith ST, KAPUNDA SA 5373";
     description := "Carport";
     informationUrl := "https://www.light.sa.gov.au/register.pdf";
     commentUrl := CommentUrl;
     scrapeDate := "2018-10-20";
     receivedDate := "2018-02-01" |}.

Definition today : string := "2018-10-20".
Definition url : string := "https://www.light.sa.gov.au/register.pdf".

(** A page of two applications with its page number at the foot. *)
Definition twoRowPage : list Element :=
  (headings ++ firstRow ++ secondRow ++ [fragment "3" 300 100 5 10])%list.

(** A marker followed, within reach on the same line, by a fragment
    that holds one space. *)
Definition markerAndSpace : list Element :=
  [fragment "Lodgement" 0 0 50 10; fragment " " 51 0 3 10].

(** A small fragment between the two rows. *)
Definition note : Element := fragment "note" 300 66 20 2.

(** A tall fragment that starts in the first row and ends in the second. *)
Definition tall : Element := fragment "tall" 300 45 20 40.

Definition pageWithNote : list Element :=
  (headings ++ firstRow ++ [note] ++ secondRow)%list.

Definition pageWithTall : list Element :=
  (headings ++ firstRow ++ [tall] ++ secondRow)%list.

End Samples.

(** ** Notions the properties are stated with *)

Module Properties.

Local Open Scope string_scope.

(** The address [formatAddress] returns. *)
Definition formattedAddress (SuburbNames : SuburbTable) (address : string) : string :=
  match fst (formatAddress SuburbNames address) with
  | Normal formatted => formatted
  | _ => address
  end.

(** The record of a band whose application number and application
    date element have been found. *)
Definition recordOf (SuburbNames : SuburbTable) (today : string)
    (elements : list Element) (number : string)
    (applicationDateElement proposalElement : Element)
    (referralsElement : option Element) (informationUrl : string)
    : DevelopmentApplication :=
  {| applicationNumber := number;
     address := formattedAddress SuburbNames
                  (addressText elements applicationDateElement proposalElement);
     description :=
       if String.eqb (trim (descriptionText elements proposalElement referralsElement)) ""
       then "No Description Provided"
       else descriptionText elements proposalElement referralsElement;
     informationUrl := informationUrl;
     commentUrl := CommentUrl;
     scrapeDate := today;
     receivedDate := match Moment.parseStrict (trim (text applicationDateElement)) with
                     | Some d => Moment.format d
                     | None => ""
                     end |}.

(** Row bands that partition the page: a fragment lies in some band
    exactly when it is not above the top of the first band, and it
    lies in one band at most. *)
Definition RowBandsPartition (elements startElements : list Element) : Prop :=
  (forall e, In e elements ->
     ((exists g, In g (groupElementsByRow elements startElements)
                 /\ In e (groupElements g))
      <-> (exists first rest, startElements = first :: rest
                              /\ (rowTop elements first <= y e)%Q)))
  /\ (forall i j gi gj e,
        i <> j ->
        nth_error (groupElementsByRow elements startElements) i = Some gi ->
        nth_error (groupElementsByRow elements startElements) j = Some gj ->
        In e (groupElements gi) -> In e (groupElements gj) -> False).

(** The application with the number tried at the [n]-th pass of the
    loop that adds a suffix. *)
Definition candidate (developmentApplication : DevelopmentApplication) (n : nat)
    : DevelopmentApplication :=
  match n with
  | O => developmentApplication
  | S _ => withApplicationNumber developmentApplication
             (suffixed (applicationNumber developmentApplication) n)
  end.

Definition sameContent (a b : DevelopmentApplication) : Prop :=
  address a = address b /\ description a = description b
  /\ receivedDate a = receivedDate b.

(** No two applications of the list share a number and differ in
    address, description or received date. *)
Definition consistent (developmentApplications : list DevelopmentApplication) : Prop :=
  forall a b, In a developmentApplications -> In b developmentApplications ->
              applicationNumber a = applicationNumber b -> sameContent a b.

(** [a] need not come after [b]: the comparer does not answer 1. *)
Definition noLater (A : Type) (comparer : A -> A -> comparison) (a b : A) : Prop :=
  comparer a b <> Gt.

(** [a] comes no later than [b] in the order of [elementComparer]. *)
Definition readingOrder (a b : Element) : Prop :=
  (y a < y b)%Q \/ ((y a == y b)%Q /\ (x a <= x b)%Q).

End Properties.

Import Properties.

(** ** The choice of the documents to parse *)

Module Driver.

Local Open Scope string_scope.
Local Open Scope nat_scope.

(** [getRandom(minimum, maximum)], given the number [random] that
    [Math.random()] returns. *)
Definition getRandom (random minimum maximum : Q) : Z :=
  (Qfloor (random * inject_Z (Qfloor maximum - Qceiling minimum))
   + Qceiling minimum)%Z.

(** [s.includes(sub)]. *)
Fixpoint includes (s sub : string) : bool :=
  String.prefix sub s
  || match s with
     | EmptyString => false
     | String _ s' => includes s' sub
     end.

(** The loop of [main] over the links of the page: [hrefs] are the
    links once resolved against the address of the page. *)
Definition collectPdfUrls (hrefs : list string) : list string :=
  fold_left
    (fun pdfUrls href =>
       if includes (toLowerCase href) ".pdf"
       then if existsb (fun url => String.eqb url href) pdfUrls
            then pdfUrls
            else (pdfUrls ++ [href])%list
       else pdfUrls)
    hrefs [].

(** [pdfUrls[index]] for the number [getRandom] returns; [None] is
    [undefined]. *)
Definition atIndex (pdfUrls : list string) (index : Z) : option string :=
  if (index <? 0)%Z then None else nth_error pdfUrls (Z.to_nat index).

(** The selection of [main]: the list is reversed, its first address
    is taken, one of the others is drawn, and the two are swapped on
    the toss of a coin.  [random1] and [random2] are the numbers the
    two calls of [Math.random()] return; [None] is the early return
    when there is no address. *)
Definition selectPdfUrls (pdfUrls : list string) (random1 random2 : Q)
    : option (list (option string)) :=
  match rev pdfUrls with
  | [] => None
  | first :: pdfUrls =>
      let selectedPdfUrls := [Some first] in
      let selectedPdfUrls :=
        if 0 <? List.length pdfUrls
        then (selectedPdfUrls
              ++ [atIndex pdfUrls
                    (getRandom random1 0 (inject_Z (Z.of_nat (List.length pdfUrls))))])%list
        else selectedPdfUrls in
      Some (if (getRandom random2 0 2 =? 0)%Z
            then rev selectedPdfUrls
            else selectedPdfUrls)
  end.

End Driver.

Import Driver.

(** ** Further samples and notions *)

Module MoreSamples.

Local Open Scope string_scope.

(** A row whose number is there and whose date column is empty. *)
Definition undatedRow : list Element :=
  [Samples.fragment "123/4569" 0 90 45 10;
   Samples.fragment "3 Mill RD KAPUNDA" 100 90 80 10;
   Samples.lodgement 90].

(** A row whose number is written in two fragments, with white space
    in both. *)
Definition splitNumberRow : list Element :=
  [Samples.fragment "DA 123/" 0 110 25 10; Samples.fragment " 4570" 26 110 18 10;
   Samples.fragment "4/02/2018" 50 110 40 10;
   Samples.fragment "5 Hill ST KAPUNDA" 100 110 80 10;
   Samples.fragment "Pergola" 260 110 30 10; Samples.lodgement 110].

Definition links : list string :=
  ["https://www.light.sa.gov.au/a.pdf"; "https://www.light.sa.gov.au/about";
   "https://www.light.sa.gov.au/b.PDF"; "https://www.light.sa.gov.au/a.pdf";
   "https://www.light.sa.gov.au/c.pdf"].

(** The applications of the document made of the sample page of two
    rows. *)
Definition twoRowRecords : list DevelopmentApplication :=
  Eval vm_compute in
    match fst (parsePdf Samples.suburbs Samples.today Samples.url [Samples.twoRowPage]) with
    | Normal developmentApplications => developmentApplications
    | _ => []
    end.

End MoreSamples.

Module MoreProperties.

Local Open Scope string_scope.

(** The tests of [getRightElement] on a candidate, the comparison of
    distances apart. *)
Definition toTheRight (element rightElement : Element) : bool :=
  isVerticalOverlap element rightElement
  && Qltb 50 (getVerticalOverlapPercentage element rightElement)
  && Qltb (x element + width element) (x rightElement)
  && Qltb (x rightElement - (x element + width element)) 30.

(** The tests of [getRowTop] on an element. *)
Definition inRowOf (startElement : Rectangle) (element : Element) : bool :=
  Qltb (y element) (y startElement + height startElement)
  && Qltb (y startElement) (y element + height element)
  && Qltb 50 (getVerticalOverlapPercentage startElement element).

(** A string that ends with a slash and four digits. *)
Definition SlashFourDigits (s : string) : Prop :=
  exists (before : string) (d1 d2 d3 d4 : ascii),
    s = before ++ String "/" (String d1 (String d2 (String d3 (String d4 EmptyString))))
    /\ isDigit d1 = true /\ isDigit d2 = true
    /\ isDigit d3 = true /\ isDigit d4 = true.

(** A string that is empty or begins with a character that is no
    white space. *)
Definition startsBlack (s : string) : bool :=
  match s with
  | EmptyString => true
  | String c _ => negb (isWhiteSpace c)
  end.

(** What every record of a document carries: the address of the
    document, the address for comments, the date of the scrape, a
    description that is not empty, and a number that ends with a slash
    and four digits, followed or not by a suffix. *)
Definition wellFormed (today url : string) (r : DevelopmentApplication) : Prop :=
  informationUrl r = url /\ commentUrl r = CommentUrl /\ scrapeDate r = today /\
  description r <> "" /\
  exists base, SlashFourDigits base /\
               (applicationNumber r = base
                \/ exists n, applicationNumber r = suffixed base (S n)).

End MoreProperties.

Import MoreProperties.

Unset Implicit Arguments.

(** ** Facts of the geometry kernel *)

Section GeometryFacts.

Local Open Scope Q_scope.

Lemma Qleb_true (a b : Q) : Qleb a b = true <-> a <= b.
Proof.
  unfold Qleb. destruct (Qlt_le_dec b a) as [H | H]; split; intro K;
    try reflexivity; try discriminate; try assumption.
  exfalso. apply (Qlt_not_le _ _ H K).
Qed.

Lemma Qleb_false (a b : Q) : Qleb a b = false <-> b < a.
Proof.
  unfold Qleb. destruct (Qlt_le_dec b a) as [H | H]; split; intro K;
    try reflexivity; try discriminate; try assumption.
  exfalso. apply (Qlt_not_le _ _ K H).
Qed.

Lemma Qltb_true (a b : Q) : Qltb a b = true <-> a < b.
Proof.
  unfold Qltb. destruct (Qlt_le_dec a b) as [H | H]; split; intro K;
    try reflexivity; try discriminate; try assumption.
  exfalso. apply (Qlt_not_le _ _ K H).
Qed.

Lemma Qltb_false (a b : Q) : Qltb a b = false <-> b <= a.
Proof.
  unfold Qltb. destruct (Qlt_le_dec a b) as [H | H]; split; intro K;
    try reflexivity; try discriminate; try assumption.
  exfalso. apply (Qlt_not_le _ _ H K).
Qed.

Lemma Qmax_comm (a b : Q) : Qmax a b == Qmax b a.
Proof.
  unfold Qmax. destruct (Qlt_le_dec a b), (Qlt_le_dec b a); lra.
Qed.

Lemma Qmin_comm (a b : Q) : Qmin a b == Qmin b a.
Proof.
  unfold Qmin. destruct (Qlt_le_dec a b), (Qlt_le_dec b a); lra.
Qed.

Lemma Qmax_lub (a b : Q) : a <= Qmax a b /\ b <= Qmax a b.
Proof. unfold Qmax. destruct (Qlt_le_dec a b); lra. Qed.

Lemma Qmin_glb (a b : Q) : Qmin a b <= a /\ Qmin a b <= b.
Proof. unfold Qmin. destruct (Qlt_le_dec b a); lra. Qed.

Lemma Qmax_cases (a b : Q) : Qmax a b = a \/ Qmax a b = b.
Proof. unfold Qmax. destruct (Qlt_le_dec a b); auto. Qed.

Lemma Qmin_cases (a b : Q) : Qmin a b = a \/ Qmin a b = b.
Proof. unfold Qmin. destruct (Qlt_le_dec b a); auto. Qed.

(** Two closed intervals with no common point are strictly apart:
    the larger of the left ends lies beyond the smaller of the right ends. *)
Lemma disjoint_intervals_apart (a1 a2 b1 b2 : Q) :
  (forall t, ~ ((a1 <= t /\ t <= a2) /\ (b1 <= t /\ t <= b2))) ->
  Qmin a2 b2 < Qmax a1 b1.
Proof.
  intro H.
  destruct (Qlt_le_dec (Qmin a2 b2) (Qmax a1 b1)) as [Hlt | Hle]; [exact Hlt |].
  exfalso. apply (H (Qmax a1 b1)).
  pose proof (Qmax_lub a1 b1) as [? ?].
  pose proof (Qmin_glb a2 b2) as [? ?].
  repeat split; lra.
Qed.

Lemma intersect_area_comm (a b : Rectangle) :
  getArea (intersect a b) == getArea (intersect b a).
Proof.
  unfold intersect, getArea.
  set (x1 := Qmax (x a) (x b)). set (x1' := Qmax (x b) (x a)).
  set (y1 := Qmax (y a) (y b)). set (y1' := Qmax (y b) (y a)).
  set (x2 := Qmin (x a + width a) (x b + width b)).
  set (x2' := Qmin (x b + width b) (x a + width a)).
  set (y2 := Qmin (y a + height a) (y b + height b)).
  set (y2' := Qmin (y b + height b) (y a + height a)).
  assert (Ex1 : x1 == x1') by apply Qmax_comm.
  assert (Ey1 : y1 == y1') by apply Qmax_comm.
  assert (Ex2 : x2 == x2') by apply Qmin_comm.
  assert (Ey2 : y2 == y2') by apply Qmin_comm.
  destruct (Qleb x1 x2) eqn:Hx; destruct (Qleb y1 y2) eqn:Hy;
  destruct (Qleb x1' x2') eqn:Hx'; destruct (Qleb y1' y2') eqn:Hy'; simpl;
  rewrite ?Qleb_true, ?Qleb_false in *;
  try (rewrite Ex1, Ex2, Ey1, Ey2; reflexivity);
  try reflexivity; exfalso; lra.
Qed.

Lemma intersect_disjoint (a b : Rectangle) :
  disjointX a b \/ disjointY a b -> intersect a b = zeroRectangle.
Proof.
  intros [H | H]; apply disjoint_intervals_apart in H; unfold intersect.
  - replace (Qleb _ _) with false; [reflexivity |].
    symmetry. apply Qleb_false. exact H.
  - match goal with |- (if ?c && Qleb ?p ?q then _ else _) = _ =>
      replace (Qleb p q) with false; [destruct c; reflexivity |] end.
    symmetry. apply Qleb_false. exact H.
Qed.

End GeometryFacts.

(** ** The intersection of two rectangles *)

Section IntersectionClaims.

Local Open Scope string_scope.
Local Open Scope nat_scope.

(** C9.  The areas of [intersect(a, b)] and [intersect(b, a)] are
    equal, and when the projections of the two rectangles on the x-axis
    or on the y-axis have no point in common, [intersect(a, b)] is the
    rectangle of four zeros. *)
Theorem C9_intersect_area_symmetric_and_zero :
  forall a b : Rectangle,
    (getArea (intersect a b) == getArea (intersect b a))%Q /\
    (disjointX a b \/ disjointY a b -> intersect a b = zeroRectangle).
Proof.
  intros a b. split.
  - apply intersect_area_comm.
  - apply intersect_disjoint.
Qed.

(** Two rectangles side by side, a gap between them. *)
Lemma C9_intersect_witness :
  (getArea (intersect (mkRectangle 0 0 10 10) (mkRectangle 20 0 10 10))
   == getArea (intersect (mkRectangle 20 0 10 10) (mkRectangle 0 0 10 10)))%Q /\
  intersect (mkRectangle 0 0 10 10) (mkRectangle 20 0 10 10) = zeroRectangle.
Proof.
  destruct (C9_intersect_area_symmetric_and_zero
              (mkRectangle 0 0 10 10) (mkRectangle 20 0 10 10)) as [Harea Hzero].
  split; [exact Harea |].
  apply Hzero. left. intros t [[H1 H2] [H3 H4]]. simpl in *. lra.
Defined.

End IntersectionClaims.

(** ** Lists, sorting and searching *)

Section ListFacts.

Variable A : Type.

Lemma find_none_iff (f : A -> bool) (l : list A) :
  find f l = None <-> (forall a, In a l -> f a = false).
Proof.
  induction l as [| b l IH]; simpl.
  - split; [intros _ a [] | reflexivity].
  - destruct (f b) eqn:Hb.
    + split; [discriminate |].
      intro H. rewrite (H b (or_introl eq_refl)) in Hb. discriminate.
    + rewrite IH. split.
      * intros H a [<- | Ha]; [exact Hb | exact (H a Ha)].
      * intros H a Ha. apply H. right. exact Ha.
Qed.

Lemma In_removelast (a : A) (l : list A) : In a (removelast l) -> In a l.
Proof.
  induction l as [| b l IH]; simpl; [tauto |].
  destruct l as [| c l]; [intros [] |].
  intros [<- | H]; [left; reflexivity | right; apply IH; exact H].
Qed.

Variable comparer : A -> A -> comparison.

Lemma In_insertSorted (a b : A) (l : list A) :
  In b (JSArray.insertSorted comparer a l) <-> b = a \/ In b l.
Proof.
  induction l as [| c l IH]; simpl.
  - intuition congruence.
  - destruct (comparer a c); simpl; rewrite ?IH; intuition congruence.
Qed.

Lemma In_sort (b : A) (l : list A) : In b (JSArray.sort comparer l) <-> In b l.
Proof.
  unfold JSArray.sort.
  induction l as [| a l IH]; simpl; [tauto |].
  rewrite In_insertSorted, IH. intuition congruence.
Qed.

Lemma sort_nil_iff (l : list A) : JSArray.sort comparer l = [] <-> l = [].
Proof.
  split; [| intros ->; reflexivity].
  destruct l as [| a l]; [reflexivity |].
  intro H. exfalso.
  assert (Hin : In a (JSArray.sort comparer (a :: l)))
    by (apply In_sort; left; reflexivity).
  rewrite H in Hin. exact Hin.
Qed.

End ListFacts.

Lemma lastElement_none (l : list Element) : lastElement l = None <-> l = [].
Proof.
  split; [| intros ->; reflexivity].
  induction l as [| a l IH]; [reflexivity |].
  simpl. destruct l as [| b l]; [discriminate |].
  intro H. specialize (IH H). discriminate.
Qed.

Lemma lastElement_app (l : list Element) (e : Element) :
  lastElement l = Some e -> l = (removelast l ++ [e])%list.
Proof.
  induction l as [| a l IH]; [discriminate |].
  destruct l as [| b l].
  - simpl. intros [= ->]. reflexivity.
  - intro H. change (lastElement (b :: l) = Some e) in H.
    change (removelast (a :: b :: l)) with (a :: removelast (b :: l)).
    simpl app. f_equal. apply IH. exact H.
Qed.

(** ** The sort puts a list in the order of its comparer *)

Section SortFacts.

Variable A : Type.
Variable comparer : A -> A -> comparison.

Hypothesis comparer_total : forall a b, comparer a b = Gt -> comparer b a <> Gt.
Hypothesis comparer_trans :
  forall a b c, noLater comparer a b -> noLater comparer b c -> noLater comparer a c.

Lemma insertSorted_sorted (a : A) (l : list A) :
  StronglySorted (noLater comparer) l ->
  StronglySorted (noLater comparer) (JSArray.insertSorted comparer a l).
Proof.
  induction l as [| b l IH]; intro Hs; simpl.
  - constructor; [constructor | constructor].
  - apply StronglySorted_inv in Hs. destruct Hs as [Hl Hb].
    destruct (comparer a b) eqn:Hab.
    + constructor; [constructor; assumption |].
      assert (Hle : noLater comparer a b) by (unfold noLater; congruence).
      constructor; [exact Hle |].
      rewrite Forall_forall in *. intros c Hc.
      apply comparer_trans with b; [exact Hle | apply Hb; exact Hc].
    + constructor; [constructor; assumption |].
      assert (Hle : noLater comparer a b) by (unfold noLater; congruence).
      constructor; [exact Hle |].
      rewrite Forall_forall in *. intros c Hc.
      apply comparer_trans with b; [exact Hle | apply Hb; exact Hc].
    + constructor; [apply IH; exact Hl |].
      rewrite Forall_forall in *. intros c Hc.
      apply In_insertSorted in Hc. destruct Hc as [-> | Hc].
      * apply comparer_total. exact Hab.
      * apply Hb. exact Hc.
Qed.

Lemma sort_sorted (l : list A) :
  StronglySorted (noLater comparer) (JSArray.sort comparer l).
Proof.
  unfold JSArray.sort. induction l as [| a l IH]; simpl.
  - constructor.
  - apply insertSorted_sorted. exact IH.
Qed.

Lemma sorted_before_last (R : A -> A -> Prop) (l : list A) (e a : A) :
  StronglySorted R (l ++ [e]) -> In a l -> R a e.
Proof.
  induction l as [| b l IH]; intros Hs Ha; [destruct Ha |].
  simpl in Hs. apply StronglySorted_inv in Hs. destruct Hs as [Hl Hb].
  destruct Ha as [<- | Ha].
  - rewrite Forall_forall in Hb. apply Hb. apply in_or_app. right. left. reflexivity.
  - apply IH; assumption.
Qed.

End SortFacts.

Section ComparerFacts.

Local Open Scope Q_scope.

Lemma xComparer_noLater (a b : Element) : noLater xComparer a b <-> x a <= x b.
Proof.
  unfold noLater, xComparer.
  destruct (Qltb (x b) (x a)) eqn:H1.
  - apply Qltb_true in H1. split; [congruence | intro; exfalso; lra].
  - apply Qltb_false in H1.
    destruct (Qltb (x a) (x b)); split; intros; try assumption; discriminate.
Qed.

Lemma elementComparer_noLater (a b : Element) :
  noLater elementComparer a b <-> readingOrder a b.
Proof.
  unfold noLater, elementComparer, readingOrder.
  destruct (Qltb (y b) (y a)) eqn:H1.
  - apply Qltb_true in H1. split; [congruence |].
    intros [H | [H _]]; exfalso; lra.
  - apply Qltb_false in H1.
    destruct (Qltb (y a) (y b)) eqn:H2.
    + apply Qltb_true in H2. split; [intros _; left; exact H2 | discriminate].
    + apply Qltb_false in H2.
      destruct (Qltb (x b) (x a)) eqn:H3.
      * apply Qltb_true in H3. split; [congruence |].
        intros [H | [_ H]]; exfalso; lra.
      * apply Qltb_false in H3. split; [| destruct (Qltb (x a) (x b)); discriminate].
        intros _. right. split; [lra | exact H3].
Qed.

Lemma xComparer_total (a b : Element) : xComparer a b = Gt -> xComparer b a <> Gt.
Proof.
  intro H. apply xComparer_noLater.
  unfold xComparer in H.
  destruct (Qltb (x b) (x a)) eqn:H1.
  - apply Qltb_true in H1. lra.
  - destruct (Qltb (x a) (x b)); discriminate.
Qed.

Lemma xComparer_trans (a b c : Element) :
  noLater xComparer a b -> noLater xComparer b c -> noLater xComparer a c.
Proof. rewrite !xComparer_noLater. lra. Qed.

Lemma elementComparer_total (a b : Element) :
  elementComparer a b = Gt -> elementComparer b a <> Gt.
Proof.
  intro H. apply elementComparer_noLater. unfold readingOrder.
  unfold elementComparer in H.
  destruct (Qltb (y b) (y a)) eqn:H1.
  - apply Qltb_true in H1. left. exact H1.
  - apply Qltb_false in H1.
    destruct (Qltb (y a) (y b)) eqn:H2; [discriminate |].
    apply Qltb_false in H2.
    destruct (Qltb (x b) (x a)) eqn:H3.
    + apply Qltb_true in H3. right. split; lra.
    + destruct (Qltb (x a) (x b)); discriminate.
Qed.

Lemma elementComparer_trans (a b c : Element) :
  noLater elementComparer a b -> noLater elementComparer b c ->
  noLater elementComparer a c.
Proof.
  rewrite !elementComparer_noLater. unfold readingOrder.
  intros [H1 | [H1 H1']] [H2 | [H2 H2']].
  - left. lra.
  - left. lra.
  - left. lra.
  - right. split; lra.
Qed.

End ComparerFacts.

(** ** Computations with console lines *)

Section EffFacts.

Variables A B : Type.

Lemma fst_bind (m : Eff A) (f : A -> Eff B) :
  fst (bind m f) =
  match fst m with
  | Normal a => fst (f a)
  | Throw e => Throw e
  | Unfinished => Unfinished
  end.
Proof.
  unfold bind. destruct m as [[a | e |] lines]; simpl; try reflexivity.
  destruct (f a). reflexivity.
Qed.

Lemma bind_normal (m : Eff A) (f : A -> Eff B) (b : B) :
  fst (bind m f) = Normal b ->
  exists a, fst m = Normal a /\ fst (f a) = Normal b.
Proof.
  rewrite fst_bind. destruct (fst m) as [a | e |]; try discriminate.
  intro H. exists a. split; [reflexivity | exact H].
Qed.

End EffFacts.

(** ** Addresses *)

Section AddressClaims.

Local Open Scope string_scope.
Local Open Scope nat_scope.

Lemma formatAddress_unmatched (SuburbNames : SuburbTable) (address : string) :
  trim address <> "" ->
  findSuburb SuburbNames (split " " (trim address)) [1; 2; 3; 4] = None ->
  formatAddress SuburbNames address
  = (Normal (trim address),
     ["The state and post code will not be added because the suburb was not recognised: "
      ++ trim address]).
Proof.
  intros Hne Hnone. unfold formatAddress.
  apply String.eqb_neq in Hne. rewrite Hne, Hnone. reflexivity.
Qed.

(** C2, as stated: with the table of Port Augusta the address that
    ends in a bracketed number is not turned into the street, the
    suburb, the state and the post code. *)
Lemma C2_bracketed_number_kept :
  fst (formatAddress Samples.portAugusta "7 McAdam RD PORT AUGUSTA (3743)")
  <> Normal "7 McAdam RD, PORT AUGUSTA, SA 5700".
Proof. vm_compute. discriminate. Qed.

(** C2, amended.  [formatAddress] strips nothing from the end of the
    address: the suburb is looked for in the last one to four tokens of
    the trimmed address as it stands, and when none of them matches,
    the trimmed address is returned as it is, with a console line.  With
    the table of Port Augusta, the address that ends in a bracketed
    number comes back unchanged, and the same address without the
    bracketed number is given its suburb, state and post code. *)
Theorem C2_formatAddress_strips_nothing :
  (forall (SuburbNames : SuburbTable) (address : string),
     trim address <> "" ->
     findSuburb SuburbNames (split " " (trim address)) [1; 2; 3; 4] = None ->
     fst (formatAddress SuburbNames address) = Normal (trim address)) /\
  formatAddress Samples.portAugusta "7 McAdam RD PORT AUGUSTA (3743)"
  = (Normal "7 McAdam RD PORT AUGUSTA (3743)",
     ["The state and post code will not be added because the suburb was not recognised: 7 McAdam RD PORT AUGUSTA (3743)"]) /\
  formatAddress Samples.portAugusta "7 McAdam RD PORT AUGUSTA"
  = (Normal "7 McAdam RD, PORT AUGUSTA, SA 5700", []).
Proof.
  split; [| split; vm_compute; reflexivity].
  intros SuburbNames address Hne Hnone.
  rewrite (formatAddress_unmatched SuburbNames address Hne Hnone). reflexivity.
Qed.

(** An address whose last tokens are no suburb of the table. *)
Lemma C2_formatAddress_witness :
  fst (formatAddress Samples.portAugusta " 12 Main ST (17 ")
  = Normal (trim " 12 Main ST (17 ").
Proof.
  apply (proj1 C2_formatAddress_strips_nothing).
  - vm_compute. discriminate.
  - vm_compute. reflexivity.
Defined.

End AddressClaims.

(** ** One band *)

Section Band.

Local Open Scope string_scope.
Local Open Scope nat_scope.

Variable SuburbNames : SuburbTable.
Variable today : string.

Lemma formatAddress_normal (address : string) :
  exists lines,
    formatAddress SuburbNames address
    = (Normal (formattedAddress SuburbNames address), lines).
Proof.
  unfold formattedAddress, formatAddress.
  destruct (String.eqb (trim address) ""); [eexists; reflexivity |].
  destruct (findSuburb _ _ _) as [[suburbName tokens] |]; eexists; reflexivity.
Qed.

(** What [parseApplicationElements] returns: a record when both the
    application number and the application date element are found. *)
Lemma parseApplicationElements_result (elements : list Element)
    (startElement applicantElement applicationElement proposalElement : Element)
    (referralsElement : option Element) (informationUrl : string) :
  fst (parseApplicationElements SuburbNames today elements startElement applicantElement
         applicationElement proposalElement referralsElement informationUrl)
  = Normal
      match findApplicationNumber elements startElement applicantElement with
      | None => None
      | Some number =>
          match findApplicationDateElement elements applicationElement with
          | None => None
          | Some applicationDateElement =>
              Some (recordOf SuburbNames today elements number applicationDateElement
                      proposalElement referralsElement informationUrl)
          end
      end.
Proof.
  unfold parseApplicationElements.
  destruct (findApplicationNumber _ _ _) as [number |]; [| reflexivity].
  destruct (findApplicationDateElement _ _) as [applicationDateElement |];
    [| reflexivity].
  destruct (formatAddress_normal
              (addressText elements applicationDateElement proposalElement))
    as [lines Hfa].
  rewrite !fst_bind. simpl fst. rewrite Hfa. reflexivity.
Qed.

(** The received date of a record is read from the application date
    element, whatever the search for the received date settles on. *)
Lemma receivedDate_of_application_date (elements : list Element)
    (startElement applicantElement applicationElement proposalElement : Element)
    (referralsElement : option Element) (informationUrl : string)
    (r : DevelopmentApplication) :
  fst (parseApplicationElements SuburbNames today elements startElement applicantElement
         applicationElement proposalElement referralsElement informationUrl)
  = Normal (Some r) ->
  exists applicationDateElement,
    findApplicationDateElement elements applicationElement = Some applicationDateElement /\
    receivedDate r
    = match Moment.parseStrict (trim (text applicationDateElement)) with
      | Some d => Moment.format d
      | None => ""
      end.
Proof.
  rewrite parseApplicationElements_result.
  destruct (findApplicationNumber _ _ _) as [number |]; [| discriminate].
  destruct (findApplicationDateElement _ _) as [d |]; [| discriminate].
  intros [= <-]. exists d. split; reflexivity.
Qed.

Lemma parseApplicationElements_no_number (elements : list Element)
    (startElement applicantElement applicationElement proposalElement : Element)
    (referralsElement : option Element) (informationUrl : string) :
  findApplicationNumber elements startElement applicantElement = None ->
  parseApplicationElements SuburbNames today elements startElement applicantElement
    applicationElement proposalElement referralsElement informationUrl
  = (Normal None,
     ["Could not find the application number on the PDF page for the current development application.  The development application will be ignored.  Elements: "
      ++ elementSummary elements]).
Proof.
  intro H. unfold parseApplicationElements. rewrite H. reflexivity.
Qed.

(** The first index of a run at which the joined text ends with a
    slash and four digits. *)
Lemma firstApplicationNumber_some (candidates : list Element) (text : string) :
  forall n start,
    firstApplicationNumber candidates (seq start n) = Some text <->
    exists k, start <= k < start + n /\
              text = applicationNumberText candidates k /\
              endsWithSlashFourDigits (applicationNumberText candidates k) = true /\
              (forall j, start <= j < k ->
                         endsWithSlashFourDigits (applicationNumberText candidates j)
                         = false).
Proof.
  induction n as [| n IH]; intro start; simpl.
  - split; [discriminate | intros (k & Hk & _); lia].
  - destruct (endsWithSlashFourDigits (applicationNumberText candidates start)) eqn:Hs.
    + split.
      * intros [= <-]. exists start. repeat split; try lia; try assumption.
      * intros (k & Hk & -> & Hend & Hbefore).
        destruct (Nat.eq_dec k start) as [-> | Hne]; [reflexivity |].
        rewrite (Hbefore start) in Hs by lia. discriminate.
    + rewrite IH. split.
      * intros (k & Hk & Ht & Hend & Hbefore).
        exists k. repeat split; try lia; try assumption.
        intros j Hj. destruct (Nat.eq_dec j start) as [-> | Hne]; [exact Hs |].
        apply Hbefore. lia.
      * intros (k & Hk & Ht & Hend & Hbefore).
        assert (k <> start) by (intros ->; congruence).
        exists k. repeat split; try lia; try assumption.
        intros j Hj. apply Hbefore. lia.
Qed.

Lemma firstApplicationNumber_none (candidates : list Element) :
  forall n start,
    firstApplicationNumber candidates (seq start n) = None <->
    (forall k, start <= k < start + n ->
               endsWithSlashFourDigits (applicationNumberText candidates k) = false).
Proof.
  induction n as [| n IH]; intro start; simpl.
  - split; [intros _ k Hk; lia | reflexivity].
  - destruct (endsWithSlashFourDigits (applicationNumberText candidates start)) eqn:Hs.
    + split; [discriminate |].
      intro H. rewrite (H start) in Hs by lia. discriminate.
    + rewrite IH. split.
      * intros H k Hk. destruct (Nat.eq_dec k start) as [-> | Hne]; [exact Hs |].
        apply H. lia.
      * intros H k Hk. apply H. lia.
Qed.

End Band.

(** ** The received date *)

Section ReceivedDateClaims.

Local Open Scope string_scope.
Local Open Scope nat_scope.

(** C1.  In the first sample row the fragment under the application
    date satisfies every test of the search for the received date and
    holds the date 5 March 2018, and it is the element the search
    settles on; the record the row yields carries the application date,
    1 February 2018, as its received date. *)
Theorem C1_received_date_is_application_date :
  findApplicationDateElement Samples.firstRow Samples.applicationHeading
  = Some (Samples.fragment "1/02/2018" 50 30 40 10) /\
  findReceivedDateElement Samples.firstRow Samples.applicationHeading
    (Samples.fragment "1/02/2018" 50 30 40 10)
  = Samples.fragment "5/03/2018" 50 45 40 10 /\
  isReceivedDateElement Samples.applicationHeading
    (Samples.fragment "1/02/2018" 50 30 40 10)
    (Samples.fragment "5/03/2018" 50 45 40 10) = true /\
  option_map Moment.format (Moment.parseStrict (trim "5/03/2018")) = Some "2018-03-05" /\
  option_map receivedDate
    (match fst (parseApplicationElements Samples.suburbs Samples.today Samples.firstRow
                  (Samples.lodgement 30) Samples.applicantHeading
                  Samples.applicationHeading Samples.proposalHeading
                  (Some Samples.referralsHeading) Samples.url) with
     | Normal r => r
     | _ => None
     end)
  = Some "2018-02-01".
Proof. vm_compute. repeat split; reflexivity. Qed.

End ReceivedDateClaims.

(** ** The bands of a page, one after the other *)

Section Groups.

Local Open Scope string_scope.
Local Open Scope nat_scope.

Variable SuburbNames : SuburbTable.
Variables today url : string.
Variables applicantElement applicationElement proposalElement : Element.
Variable referralsElement : option Element.

Local Abbreviation parse :=
  (parseGroups SuburbNames today url applicantElement applicationElement
     proposalElement referralsElement).

(** The applications after a band are those the rest of the bands add
    to the applications so far, with the record of the band, if it has
    one, pushed first. *)
Lemma parseGroups_cons (g : Group) (rest : list Group)
    (developmentApplications : list DevelopmentApplication) :
  fst (parse (g :: rest) developmentApplications)
  = match fst (parseApplicationElements SuburbNames today (groupElements g)
                 (startElement g) applicantElement applicationElement proposalElement
                 referralsElement url) with
    | Normal None => fst (parse rest developmentApplications)
    | Normal (Some developmentApplication) =>
        match uniqueApplication developmentApplications developmentApplication with
        | Normal unique =>
            fst (parse rest (developmentApplications ++ [unique])%list)
        | Throw e => Throw e
        | Unfinished => Unfinished
        end
    | Throw e => Throw e
    | Unfinished => Unfinished
    end.
Proof.
  cbn [parseGroups]. rewrite fst_bind.
  destruct (fst (parseApplicationElements _ _ _ _ _ _ _ _ _)) as [[d |] | e |];
    try reflexivity.
  rewrite fst_bind. unfold lift. simpl fst. reflexivity.
Qed.

(** A band without an application number adds nothing and does not
    stop the bands around it. *)
Lemma parseGroups_dropped (g : Group) (after : list Group) :
  findApplicationNumber (groupElements g) (startElement g) applicantElement = None ->
  forall (before : list Group) (developmentApplications : list DevelopmentApplication),
    fst (parse (before ++ g :: after)%list developmentApplications)
    = fst (parse (before ++ after)%list developmentApplications).
Proof.
  intros Hnone before.
  induction before as [| b before IH]; intro apps.
  - simpl app. rewrite parseGroups_cons.
    rewrite parseApplicationElements_result, Hnone. reflexivity.
  - simpl app. rewrite !parseGroups_cons.
    destruct (fst (parseApplicationElements _ _ _ _ _ _ _ _ _)) as [[d |] | e |];
      try reflexivity.
    + destruct (uniqueApplication apps d); try reflexivity. apply IH.
    + apply IH.
Qed.

End Groups.

Lemma StronglySorted_weaken (A : Type) (R R' : A -> A -> Prop) (l : list A) :
  (forall a b, R a b -> R' a b) -> StronglySorted R l -> StronglySorted R' l.
Proof.
  intros Himp Hs. induction Hs as [| a l Hl IH Ha]; constructor.
  - exact IH.
  - apply Forall_impl with (P := R a); [apply Himp | exact Ha].
Qed.

Lemma applicationNumberElements_In (elements : list Element)
    (startElement applicantElement e : Element) :
  In e (applicationNumberElements elements startElement applicantElement) <->
  In e elements /\ (x e < x applicantElement)%Q
  /\ (y e < y startElement + 2 * height startElement)%Q.
Proof.
  unfold applicationNumberElements.
  rewrite In_sort, filter_In, andb_true_iff, !Qltb_true. tauto.
Qed.

Lemma applicationNumberElements_sorted (elements : list Element)
    (startElement applicantElement : Element) :
  StronglySorted (fun a b : Element => (x a <= x b)%Q)
    (applicationNumberElements elements startElement applicantElement).
Proof.
  apply StronglySorted_weaken with (R := noLater xComparer).
  - intros a b. apply xComparer_noLater.
  - apply sort_sorted; [exact xComparer_total | exact xComparer_trans].
Qed.

(** ** The claims on the fields of a record *)

Section FieldClaims.

Local Open Scope string_scope.
Local Open Scope nat_scope.

(** C6.  The candidates for the application number are the fragments
    of the band to the left of the Applicant heading whose [y] is less
    than that of the start marker plus twice its height, sorted from
    left to right.  The first run of candidates whose texts, joined
    with white space removed, end with a slash and four digits is
    accepted: its text is the application number, it is written to the
    console, and it is the number of the record of the band when the
    application date is found as well.  The number of a record is
    always the text of such a shortest run.  When no run matches, the
    band gives no record and one console line that lists its fragments,
    and the applications of the page are those of the other bands. *)
Theorem C6_application_number :
  forall (SuburbNames : SuburbTable) (today url : string) (elements : list Element)
         (startElement applicantElement applicationElement proposalElement : Element)
         (referralsElement : option Element),
    (forall e,
       In e (applicationNumberElements elements startElement applicantElement) <->
       In e elements /\ (x e < x applicantElement)%Q
       /\ (y e < y startElement + 2 * height startElement)%Q) /\
    StronglySorted (fun a b : Element => (x a <= x b)%Q)
      (applicationNumberElements elements startElement applicantElement) /\
    (forall k,
       1 <= k <= List.length
                   (applicationNumberElements elements startElement applicantElement) ->
       endsWithSlashFourDigits
         (applicationNumberText
            (applicationNumberElements elements startElement applicantElement) k)
       = true ->
       (forall j, 1 <= j < k ->
          endsWithSlashFourDigits
            (applicationNumberText
               (applicationNumberElements elements startElement applicantElement) j)
          = false) ->
       findApplicationNumber elements startElement applicantElement
       = Some (applicationNumberText
                 (applicationNumberElements elements startElement applicantElement) k) /\
       (exists lines,
          snd (parseApplicationElements SuburbNames today elements startElement
                 applicantElement applicationElement proposalElement referralsElement url)
          = ("    Found " ++ dquote
             ++ applicationNumberText
                  (applicationNumberElements elements startElement applicantElement) k
             ++ dquote ++ ".") :: lines) /\
       (forall applicationDateElement,
          findApplicationDateElement elements applicationElement
          = Some applicationDateElement ->
          fst (parseApplicationElements SuburbNames today elements startElement
                 applicantElement applicationElement proposalElement referralsElement url)
          = Normal
              (Some (recordOf SuburbNames today elements
                       (applicationNumberText
                          (applicationNumberElements elements startElement
                             applicantElement) k)
                       applicationDateElement proposalElement referralsElement url)))) /\
    (forall r,
       fst (parseApplicationElements SuburbNames today elements startElement
              applicantElement applicationElement proposalElement referralsElement url)
       = Normal (Some r) ->
       exists k,
         1 <= k <= List.length
                     (applicationNumberElements elements startElement applicantElement) /\
         applicationNumber r
         = applicationNumberText
             (applicationNumberElements elements startElement applicantElement) k /\
         endsWithSlashFourDigits
           (applicationNumberText
              (applicationNumberElements elements startElement applicantElement) k)
         = true /\
         (forall j, 1 <= j < k ->
            endsWithSlashFourDigits
              (applicationNumberText
                 (applicationNumberElements elements startElement applicantElement) j)
            = false)) /\
    ((forall k,
        1 <= k <= List.length
                    (applicationNumberElements elements startElement applicantElement) ->
        endsWithSlashFourDigits
          (applicationNumberText
             (applicationNumberElements elements startElement applicantElement) k)
        = false) ->
     parseApplicationElements SuburbNames today elements startElement applicantElement
       applicationElement proposalElement referralsElement url
     = (Normal None,
        ["Could not find the application number on the PDF page for the current development application.  The development application will be ignored.  Elements: "
         ++ elementSummary elements]) /\
     (forall (before after : list Group)
             (developmentApplications : list DevelopmentApplication),
        fst (parseGroups SuburbNames today url applicantElement applicationElement
               proposalElement referralsElement
               (before ++ mkGroup startElement elements :: after)%list
               developmentApplications)
        = fst (parseGroups SuburbNames today url applicantElement applicationElement
                 proposalElement referralsElement (before ++ after)%list
                 developmentApplications))).
Proof.
  intros SuburbNames today url elements startElement applicantElement
         applicationElement proposalElement referralsElement.
  split; [intro e; apply applicationNumberElements_In |].
  split; [apply applicationNumberElements_sorted |].
  split; [| split].
  - intros k Hk Hend Hbefore.
    assert (Hn : findApplicationNumber elements startElement applicantElement
                 = Some (applicationNumberText
                           (applicationNumberElements elements startElement
                              applicantElement) k)).
    { unfold findApplicationNumber. apply firstApplicationNumber_some.
      exists k. repeat split; try lia; assumption. }
    split; [exact Hn |]. split.
    + unfold parseApplicationElements. rewrite Hn.
      unfold bind at 1. unfold log.
      match goal with
      | |- exists lines, snd (let (r, lines') := ?m in _) = _ =>
          destruct m as [r lines']
      end.
      exists lines'. reflexivity.
    + intros d Hd. rewrite parseApplicationElements_result, Hn, Hd. reflexivity.
  - intros r Hr. rewrite parseApplicationElements_result in Hr.
    destruct (findApplicationNumber elements startElement applicantElement)
      as [number |] eqn:Hn; [| discriminate].
    destruct (findApplicationDateElement elements applicationElement)
      as [d |]; [| discriminate].
    injection Hr as <-. simpl applicationNumber.
    unfold findApplicationNumber in Hn.
    apply firstApplicationNumber_some in Hn.
    destruct Hn as (k & Hk & Ht & Hend & Hbefore).
    exists k. repeat split; try lia; assumption.
  - intro Hnone.
    assert (Hn : findApplicationNumber elements startElement applicantElement = None).
    { unfold findApplicationNumber. apply firstApplicationNumber_none.
      intros k Hk. apply Hnone. lia. }
    split.
    + apply parseApplicationElements_no_number. exact Hn.
    + intros before after apps.
      apply (parseGroups_dropped SuburbNames today url applicantElement
               applicationElement proposalElement referralsElement
               (mkGroup startElement elements) after Hn).
Qed.

(** The sample row whose number is written in two fragments: the
    first fragment alone does not match, the two together do, and the
    record of the row carries their text without its white space.  The
    sample row without a number gives no record, and between two
    other rows it leaves their applications as they are. *)
Lemma C6_application_number_witness :
  (findApplicationNumber MoreSamples.splitNumberRow (Samples.lodgement 110)
     Samples.applicantHeading
   = Some "DA123/4570" /\
   (exists lines,
      snd (parseApplicationElements Samples.suburbs Samples.today
             MoreSamples.splitNumberRow (Samples.lodgement 110)
             Samples.applicantHeading Samples.applicationHeading
             Samples.proposalHeading (Some Samples.referralsHeading) Samples.url)
      = ("    Found " ++ dquote ++ "DA123/4570" ++ dquote ++ ".") :: lines) /\
   (forall applicationDateElement,
      findApplicationDateElement MoreSamples.splitNumberRow Samples.applicationHeading
      = Some applicationDateElement ->
      fst (parseApplicationElements Samples.suburbs Samples.today
             MoreSamples.splitNumberRow (Samples.lodgement 110)
             Samples.applicantHeading Samples.applicationHeading
             Samples.proposalHeading (Some Samples.referralsHeading) Samples.url)
      = Normal
          (Some (recordOf Samples.suburbs Samples.today MoreSamples.splitNumberRow
                   "DA123/4570" applicationDateElement Samples.proposalHeading
                   (Some Samples.referralsHeading) Samples.url)))) /\
  parseApplicationElements Samples.suburbs Samples.today Samples.unnumberedRow
    (Samples.lodgement 50) Samples.applicantHeading Samples.applicationHeading
    Samples.proposalHeading (Some Samples.referralsHeading) Samples.url
  = (Normal None,
     ["Could not find the application number on the PDF page for the current development application.  The development application will be ignored.  Elements: "
      ++ elementSummary Samples.unnumberedRow]) /\
  (forall (before after : list Group)
          (developmentApplications : list DevelopmentApplication),
     fst (parseGroups Samples.suburbs Samples.today Samples.url
            Samples.applicantHeading Samples.applicationHeading
            Samples.proposalHeading (Some Samples.referralsHeading)
            (before ++ mkGroup (Samples.lodgement 50) Samples.unnumberedRow :: after)%list
            developmentApplications)
     = fst (parseGroups Samples.suburbs Samples.today Samples.url
              Samples.applicantHeading Samples.applicationHeading
              Samples.proposalHeading (Some Samples.referralsHeading)
              (before ++ after)%list developmentApplications)).
Proof.
  split.
  - apply (proj1 (proj2 (proj2
             (C6_application_number Samples.suburbs Samples.today Samples.url
                MoreSamples.splitNumberRow (Samples.lodgement 110)
                Samples.applicantHeading Samples.applicationHeading
                Samples.proposalHeading (Some Samples.referralsHeading)))) 2).
    + vm_compute. split; repeat constructor.
    + vm_compute. reflexivity.
    + intros j Hj. assert (j = 1) as -> by lia. vm_compute. reflexivity.
  - apply (proj2 (proj2 (proj2 (proj2
             (C6_application_number Samples.suburbs Samples.today Samples.url
                Samples.unnumberedRow (Samples.lodgement 50) Samples.applicantHeading
                Samples.applicationHeading Samples.proposalHeading
                (Some Samples.referralsHeading)))))).
    intros k Hk.
    assert (Hlen : List.length
                     (applicationNumberElements Samples.unnumberedRow
                        (Samples.lodgement 50) Samples.applicantHeading) = 4)
      by (vm_compute; reflexivity).
    rewrite Hlen in Hk.
    destruct k as [| [| [| [| [| k]]]]]; try lia; vm_compute; reflexivity.
Defined.

(** C8.  A record never has an empty description: when the text
    gathered between the Proposal and the Referrals/ headings is empty
    or white space, the description is the placeholder.  Without the
    Referrals/ heading no text is gathered; a band that gives a record
    with the heading gives, without it, the same record with the
    placeholder for its description; and a page with the three other
    headings goes on to its start markers and bands. *)
Theorem C8_description_placeholder :
  forall (SuburbNames : SuburbTable) (today url : string) (elements : list Element)
         (startElement applicantElement applicationElement proposalElement : Element)
         (referralsElement : option Element),
    (forall r,
       fst (parseApplicationElements SuburbNames today elements startElement
              applicantElement applicationElement proposalElement referralsElement url)
       = Normal (Some r) ->
       description r <> "" /\
       (trim (descriptionText elements proposalElement referralsElement) = "" ->
        description r = "No Description Provided") /\
       fst (parseApplicationElements SuburbNames today elements startElement
              applicantElement applicationElement proposalElement None url)
       = Normal (Some {| applicationNumber := applicationNumber r;
                         address := address r;
                         description := "No Description Provided";
                         informationUrl := informationUrl r;
                         commentUrl := commentUrl r;
                         scrapeDate := scrapeDate r;
                         receivedDate := receivedDate r |})) /\
    (forall (developmentApplications : list DevelopmentApplication)
            (applicant application proposal : Element),
       findHeading "Applicant" elements = Some applicant ->
       findHeading "Application" elements = Some application ->
       findHeading "Proposal" elements = Some proposal ->
       findHeading "Referrals/" elements = None ->
       parseElements SuburbNames today url elements developmentApplications
       = (startElements <- lift (findStartElements elements) ;;
          parseGroups SuburbNames today url applicant application proposal None
            (groupElementsByRow elements startElements) developmentApplications)).
Proof.
  intros SuburbNames today url elements startElement applicantElement
         applicationElement proposalElement referralsElement.
  split.
  - intros r Hr. rewrite parseApplicationElements_result in *.
    destruct (findApplicationNumber elements startElement applicantElement)
      as [number |]; [| discriminate].
    destruct (findApplicationDateElement elements applicationElement)
      as [d |]; [| discriminate].
    injection Hr as <-. unfold recordOf. simpl.
    split; [| split].
    + destruct (String.eqb (trim (descriptionText elements proposalElement
                                    referralsElement)) "") eqn:He.
      * discriminate.
      * intro K. rewrite K in He. discriminate.
    + intro K. rewrite K. reflexivity.
    + reflexivity.
  - intros apps applicant application proposal H1 H2 H3 H4.
    unfold parseElements. rewrite H1, H2, H3, H4. reflexivity.
Qed.

(** The first sample row, parsed without the Referrals/ heading. *)
Lemma C8_description_placeholder_witness :
  fst (parseApplicationElements Samples.suburbs Samples.today Samples.firstRow
         (Samples.lodgement 30) Samples.applicantHeading Samples.applicationHeading
         Samples.proposalHeading None Samples.url)
  = Normal (Some {| applicationNumber := "123/4567";
                    address := "7 Smith ST, KAPUNDA SA 5373";
                    description := "No Description Provided";
                    informationUrl := Samples.url;
                    commentUrl := CommentUrl;
                    scrapeDate := Samples.today;
                    receivedDate := "2018-02-01" |}).
Proof.
  apply (proj1 (C8_description_placeholder Samples.suburbs Samples.today Samples.url
                  Samples.firstRow (Samples.lodgement 30) Samples.applicantHeading
                  Samples.applicationHeading Samples.proposalHeading
                  (Some Samples.referralsHeading))
           {| applicationNumber := "123/4567";
              address := "7 Smith ST, KAPUNDA SA 5373";
              description := "Shed";
              informationUrl := Samples.url;
              commentUrl := CommentUrl;
              scrapeDate := Samples.today;
              receivedDate := "2018-02-01" |}).
  vm_compute. reflexivity.
Defined.

End FieldClaims.

(** ** Start markers *)

Section StartMarkerClaims.

Local Open Scope string_scope.
Local Open Scope nat_scope.

(** Where [matches.reduce] returns, it returns a match of the list
    whose threshold no other match of the list is below. *)
Lemma reduceMatches_lowest (matches : list Match) :
  forall (previous : option Match) (best : Match),
    reduceMatches matches previous = Normal (Some best) ->
    (In best matches \/ previous = Some best) /\
    (forall m, In m matches -> threshold best <= threshold m) /\
    (forall p, previous = Some p -> threshold best <= threshold p).
Proof.
  induction matches as [| current rest IH]; intros previous best H.
  - simpl in H. injection H as ->.
    split; [right; reflexivity |]. split; [intros m [] |].
    intros p [= ->]. apply Nat.le_refl.
  - simpl in H.
    destruct (chooseMatch previous current) as [chosen | e |] eqn:Hc;
      try discriminate.
    destruct (IH chosen best H) as (Hin & Hall & Hprev).
    unfold chooseMatch in Hc.
    destruct previous as [p |].
    + destruct (threshold current <? threshold p) eqn:Hlt.
      * injection Hc as <-. apply Nat.ltb_lt in Hlt.
        specialize (Hprev current eq_refl).
        split; [| split].
        -- destruct Hin as [Hin | [= <-]]; left; [right; exact Hin | left; reflexivity].
        -- intros m [<- | Hm]; [exact Hprev | exact (Hall m Hm)].
        -- intros q [= <-]. lia.
      * destruct (threshold current =? threshold p) eqn:Heq; [discriminate |].
        injection Hc as <-. apply Nat.ltb_ge in Hlt. apply Nat.eqb_neq in Heq.
        specialize (Hprev p eq_refl).
        split; [| split].
        -- destruct Hin as [Hin | [= <-]]; [left; right; exact Hin | right; reflexivity].
        -- intros m [<- | Hm]; [lia | exact (Hall m Hm)].
        -- intros q [= <-]. exact Hprev.
    + injection Hc as <-. specialize (Hprev current eq_refl).
      split; [| split].
      * destruct Hin as [Hin | [= <-]]; left; [right; exact Hin | left; reflexivity].
      * intros m [<- | Hm]; [exact Hprev | exact (Hall m Hm)].
      * intros q [=].
Qed.

(** C4.  On the page of a marker followed by a fragment of one space
    the walk from the marker gathers two matches, both of threshold 0.
    The callback of [reduce] then reads the [text] of a match, which is
    [undefined], so that [findStartElements] throws a [TypeError] and
    records no boundary; the same happens for any two matches of equal
    threshold.  The tie is never broken by the length of the text. *)
Theorem C4_equal_thresholds_throw :
  walk Samples.markerAndSpace 10 (Samples.fragment "Lodgement" 0 0 50 10) [] []
  = [mkMatch (Samples.fragment "Lodgement" 0 0 50 10) 0;
     mkMatch (Samples.fragment " " 51 0 3 10) 0] /\
  findStartElements Samples.markerAndSpace
  = Throw "TypeError: Cannot read property 'trim' of undefined" /\
  (forall (e1 e2 : Element) (t : nat),
     reduceMatches [mkMatch e1 t; mkMatch e2 t] None
     = Throw "TypeError: Cannot read property 'trim' of undefined").
Proof.
  split; [vm_compute; reflexivity |].
  split; [vm_compute; reflexivity |].
  intros e1 e2 t. simpl.
  rewrite Nat.ltb_irrefl, Nat.eqb_refl. reflexivity.
Qed.

End StartMarkerClaims.

(** ** Row bands *)

Section RowBands.

Local Open Scope string_scope.
Local Open Scope nat_scope.

Lemma inRows_true (top bottom : Q) (e : Element) :
  inRows top bottom e = true <-> (top <= y e)%Q /\ (y e + height e < bottom)%Q.
Proof. unfold inRows. rewrite andb_true_iff, Qleb_true, Qltb_true. tauto. Qed.

(** The band of the [i]-th start element. *)
Lemma groupElementsByRow_nth (elements : list Element) :
  forall (startElements : list Element) (i : nat) (g : Group),
    nth_error (groupElementsByRow elements startElements) i = Some g ->
    exists s,
      nth_error startElements i = Some s /\
      startElement g = s /\
      groupElements g
      = filter (inRows (rowTop elements s)
                       (nextRowTop elements (skipn (S i) startElements)))
               elements.
Proof.
  induction startElements as [| s following IH]; intros i g H.
  - destruct i; discriminate.
  - destruct i as [| i].
    + simpl in H. injection H as <-. exists s. repeat split.
    + simpl in H. destruct (IH i g H) as (s' & Hs & Hstart & Hel).
      exists s'. repeat split; assumption.
Qed.

Lemma groupElementsByRow_length (elements startElements : list Element) :
  List.length (groupElementsByRow elements startElements) = List.length startElements.
Proof.
  induction startElements as [| s following IH]; simpl; [reflexivity |].
  rewrite IH. reflexivity.
Qed.

(** C5, as stated: on the sample page with a note between its two
    rows the start markers are the two Lodgement fragments, and the
    bands they give do not partition the page, for the note lies in
    both. *)
Lemma C5_note_in_two_bands :
  findStartElements (JSArray.sort elementComparer Samples.pageWithNote)
  = Normal [Samples.lodgement 30; Samples.lodgement 70] /\
  ~ RowBandsPartition (JSArray.sort elementComparer Samples.pageWithNote)
      [Samples.lodgement 30; Samples.lodgement 70].
Proof.
  split; [vm_compute; reflexivity |].
  intros [_ Hdisjoint].
  pose (groups := groupElementsByRow
                    (JSArray.sort elementComparer Samples.pageWithNote)
                    [Samples.lodgement 30; Samples.lodgement 70]).
  destruct (nth_error groups 0) as [g0 |] eqn:H0; [| vm_compute in H0; discriminate].
  destruct (nth_error groups 1) as [g1 |] eqn:H1; [| vm_compute in H1; discriminate].
  apply (Hdisjoint 0 1 g0 g1 Samples.note);
    [discriminate | exact H0 | exact H1 | |].
  - vm_compute in H0. injection H0 as <-. vm_compute. tauto.
  - vm_compute in H1. injection H1 as <-. vm_compute. tauto.
Qed.

(** On the sample page with a tall fragment across its two rows, the
    tall fragment is not above the top of the first band and lies in
    neither band. *)
Lemma tall_fragment_in_no_band :
  findStartElements (JSArray.sort elementComparer Samples.pageWithTall)
  = Normal [Samples.lodgement 30; Samples.lodgement 70] /\
  (rowTop (JSArray.sort elementComparer Samples.pageWithTall) (Samples.lodgement 30)
   <= y Samples.tall)%Q /\
  forallb (fun g => negb (existsb (fun e => String.eqb (text e) "tall")
                                  (groupElements g)))
          (groupElementsByRow (JSArray.sort elementComparer Samples.pageWithTall)
             [Samples.lodgement 30; Samples.lodgement 70])
  = true.
Proof.
  split; [vm_compute; reflexivity |].
  split; [vm_compute; discriminate | vm_compute; reflexivity].
Qed.

(** C5, amended.  The band of the [i]-th start marker holds exactly the
    fragments of the page with [y] at or below the top found from the
    raised marker and with [y + height] above the top found from the
    next marker as it stands, or [Number.MAX_VALUE] after the last
    marker.  A fragment lies in this band and in a later one only if
    it starts at or below the top of the later band and ends above the
    bottom of this one, so that two bands share no fragment of a height
    that is not negative unless the later one begins above the bottom
    of the earlier. *)
Theorem C5_row_band_members :
  forall (elements startElements : list Element) (i : nat) (gi : Group),
    nth_error (groupElementsByRow elements startElements) i = Some gi ->
    exists si,
      nth_error startElements i = Some si /\
      startElement gi = si /\
      (forall e,
         In e (groupElements gi) <->
         In e elements /\ (rowTop elements si <= y e)%Q
         /\ (y e + height e < nextRowTop elements (skipn (S i) startElements))%Q) /\
      (forall (j : nat) (gj : Group) (e : Element),
         i < j ->
         nth_error (groupElementsByRow elements startElements) j = Some gj ->
         In e (groupElements gi) -> In e (groupElements gj) ->
         exists sj,
           nth_error startElements j = Some sj /\
           (rowTop elements sj <= y e)%Q /\
           (y e + height e < nextRowTop elements (skipn (S i) startElements))%Q /\
           ((0 <= height e)%Q ->
            (rowTop elements sj < nextRowTop elements (skipn (S i) startElements))%Q)).
Proof.
  intros elements startElements i gi Hi.
  destruct (groupElementsByRow_nth elements startElements i gi Hi)
    as (si & Hsi & Hstart & Hel).
  assert (Hmem : forall e,
            In e (groupElements gi) <->
            In e elements /\ (rowTop elements si <= y e)%Q
            /\ (y e + height e < nextRowTop elements (skipn (S i) startElements))%Q).
  { intro e. rewrite Hel, filter_In, inRows_true. tauto. }
  exists si. split; [exact Hsi |]. split; [exact Hstart |]. split; [exact Hmem |].
  intros j gj e Hij Hj Hei Hej.
  destruct (groupElementsByRow_nth elements startElements j gj Hj)
    as (sj & Hsj & _ & Helj).
  rewrite Helj, filter_In, inRows_true in Hej.
  apply Hmem in Hei.
  exists sj. split; [exact Hsj |].
  destruct Hei as (_ & _ & Hbottom). destruct Hej as (_ & Htop & _).
  split; [exact Htop |]. split; [exact Hbottom |].
  intro Hheight. lra.
Qed.

(** The first band of the sample page with a note. *)
Lemma C5_row_band_members_witness :
  exists si,
    nth_error [Samples.lodgement 30; Samples.lodgement 70] 0 = Some si /\
    (forall e,
       In e (filter (inRows (rowTop (JSArray.sort elementComparer Samples.pageWithNote)
                               (Samples.lodgement 30))
                            (nextRowTop (JSArray.sort elementComparer Samples.pageWithNote)
                               [Samples.lodgement 70]))
                    (JSArray.sort elementComparer Samples.pageWithNote)) <->
       In e (JSArray.sort elementComparer Samples.pageWithNote)
       /\ (rowTop (JSArray.sort elementComparer Samples.pageWithNote) si <= y e)%Q
       /\ (y e + height e
           < nextRowTop (JSArray.sort elementComparer Samples.pageWithNote)
               (skipn 1 [Samples.lodgement 30; Samples.lodgement 70]))%Q).
Proof.
  destruct (C5_row_band_members
              (JSArray.sort elementComparer Samples.pageWithNote)
              [Samples.lodgement 30; Samples.lodgement 70] 0
              (mkGroup (Samples.lodgement 30)
                 (filter (inRows (rowTop (JSArray.sort elementComparer Samples.pageWithNote)
                                    (Samples.lodgement 30))
                                 (nextRowTop
                                    (JSArray.sort elementComparer Samples.pageWithNote)
                                    [Samples.lodgement 70]))
                         (JSArray.sort elementComparer Samples.pageWithNote)))
              eq_refl)
    as (si & Hsi & _ & Hmem & _).
  exists si. split; [exact Hsi | exact Hmem].
Defined.

End RowBands.

(** ** Suffixes of application numbers *)

Section Suffixes.

Local Open Scope string_scope.
Local Open Scope nat_scope.

Lemma length_append (a b : string) :
  String.length (a ++ b) = String.length a + String.length b.
Proof. induction a as [| c a IH]; simpl; [reflexivity | rewrite IH; reflexivity]. Qed.

Lemma append_inj_l (a b c : string) : a ++ b = a ++ c -> b = c.
Proof.
  induction a as [| x a IH]; simpl; [tauto |].
  intros [= H]. apply IH. exact H.
Qed.

Lemma append_inj_r (c : string) : forall a b : string, a ++ c = b ++ c -> a = b.
Proof.
  induction a as [| x a IH]; intros [| z b] H.
  - reflexivity.
  - exfalso. apply (f_equal String.length) in H.
    simpl in H. rewrite length_append in H. lia.
  - exfalso. apply (f_equal String.length) in H.
    simpl in H. rewrite length_append in H. lia.
  - simpl in H. injection H as -> H. f_equal. apply IH. exact H.
Qed.

Lemma natToString_inj (n m : nat) : natToString n = natToString m -> n = m.
Proof.
  unfold natToString. intro H.
  apply DecimalNat.Unsigned.to_uint_inj.
  apply (f_equal NilEmpty.uint_of_string) in H.
  rewrite !NilEmpty.usu in H. injection H as H. exact H.
Qed.

Lemma suffixed_inj (base : string) (n m : nat) :
  suffixed base n = suffixed base m -> n = m.
Proof.
  unfold suffixed. intro H.
  apply append_inj_l in H. apply (append_inj_l " (") in H.
  apply append_inj_r in H. apply natToString_inj. exact H.
Qed.

Lemma suffixed_longer (base : string) (n : nat) : suffixed base n <> base.
Proof.
  unfold suffixed. intro H. apply (f_equal String.length) in H.
  rewrite !length_append in H. simpl in H. lia.
Qed.

Variable developmentApplication : DevelopmentApplication.

Lemma candidate_number_inj (n m : nat) :
  applicationNumber (candidate developmentApplication n)
  = applicationNumber (candidate developmentApplication m) -> n = m.
Proof.
  destruct n as [| n], m as [| m]; simpl; intro H.
  - reflexivity.
  - exfalso. symmetry in H. exact (suffixed_longer _ _ H).
  - exfalso. exact (suffixed_longer _ _ H).
  - apply suffixed_inj in H. exact H.
Qed.

Lemma candidate_next (n : nat) :
  withApplicationNumber (candidate developmentApplication n)
    (suffixed (applicationNumber developmentApplication) (S n))
  = candidate developmentApplication (S n).
Proof. destruct n; reflexivity. Qed.

Variable developmentApplications : list DevelopmentApplication.

Local Abbreviation clash n :=
  (existsb (clashes (candidate developmentApplication n)) developmentApplications).

Lemma clash_number (n : nat) :
  clash n = true ->
  In (applicationNumber (candidate developmentApplication n))
     (map applicationNumber developmentApplications).
Proof.
  intro H. apply existsb_exists in H. destruct H as (other & Hin & Hc).
  unfold clashes in Hc. apply andb_true_iff in Hc. destruct Hc as [Hn _].
  apply String.eqb_eq in Hn. rewrite <- Hn. apply in_map. exact Hin.
Qed.

(** Not all of the first candidates can clash: their numbers differ
    from one another, and each clash takes an application of the list
    with that number. *)
Lemma some_candidate_free :
  exists k, k <= List.length developmentApplications /\ clash k = false.
Proof.
  destruct (forallb (fun k => clash k) (seq 0 (S (List.length developmentApplications))))
    eqn:Hall.
  - exfalso. rewrite forallb_forall in Hall.
    assert (Hincl : incl (map (fun k => applicationNumber
                                          (candidate developmentApplication k))
                              (seq 0 (S (List.length developmentApplications))))
                         (map applicationNumber developmentApplications)).
    { intros s Hs. apply in_map_iff in Hs. destruct Hs as (k & <- & Hk).
      apply clash_number. apply Hall. exact Hk. }
    assert (Hnodup : NoDup (map (fun k => applicationNumber
                                            (candidate developmentApplication k))
                                (seq 0 (S (List.length developmentApplications))))).
    { apply Injective_map_NoDup.
      - intros n m. apply candidate_number_inj.
      - apply seq_NoDup. }
    pose proof (NoDup_incl_length Hnodup Hincl) as Hlen.
    rewrite !length_map, length_seq in Hlen. lia.
  - assert (Hex : exists k, In k (seq 0 (S (List.length developmentApplications)))
                            /\ clash k = false).
    { clear -Hall. induction (seq 0 (S (List.length developmentApplications)))
        as [| a l IH]; [discriminate |].
      simpl in Hall. apply andb_false_iff in Hall. destruct Hall as [Ha | Hl].
      - exists a. split; [left; reflexivity | exact Ha].
      - destruct (IH Hl) as (k & Hk & Hc). exists k. split; [right; exact Hk | exact Hc]. }
    destruct Hex as (k & Hk & Hc). apply in_seq in Hk.
    exists k. split; [lia | exact Hc].
Qed.

(** The least candidate that does not clash. *)
Lemma first_candidate_free :
  exists k, k <= List.length developmentApplications /\ clash k = false
            /\ forall j, j < k -> clash j = true.
Proof.
  destruct some_candidate_free as (k & Hk & Hc).
  revert Hk Hc. generalize (List.length developmentApplications) as bound.
  induction k as [k IH] using lt_wf_ind. intros bound Hk Hc.
  destruct (forallb (fun j => clash j) (seq 0 k)) eqn:Hall.
  - exists k. split; [exact Hk |]. split; [exact Hc |].
    intros j Hj. rewrite forallb_forall in Hall. apply Hall. apply in_seq. lia.
  - assert (Hex : exists j, j < k /\ clash j = false).
    { clear -Hall. induction k as [| k IH]; [discriminate |].
      rewrite seq_S, forallb_app in Hall. simpl in Hall.
      apply andb_false_iff in Hall. destruct Hall as [Hl | Hk].
      - destruct (IH Hl) as (j & Hj & Hc). exists j. split; [lia | exact Hc].
      - exists k. split; [lia |]. rewrite andb_true_r in Hk. exact Hk. }
    destruct Hex as (j & Hj & Hcj).
    apply (IH j Hj bound); [lia | exact Hcj].
Qed.

(** The loop stops at the first candidate that does not clash, if it
    has passes enough to reach it. *)
Lemma addSuffix_reaches :
  forall k fuel n,
    k <= fuel ->
    clash (n + k) = false ->
    (forall j, j < k -> clash (n + j) = true) ->
    addSuffix fuel developmentApplications (applicationNumber developmentApplication) n
      (candidate developmentApplication n)
    = Normal (candidate developmentApplication (n + k)).
Proof.
  induction k as [| k IH]; intros fuel n Hfuel Hfree Hbefore.
  - rewrite Nat.add_0_r in *. destruct fuel; simpl; rewrite Hfree; reflexivity.
  - destruct fuel as [| fuel]; [lia |].
    simpl. specialize (Hbefore 0 (Nat.lt_0_succ k)) as H0.
    rewrite Nat.add_0_r in H0. rewrite H0, candidate_next.
    replace (n + S k) with (S n + k) in * by lia.
    apply IH; [lia | exact Hfree |].
    intros j Hj. replace (S n + j) with (n + S j) by lia. apply Hbefore. lia.
Qed.

End Suffixes.

(** ** The applications of a document *)

Section Applications.

Local Open Scope string_scope.
Local Open Scope nat_scope.

Lemma existsb_false (A : Type) (f : A -> bool) (l : list A) :
  existsb f l = false <-> (forall a, In a l -> f a = false).
Proof.
  induction l as [| b l IH]; simpl.
  - split; [intros _ a [] | reflexivity].
  - rewrite orb_false_iff, IH. split.
    + intros [Hb Hl] a [<- | Ha]; [exact Hb | exact (Hl a Ha)].
    + intro H. split; [apply H; left; reflexivity |].
      intros a Ha. apply H. right. exact Ha.
Qed.

(** Two applications of one number do not clash exactly when they
    agree on address, description and received date. *)
Lemma clashes_false (a b : DevelopmentApplication) :
  applicationNumber b = applicationNumber a ->
  (clashes a b = false <-> sameContent b a).
Proof.
  intro Hn. unfold clashes, sameContent.
  rewrite Hn, String.eqb_refl. simpl.
  rewrite !orb_false_iff, !negb_false_iff, !String.eqb_eq. tauto.
Qed.

Lemma sameContent_sym (a b : DevelopmentApplication) :
  sameContent a b -> sameContent b a.
Proof. unfold sameContent. intuition congruence. Qed.


Lemma consistent_push (developmentApplications : list DevelopmentApplication)
    (developmentApplication : DevelopmentApplication) :
  consistent developmentApplications ->
  existsb (clashes developmentApplication) developmentApplications = false ->
  consistent (developmentApplications ++ [developmentApplication]).
Proof.
  intros Hcons Hfree. rewrite existsb_false in Hfree.
  intros a b Ha Hb Hn.
  apply in_app_or in Ha. apply in_app_or in Hb.
  destruct Ha as [Ha | [<- | []]], Hb as [Hb | [<- | []]].
  - apply Hcons; assumption.
  - apply (clashes_false developmentApplication a Hn). apply Hfree. exact Ha.
  - apply sameContent_sym.
    apply (clashes_false developmentApplication b (eq_sym Hn)). apply Hfree. exact Hb.
  - repeat split.
Qed.



Lemma carport_renamed :
  uniqueApplication [Samples.shed] Samples.carport
  = Normal (withApplicationNumber Samples.carport "123/4567 (1)") /\
  uniqueApplication [Samples.shed] Samples.shed = Normal Samples.shed.
Proof. split; vm_compute; reflexivity. Qed.

End Applications.

(** ** Headings *)

Section Headings.

Local Open Scope string_scope.

Lemma findHeading_none (heading : string) (elements : list Element) :
  findHeading heading elements = None <->
  (forall e, In e elements -> trim (text e) <> heading).
Proof.
  unfold findHeading. rewrite find_none_iff.
  split; intros H e He; specialize (H e He).
  - intro K. rewrite K, String.eqb_refl in H. discriminate.
  - apply String.eqb_neq. exact H.
Qed.

(** A heading that no item of the page carries is found neither after
    sorting nor after the page number is popped. *)
Lemma findHeading_page (heading : string) (items elements : list Element) :
  (forall e, In e items -> trim (text e) <> heading) ->
  withoutPageNumber (JSArray.sort elementComparer items) = Normal elements ->
  findHeading heading elements = None.
Proof.
  intros Hlack Hpop. apply findHeading_none. intros e He. apply Hlack.
  unfold withoutPageNumber in Hpop.
  destruct (lastElement _) as [last |]; [| discriminate].
  injection Hpop as <-.
  destruct (isPageNumber last).
  - apply In_removelast in He. apply In_sort in He. exact He.
  - apply In_sort in He. exact He.
Qed.

Lemma withoutPageNumber_nonempty (items : list Element) :
  items <> [] ->
  exists elements,
    withoutPageNumber (JSArray.sort elementComparer items) = Normal elements.
Proof.
  intro Hne. unfold withoutPageNumber.
  destruct (lastElement _) as [last |] eqn:Hlast; [eauto |].
  apply lastElement_none in Hlast. apply sort_nil_iff in Hlast. contradiction.
Qed.

End Headings.

(** ** Pages without a required heading *)

Section MissingHeadings.

Local Open Scope string_scope.

Variable SuburbNames : SuburbTable.
Variables today url : string.

Lemma parseElements_missing (heading : string) (elements : list Element)
    (developmentApplications : list DevelopmentApplication) :
  In heading ["Applicant"; "Application"; "Proposal"] ->
  findHeading heading elements = None ->
  exists reported,
    parseElements SuburbNames today url elements developmentApplications
    = (Normal developmentApplications, [missingHeading reported elements]).
Proof.
  intros Hin Hnone. unfold parseElements.
  destruct (findHeading "Applicant" elements) eqn:H1;
    [| exists "Applicant"; reflexivity].
  destruct (findHeading "Application" elements) eqn:H2;
    [| exists "Application Date"; reflexivity].
  destruct (findHeading "Proposal" elements) eqn:H3;
    [| exists "Proposal"; reflexivity].
  exfalso. simpl in Hin.
  destruct Hin as [<- | [<- | [<- | []]]]; congruence.
Qed.

Lemma parsePage_popped (pageIndex numPages : nat) (items elements : list Element)
    (developmentApplications : list DevelopmentApplication) :
  withoutPageNumber (JSArray.sort elementComparer items) = Normal elements ->
  parsePage SuburbNames today url pageIndex numPages items developmentApplications
  = (log (readingLine pageIndex numPages) ;;;
     parseElements SuburbNames today url elements developmentApplications).
Proof.
  intro H. unfold parsePage, bind, log, lift. rewrite H.
  destruct (parseElements _ _ _ _ _) as [r lines]. reflexivity.
Qed.

Lemma parsePage_empty (pageIndex numPages : nat)
    (developmentApplications : list DevelopmentApplication) :
  parsePage SuburbNames today url pageIndex numPages [] developmentApplications
  = (Throw "TypeError: Cannot read property 'text' of undefined",
     [readingLine pageIndex numPages]).
Proof. reflexivity. Qed.

End MissingHeadings.

(** ** The claim on pages without a required heading *)

Section MissingHeadingClaims.

Local Open Scope string_scope.
Local Open Scope nat_scope.

(** C3.  A page that holds at least one fragment and lacks one of the
    headings Applicant, Application and Proposal adds no record: the
    applications so far are returned as they were, the console gets the
    line that names the missing heading with the fragments of the page,
    nothing is thrown and the pages that follow are parsed.  A page
    that holds no fragment at all lacks every heading as well, and on
    it the test for the page number throws a [TypeError] that ends
    [parsePdf]: the pages that follow are not parsed. *)
Theorem C3_page_without_heading :
  forall (SuburbNames : SuburbTable) (today url : string) (pageIndex numPages : nat)
         (items : list Element) (rest : list (list Element))
         (developmentApplications : list DevelopmentApplication) (heading : string),
    In heading ["Applicant"; "Application"; "Proposal"] ->
    (forall e, In e items -> trim (text e) <> heading) ->
    (items <> [] ->
     exists elements reported,
       withoutPageNumber (JSArray.sort elementComparer items) = Normal elements /\
       parsePage SuburbNames today url pageIndex numPages items developmentApplications
       = (Normal developmentApplications,
          [readingLine pageIndex numPages; missingHeading reported elements]) /\
       parsePages SuburbNames today url pageIndex numPages (items :: rest)
         developmentApplications
       = (log (readingLine pageIndex numPages) ;;;
          log (missingHeading reported elements) ;;;
          parsePages SuburbNames today url (S pageIndex) numPages rest
            developmentApplications)) /\
    (items = [] ->
     parsePages SuburbNames today url pageIndex numPages (items :: rest)
       developmentApplications
     = (Throw "TypeError: Cannot read property 'text' of undefined",
        [readingLine pageIndex numPages])).
Proof.
  intros SuburbNames today url pageIndex numPages items rest apps heading Hin Hlack.
  split.
  - intro Hne.
    destruct (withoutPageNumber_nonempty items Hne) as [elements Hpop].
    pose proof (findHeading_page heading items elements Hlack Hpop) as Hnone.
    destruct (parseElements_missing SuburbNames today url heading elements apps Hin Hnone)
      as [reported Hrep].
    exists elements, reported.
    assert (Hpage : parsePage SuburbNames today url pageIndex numPages items apps
                    = (Normal apps,
                       [readingLine pageIndex numPages; missingHeading reported elements])).
    { rewrite (parsePage_popped SuburbNames today url pageIndex numPages items elements apps Hpop).
      rewrite Hrep. reflexivity. }
    split; [exact Hpop |]. split; [exact Hpage |].
    cbn [parsePages]. rewrite Hpage. unfold bind, log.
    destruct (parsePages _ _ _ _ _ _ _) as [r lines]. reflexivity.
  - intros ->. cbn [parsePages]. rewrite parsePage_empty. reflexivity.
Qed.

(** The page of one fragment lacks the heading Applicant: nothing is
    added and the next page is reached. *)
Lemma C3_page_without_heading_witness :
  (exists elements reported,
     withoutPageNumber (JSArray.sort elementComparer [Samples.proposalHeading])
     = Normal elements /\
     parsePage Samples.suburbs Samples.today Samples.url 0 2 [Samples.proposalHeading] []
     = (Normal [], [readingLine 0 2; missingHeading reported elements]) /\
     parsePages Samples.suburbs Samples.today Samples.url 0 2
       [[Samples.proposalHeading]; Samples.twoRowPage] []
     = (log (readingLine 0 2) ;;; log (missingHeading reported elements) ;;;
        parsePages Samples.suburbs Samples.today Samples.url 1 2 [Samples.twoRowPage] [])).
Proof.
  refine (proj1 (C3_page_without_heading Samples.suburbs Samples.today Samples.url 0 2
            [Samples.proposalHeading] [Samples.twoRowPage] [] "Applicant" _ _) _).
  - simpl. left. reflexivity.
  - intros e [<- | []]. vm_compute. discriminate.
  - discriminate.
Defined.

(** The document of a blank page followed by a page of two
    applications yields a [TypeError] and no application. *)
Lemma blank_page_throws :
  parsePdf Samples.suburbs Samples.today Samples.url [[]; Samples.twoRowPage]
  = (Throw "TypeError: Cannot read property 'text' of undefined", [readingLine 0 2]).
Proof. vm_compute. reflexivity. Qed.

End MissingHeadingClaims.

(** ** The page number *)

Section PageNumber.

Local Open Scope string_scope.
Local Open Scope nat_scope.

Lemma readingOrder_refl (e : Element) : readingOrder e e.
Proof. right. split; [reflexivity | apply Qle_refl]. Qed.

(** C10.  Once the items of a page are sorted by [y] and then [x], the
    last of them comes after every other in that order.  If its text
    holds a digit and converts to a number below 1000 it is popped, and
    the search for the headings, the start markers, the row bands and
    the fields are all computed from the list without it; otherwise
    they are computed from the whole sorted list.  The popped list
    followed by that last element is the sorted list again, so that no
    other element is removed. *)
Theorem C10_page_number_popped :
  forall (SuburbNames : SuburbTable) (today url : string) (pageIndex numPages : nat)
         (items : list Element) (developmentApplications : list DevelopmentApplication)
         (last : Element),
    lastElement (JSArray.sort elementComparer items) = Some last ->
    In last items /\
    (forall e, In e items -> readingOrder e last) /\
    (removelast (JSArray.sort elementComparer items) ++ [last])%list
    = JSArray.sort elementComparer items /\
    parsePage SuburbNames today url pageIndex numPages items developmentApplications
    = (log (readingLine pageIndex numPages) ;;;
       parseElements SuburbNames today url
         (if containsDigit (text last)
             && JSNumber.lessThan (JSNumber.Number (text last)) 1000
          then removelast (JSArray.sort elementComparer items)
          else JSArray.sort elementComparer items)
         developmentApplications).
Proof.
  intros SuburbNames today url pageIndex numPages items apps last Hlast.
  pose proof (lastElement_app _ _ Hlast) as Happ.
  pose proof (sort_sorted Element elementComparer elementComparer_total
                elementComparer_trans items) as Hsorted.
  assert (Hin : In last (JSArray.sort elementComparer items)).
  { rewrite Happ. apply in_or_app. right. left. reflexivity. }
  split; [apply In_sort in Hin; exact Hin |].
  split; [| split].
  - intros e He. apply (In_sort Element elementComparer) in He.
    rewrite Happ in He. apply in_app_or in He. destruct He as [He | [<- | []]].
    + apply elementComparer_noLater.
      apply (sorted_before_last Element (noLater elementComparer)
               (removelast (JSArray.sort elementComparer items)) last e);
        [rewrite <- Happ; exact Hsorted | exact He].
    + apply readingOrder_refl.
  - symmetry. exact Happ.
  - apply parsePage_popped. unfold withoutPageNumber. rewrite Hlast. reflexivity.
Qed.

(** On the sample page the fragment at the foot, whose text is 3, is
    the last in reading order and is popped. *)
Lemma C10_page_number_witness :
  In (Samples.fragment "3" 300 100 5 10) Samples.twoRowPage /\
  (forall e, In e Samples.twoRowPage ->
             readingOrder e (Samples.fragment "3" 300 100 5 10)) /\
  (removelast (JSArray.sort elementComparer Samples.twoRowPage)
   ++ [Samples.fragment "3" 300 100 5 10])%list
  = JSArray.sort elementComparer Samples.twoRowPage /\
  parsePage Samples.suburbs Samples.today Samples.url 0 1 Samples.twoRowPage []
  = (log (readingLine 0 1) ;;;
     parseElements Samples.suburbs Samples.today Samples.url
       (if containsDigit (text (Samples.fragment "3" 300 100 5 10))
           && JSNumber.lessThan
                (JSNumber.Number (text (Samples.fragment "3" 300 100 5 10))) 1000
        then removelast (JSArray.sort elementComparer Samples.twoRowPage)
        else JSArray.sort elementComparer Samples.twoRowPage)
       []).
Proof.
  apply (C10_page_number_popped Samples.suburbs Samples.today Samples.url 0 1
           Samples.twoRowPage [] (Samples.fragment "3" 300 100 5 10)).
  vm_compute. reflexivity.
Defined.

End PageNumber.

(** ** A document is parsed to the end, and its applications agree *)

Section Documents.

Local Open Scope string_scope.
Local Open Scope nat_scope.

Variable SuburbNames : SuburbTable.
Variables today url : string.

Lemma uniqueApplication_normal (developmentApplications : list DevelopmentApplication)
    (developmentApplication : DevelopmentApplication) :
  exists unique,
    uniqueApplication developmentApplications developmentApplication = Normal unique /\
    (consistent developmentApplications ->
     consistent (developmentApplications ++ [unique])).
Proof.
  destruct (first_candidate_free developmentApplication developmentApplications)
    as (n & Hn & Hfree & Hbefore).
  exists (candidate developmentApplication n). split.
  - unfold uniqueApplication.
    apply (addSuffix_reaches developmentApplication developmentApplications n
             (S (List.length developmentApplications)) 0);
      [lia | exact Hfree | exact Hbefore].
  - intro Hcons. apply consistent_push; assumption.
Qed.

Lemma parseGroups_outcome
    (applicantElement applicationElement proposalElement : Element)
    (referralsElement : option Element) (groups : list Group) :
  forall developmentApplications,
    fst (parseGroups SuburbNames today url applicantElement applicationElement
           proposalElement referralsElement groups developmentApplications)
    <> Unfinished /\
    (forall result,
       consistent developmentApplications ->
       fst (parseGroups SuburbNames today url applicantElement applicationElement
              proposalElement referralsElement groups developmentApplications)
       = Normal result ->
       consistent result).
Proof.
  induction groups as [| g rest IH]; intro apps.
  - simpl. split; [discriminate |]. intros result Hc [= <-]. exact Hc.
  - rewrite parseGroups_cons, parseApplicationElements_result.
    destruct (findApplicationNumber _ _ _) as [number |]; [| apply IH].
    destruct (findApplicationDateElement _ _) as [d |]; [| apply IH].
    destruct (uniqueApplication_normal apps
                (recordOf SuburbNames today (groupElements g) number d
                   proposalElement referralsElement url)) as (unique & Hu & Hcons).
    rewrite Hu. destruct (IH (apps ++ [unique])%list) as [Hfin Hres].
    split; [exact Hfin |].
    intros result Hc Hr. apply Hres; [apply Hcons; exact Hc | exact Hr].
Qed.

Lemma reduceMatches_finishes (matches : list Match) :
  forall previous, reduceMatches matches previous <> Unfinished.
Proof.
  induction matches as [| current rest IH]; intro previous; simpl; [discriminate |].
  destruct previous as [p |]; simpl.
  - destruct (threshold current <? threshold p); [apply IH |].
    destruct (threshold current =? threshold p); [discriminate | apply IH].
  - apply IH.
Qed.

Lemma collectStartElements_finishes (elements candidates : list Element) :
  forall startElements,
    collectStartElements elements candidates startElements <> Unfinished.
Proof.
  induction candidates as [| c rest IH]; intro startElements;
    cbn [collectStartElements]; [discriminate |].
  destruct (walk elements 10 c [] []) as [| m matches]; [apply IH |].
  pose proof (reduceMatches_finishes (m :: matches) None) as Hr.
  destruct (reduceMatches (m :: matches) None) as [[best |] | e |];
    [apply IH | discriminate | discriminate | contradiction].
Qed.

Lemma findStartElements_finishes (elements : list Element) :
  findStartElements elements <> Unfinished.
Proof.
  unfold findStartElements.
  pose proof (collectStartElements_finishes elements (filter startsWithL elements) [])
    as Hc.
  destruct (collectStartElements _ _ _); [discriminate | discriminate | contradiction].
Qed.

Lemma parseElements_outcome (elements : list Element)
    (developmentApplications : list DevelopmentApplication) :
  fst (parseElements SuburbNames today url elements developmentApplications)
  <> Unfinished /\
  (forall result,
     consistent developmentApplications ->
     fst (parseElements SuburbNames today url elements developmentApplications)
     = Normal result ->
     consistent result).
Proof.
  unfold parseElements.
  destruct (findHeading "Applicant" elements) as [a |];
    [| split; [discriminate | intros result Hc [= <-]; exact Hc]].
  destruct (findHeading "Application" elements) as [b |];
    [| split; [discriminate | intros result Hc [= <-]; exact Hc]].
  destruct (findHeading "Proposal" elements) as [c |];
    [| split; [discriminate | intros result Hc [= <-]; exact Hc]].
  rewrite fst_bind. unfold lift. simpl fst.
  pose proof (findStartElements_finishes elements) as Hs.
  destruct (findStartElements elements) as [startElements | e |];
    [| split; [discriminate | intros result _ [=]] | contradiction].
  apply parseGroups_outcome.
Qed.

Lemma parsePage_outcome (pageIndex numPages : nat) (items : list Element)
    (developmentApplications : list DevelopmentApplication) :
  fst (parsePage SuburbNames today url pageIndex numPages items developmentApplications)
  <> Unfinished /\
  (forall result,
     consistent developmentApplications ->
     fst (parsePage SuburbNames today url pageIndex numPages items
            developmentApplications)
     = Normal result ->
     consistent result).
Proof.
  unfold parsePage. rewrite !fst_bind. unfold log, lift. simpl fst.
  unfold withoutPageNumber.
  destruct (lastElement _) as [last |];
    [| split; [discriminate | intros result _ [=]]].
  apply parseElements_outcome.
Qed.

Lemma parsePages_outcome (numPages : nat) (pages : list (list Element)) :
  forall pageIndex developmentApplications,
    fst (parsePages SuburbNames today url pageIndex numPages pages
           developmentApplications)
    <> Unfinished /\
    (forall result,
       consistent developmentApplications ->
       fst (parsePages SuburbNames today url pageIndex numPages pages
              developmentApplications)
       = Normal result ->
       consistent result).
Proof.
  induction pages as [| items rest IH]; intros pageIndex apps.
  - simpl. split; [discriminate |]. intros result Hc [= <-]. exact Hc.
  - cbn [parsePages]. rewrite fst_bind.
    destruct (parsePage_outcome pageIndex numPages items apps) as [Hfin Hres].
    destruct (fst (parsePage _ _ _ _ _ _ _)) as [apps' | e |];
      [| split; [discriminate | intros result _ [=]] | contradiction].
    destruct (IH (S pageIndex) apps') as [Hfin' Hres'].
    split; [exact Hfin' |].
    intros result Hc Hr. apply Hres'; [apply Hres; [exact Hc | reflexivity] | exact Hr].
Qed.

(** [parsePdf] ends, with the applications or with a [TypeError], and
    no two of the applications it returns share a number and differ in
    address, description or received date. *)
Lemma parsePdf_outcome (pages : list (list Element)) :
  fst (parsePdf SuburbNames today url pages) <> Unfinished /\
  (forall result,
     fst (parsePdf SuburbNames today url pages) = Normal result -> consistent result).
Proof.
  unfold parsePdf.
  destruct (parsePages_outcome (List.length pages) pages 0 []) as [Hfin Hres].
  split; [exact Hfin |].
  intros result Hr. apply Hres; [| exact Hr]. intros a b [].
Qed.

End Documents.

(** ** More on the geometry kernel

    The facts of this section rest on the order of the edges as they
    are computed and on the signs of their differences; none of them
    compares a difference of edges with a side, which rounding could
    upset. *)

Section OverlapFacts.

Local Open Scope Q_scope.

Lemma Qmax_ge_l (a b : Q) : a <= Qmax a b.
Proof. apply Qmax_lub. Qed.

Lemma Qmax_ge_r (a b : Q) : b <= Qmax a b.
Proof. apply Qmax_lub. Qed.

Lemma Qmin_le_l (a b : Q) : Qmin a b <= a.
Proof. apply Qmin_glb. Qed.

Lemma Qmin_le_r (a b : Q) : Qmin a b <= b.
Proof. apply Qmin_glb. Qed.

(** For a second element of positive height the percentage of overlap
    is never negative, and it is 0 when the first element has no
    positive height or when one of the two elements ends at or above
    the top of the other. *)
Theorem overlap_percentage_not_negative :
  forall a b : Rectangle,
    0 < height b ->
    0 <= getVerticalOverlapPercentage a b /\
    (height a <= 0 \/ y a + height a <= y b \/ y b + height b <= y a ->
     getVerticalOverlapPercentage a b == 0).
Proof.
  intros a b Hb. unfold getVerticalOverlapPercentage.
  set (y1 := Qmax (y a) (y b)).
  set (y2 := Qmin (y a + height a) (y b + height b)).
  assert (Ha1 : y a <= y1) by apply Qmax_ge_l.
  assert (Hb1 : y b <= y1) by apply Qmax_ge_r.
  assert (Ha2 : y2 <= y a + height a) by apply Qmin_le_l.
  assert (Hb2 : y2 <= y b + height b) by apply Qmin_le_r.
  destruct (Qltb y2 y1) eqn:Hlt.
  - split; [lra | intros _; reflexivity].
  - apply Qltb_false in Hlt. split.
    + apply Qle_shift_div_l; [exact Hb | lra].
    + intro Happart.
      assert (E0 : y2 - y1 == 0) by lra.
      unfold Qdiv. rewrite E0. ring.
Qed.

(** An element that begins where the other ends. *)
Lemma overlap_percentage_not_negative_witness :
  getVerticalOverlapPercentage (mkRectangle 0 0 5 10) (mkRectangle 0 10 5 10) == 0.
Proof.
  apply (proj2 (overlap_percentage_not_negative
                  (mkRectangle 0 0 5 10) (mkRectangle 0 10 5 10) eq_refl)).
  right. left. simpl. lra.
Defined.

(** The test of overlap does not depend on the order of its two
    elements, and it holds wherever the percentage of overlap is
    positive, whichever element is taken first. *)
Theorem overlap_test_symmetric_and_implied :
  forall a b : Rectangle,
    isVerticalOverlap a b = isVerticalOverlap b a /\
    (0 < getVerticalOverlapPercentage a b -> isVerticalOverlap a b = true).
Proof.
  intros a b. split.
  - unfold isVerticalOverlap. apply andb_comm.
  - unfold getVerticalOverlapPercentage, isVerticalOverlap.
    set (y1 := Qmax (y a) (y b)).
    set (y2 := Qmin (y a + height a) (y b + height b)).
    assert (Ha1 : y a <= y1) by apply Qmax_ge_l.
    assert (Hb1 : y b <= y1) by apply Qmax_ge_r.
    assert (Ha2 : y2 <= y a + height a) by apply Qmin_le_l.
    assert (Hb2 : y2 <= y b + height b) by apply Qmin_le_r.
    destruct (Qltb y2 y1) eqn:Hlt; [intro H; exfalso; lra |].
    apply Qltb_false in Hlt. intro Hpos.
    assert (Hstrict : y1 < y2).
    { destruct (Qlt_le_dec y1 y2) as [H | H]; [exact H |]. exfalso.
      assert (E : (y2 - y1) * 100 / height b == 0).
      { assert (E0 : y2 - y1 == 0) by lra.
        unfold Qdiv. rewrite E0. ring. }
      rewrite E in Hpos. lra. }
    apply andb_true_iff. split; apply Qltb_true; lra.
Qed.

(** Two elements that share half of the height of the second. *)
Lemma overlap_test_witness :
  isVerticalOverlap (mkRectangle 0 0 5 10) (mkRectangle 0 5 5 10) = true.
Proof.
  apply (proj2 (overlap_test_symmetric_and_implied
                  (mkRectangle 0 0 5 10) (mkRectangle 0 5 5 10))).
  vm_compute. reflexivity.
Defined.

(** The rectangle [intersect] returns never has a negative side,
    whatever the signs of the sides of its arguments, and when one of
    its sides is positive its left edge is the larger of the two left
    edges and its top edge the larger of the two top edges. *)
Theorem intersect_sides_not_negative :
  forall a b : Rectangle,
    0 <= width (intersect a b) /\
    0 <= height (intersect a b) /\
    (0 < width (intersect a b) \/ 0 < height (intersect a b) ->
     x a <= x (intersect a b) /\ x b <= x (intersect a b) /\
     (x (intersect a b) = x a \/ x (intersect a b) = x b) /\
     y a <= y (intersect a b) /\ y b <= y (intersect a b) /\
     (y (intersect a b) = y a \/ y (intersect a b) = y b)).
Proof.
  intros a b. unfold intersect.
  assert (Hx1 : x a <= Qmax (x a) (x b)) by apply Qmax_ge_l.
  assert (Hx2 : x b <= Qmax (x a) (x b)) by apply Qmax_ge_r.
  assert (Hy1 : y a <= Qmax (y a) (y b)) by apply Qmax_ge_l.
  assert (Hy2 : y b <= Qmax (y a) (y b)) by apply Qmax_ge_r.
  assert (Hx : Qmax (x a) (x b) = x a \/ Qmax (x a) (x b) = x b)
    by (unfold Qmax; destruct (Qlt_le_dec (x a) (x b)); [right | left]; reflexivity).
  assert (Hy : Qmax (y a) (y b) = y a \/ Qmax (y a) (y b) = y b)
    by (unfold Qmax; destruct (Qlt_le_dec (y a) (y b)); [right | left]; reflexivity).
  destruct (Qleb (Qmax (x a) (x b)) (Qmin (x a + width a) (x b + width b))) eqn:Ex;
    destruct (Qleb (Qmax (y a) (y b)) (Qmin (y a + height a) (y b + height b))) eqn:Ey;
    simpl; rewrite ?Qleb_true in *;
    try (split; [lra | split; [lra | intros [H | H]; exfalso; lra]]).
  split; [lra |]. split; [lra |]. intros _. tauto.
Qed.

(** Two squares of side 10 that share a square of side 5. *)
Lemma intersect_sides_witness :
  x (mkRectangle 5 5 10 10)
  <= x (intersect (mkRectangle 0 0 10 10) (mkRectangle 5 5 10 10)).
Proof.
  apply (proj2 (proj2 (intersect_sides_not_negative
                         (mkRectangle 0 0 10 10) (mkRectangle 5 5 10 10)))).
  left. reflexivity.
Defined.

End OverlapFacts.

(** ** The top of a row and the element to the right *)

Section Neighbours.

Local Open Scope Q_scope.

Lemma getRowTop_step (startElement : Rectangle) (elements : list Element) :
  forall top : Q,
    let result :=
      fold_left
        (fun top (element : Element) =>
           if Qltb (y element) (y startElement + height startElement)
              && Qltb (y startElement) (y element + height element)
           then if Qltb 50 (getVerticalOverlapPercentage startElement element)
                then if Qltb (y element) top then y element else top
                else top
           else top)
        elements top in
    result <= top /\
    (forall e, In e elements -> inRowOf startElement e = true -> result <= y e) /\
    (result = top \/
     exists e, In e elements /\ inRowOf startElement e = true /\ result = y e).
Proof.
  induction elements as [| a l IH]; intro top; simpl.
  - split; [apply Qle_refl |]. split; [intros e [] | left; reflexivity].
  - set (top' :=
           if Qltb (y a) (y startElement + height startElement)
              && Qltb (y startElement) (y a + height a)
           then if Qltb 50 (getVerticalOverlapPercentage startElement a)
                then if Qltb (y a) top then y a else top
                else top
           else top).
    destruct (IH top') as (Hle & Hmin & Hwho).
    assert (Htop' : top' <= top /\
                    (inRowOf startElement a = true -> top' <= y a) /\
                    (top' = top \/ (inRowOf startElement a = true /\ top' = y a))).
    { unfold top', inRowOf.
      destruct (Qltb (y a) (y startElement + height startElement)
                && Qltb (y startElement) (y a + height a)); simpl;
        [| split; [apply Qle_refl | split; [discriminate | left; reflexivity]]].
      destruct (Qltb 50 (getVerticalOverlapPercentage startElement a)); simpl;
        [| split; [apply Qle_refl | split; [discriminate | left; reflexivity]]].
      destruct (Qltb (y a) top) eqn:Hlt.
      - apply Qltb_true in Hlt.
        split; [lra |]. split; [intros _; apply Qle_refl | right; split; reflexivity].
      - apply Qltb_false in Hlt.
        split; [apply Qle_refl |]. split; [intros _; exact Hlt | left; reflexivity]. }
    destruct Htop' as (Hle' & Hmin' & Hwho').
    split; [lra |]. split.
    + intros e [<- | He] Hin; [specialize (Hmin' Hin); lra | apply Hmin; assumption].
    + destruct Hwho as [Heq | (e & He & Hin & Heq)].
      * destruct Hwho' as [Heq' | [Hin' Heq']].
        -- left. congruence.
        -- right. exists a. split; [left; reflexivity |]. split; [exact Hin' | congruence].
      * right. exists e. split; [right; exact He |]. split; assumption.
Qed.

(** The top of a row is the least [y] among the start element and the
    elements that overlap it by more than half of their height: it is
    not below the start element, not below any such element, and it is
    the [y] of one of them. *)
Theorem getRowTop_least :
  forall (elements : list Element) (startElement : Rectangle),
    getRowTop elements startElement <= y startElement /\
    (forall e, In e elements -> inRowOf startElement e = true ->
               getRowTop elements startElement <= y e) /\
    (getRowTop elements startElement = y startElement \/
     exists e, In e elements /\ inRowOf startElement e = true
               /\ getRowTop elements startElement = y e).
Proof.
  intros elements startElement.
  exact (getRowTop_step startElement elements (y startElement)).
Qed.

(** On the sample page the row of the second marker, raised, starts
    no lower than the note that overlaps it. *)
Lemma getRowTop_least_witness :
  getRowTop Samples.pageWithNote (raisedStartElement (Samples.lodgement 70))
  <= y Samples.note.
Proof.
  apply (proj1 (proj2 (getRowTop_least Samples.pageWithNote
                         (raisedStartElement (Samples.lodgement 70))))).
  - vm_compute. tauto.
  - vm_compute. reflexivity.
Defined.

Lemma getRightElement_step (element : Element) (elements : list Element) :
  forall closestElement : option Element,
    let result :=
      fold_left
        (fun closestElement (rightElement : Element) =>
           if isVerticalOverlap element rightElement
              && Qltb 50 (getVerticalOverlapPercentage element rightElement)
              && Qltb (x element + width element) (x rightElement)
              && Qltb (x rightElement - (x element + width element)) 30
              && Qltb (calculateDistance element rightElement)
                      (calculateDistance element (closestBounds closestElement))
           then Some rightElement
           else closestElement)
        elements closestElement in
    (result = closestElement \/
     exists r, result = Some r /\ In r elements /\ toTheRight element r = true) /\
    calculateDistance element (closestBounds result)
    <= calculateDistance element (closestBounds closestElement) /\
    (forall q, In q elements -> toTheRight element q = true ->
               calculateDistance element (closestBounds result)
               <= calculateDistance element q).
Proof.
  induction elements as [| a l IH]; intro closest; simpl.
  - split; [left; reflexivity |]. split; [apply Qle_refl | intros q []].
  - fold (toTheRight element a).
    set (closest' :=
           if toTheRight element a
              && Qltb (calculateDistance element a)
                      (calculateDistance element (closestBounds closest))
           then Some a else closest).
    destruct (IH closest') as (Hwho & Hle & Hmin).
    assert (Hstep : (closest' = closest \/
                     (closest' = Some a /\ toTheRight element a = true)) /\
                    calculateDistance element (closestBounds closest')
                    <= calculateDistance element (closestBounds closest) /\
                    (toTheRight element a = true ->
                     calculateDistance element (closestBounds closest')
                     <= calculateDistance element a)).
    { unfold closest'.
      destruct (toTheRight element a); simpl;
        [| split; [left; reflexivity | split; [apply Qle_refl | discriminate]]].
      destruct (Qltb _ _) eqn:Hlt.
      - apply Qltb_true in Hlt.
        split; [right; split; reflexivity |].
        split; [simpl; lra | intros _; simpl; apply Qle_refl].
      - apply Qltb_false in Hlt.
        split; [left; reflexivity |]. split; [apply Qle_refl | intros _; exact Hlt]. }
    destruct Hstep as (Hwho' & Hle' & Hmin').
    split; [| split].
    + destruct Hwho as [Heq | (r & Hr & Hin & Hright)].
      * destruct Hwho' as [Heq' | [Heq' Hright']].
        -- left. congruence.
        -- right. exists a. split; [congruence |]. split; [left; reflexivity | exact Hright'].
      * right. exists r. split; [exact Hr |]. split; [right; exact Hin | exact Hright].
    + lra.
    + intros q [<- | Hq] Hright; [specialize (Hmin' Hright); lra | apply Hmin; assumption].
Qed.

(** The element [getRightElement] returns belongs to the page, passes
    the four tests of position and is no farther than any element of
    the page that passes them; when no element of the page passes
    them, it returns [undefined]. *)
Theorem getRightElement_nearest :
  forall (elements : list Element) (element : Element),
    (forall r, getRightElement elements element = Some r ->
       In r elements /\ toTheRight element r = true /\
       (forall q, In q elements -> toTheRight element q = true ->
                  calculateDistance element r <= calculateDistance element q)) /\
    ((forall q, In q elements -> toTheRight element q = false) ->
     getRightElement elements element = None).
Proof.
  intros elements element.
  destruct (getRightElement_step element elements None) as (Hwho & _ & Hmin).
  fold (getRightElement elements element) in Hwho, Hmin.
  split.
  - intros r Hr. rewrite Hr in *. simpl in Hmin.
    destruct Hwho as [Heq | (r' & Hr' & Hin & Hright)]; [discriminate |].
    injection Hr' as <-. split; [exact Hin |]. split; [exact Hright | exact Hmin].
  - intro Hnone.
    destruct Hwho as [Heq | (r' & Hr' & Hin & Hright)]; [exact Heq |].
    rewrite (Hnone r' Hin) in Hright. discriminate.
Qed.

(** The space to the right of the marker of the sample page. *)
Lemma getRightElement_nearest_witness :
  In (Samples.fragment " " 51 0 3 10) Samples.markerAndSpace /\
  toTheRight (Samples.fragment "Lodgement" 0 0 50 10)
             (Samples.fragment " " 51 0 3 10) = true.
Proof.
  destruct (proj1 (getRightElement_nearest Samples.markerAndSpace
                     (Samples.fragment "Lodgement" 0 0 50 10))
              (Samples.fragment " " 51 0 3 10))
    as (Hin & Hright & _).
  - vm_compute. reflexivity.
  - split; assumption.
Defined.

End Neighbours.

(** ** What the search for the start elements returns *)

Section StartElements.

Local Open Scope string_scope.
Local Open Scope nat_scope.

Lemma yComparer_noLater (a b : Element) : noLater yComparer a b <-> (y a <= y b)%Q.
Proof.
  unfold noLater, yComparer.
  destruct (Qltb (y b) (y a)) eqn:H1.
  - apply Qltb_true in H1. split; [congruence | intro; exfalso; lra].
  - apply Qltb_false in H1.
    destruct (Qltb (y a) (y b)); split; intros; try assumption; discriminate.
Qed.

Lemma yComparer_total (a b : Element) : yComparer a b = Gt -> yComparer b a <> Gt.
Proof.
  intro H. apply yComparer_noLater.
  unfold yComparer in H.
  destruct (Qltb (y b) (y a)) eqn:H1.
  - apply Qltb_true in H1. lra.
  - destruct (Qltb (y a) (y b)); discriminate.
Qed.

Lemma yComparer_trans (a b c : Element) :
  noLater yComparer a b -> noLater yComparer b c -> noLater yComparer a c.
Proof. rewrite !yComparer_noLater. lra. Qed.

Lemma length_insertSorted (A : Type) (comparer : A -> A -> comparison) (a : A)
    (l : list A) :
  List.length (JSArray.insertSorted comparer a l) = S (List.length l).
Proof.
  induction l as [| b l IH]; simpl; [reflexivity |].
  destruct (comparer a b); simpl; try reflexivity. rewrite IH. reflexivity.
Qed.

Lemma length_sort (A : Type) (comparer : A -> A -> comparison) (l : list A) :
  List.length (JSArray.sort comparer l) = List.length l.
Proof.
  unfold JSArray.sort. induction l as [| a l IH]; simpl; [reflexivity |].
  rewrite length_insertSorted, IH. reflexivity.
Qed.

Lemma getRightElement_In (elements : list Element) (element r : Element) :
  getRightElement elements element = Some r -> In r elements.
Proof.
  intro H.
  destruct (getRightElement_step element elements None) as (Hwho & _ & _).
  fold (getRightElement elements element) in Hwho. rewrite H in Hwho.
  destruct Hwho as [Heq | (r' & Hr' & Hin & _)]; [discriminate |].
  injection Hr' as <-. exact Hin.
Qed.

Lemma matchThreshold_bound (text : string) (t : nat) :
  matchThreshold text = Some t -> t <= 2.
Proof.
  unfold matchThreshold.
  destruct (String.eqb text "lodgement"); [intros [= <-]; lia |].
  destruct (DidYouMean.didyoumean text ["Lodgement"] 1); [intros [= <-]; lia |].
  destruct (DidYouMean.didyoumean text ["Lodgement"] 2); [intros [= <-]; lia |].
  discriminate.
Qed.

(** The matches of a walk hold elements of the page and thresholds of
    at most 2, and a walk adds at most one match for each pass. *)
Lemma walk_matches (elements : list Element) :
  forall (fuel : nat) (rightElement : Element) (rightElements : list Element)
         (matches : list Match),
    In rightElement elements ->
    (forall m, In m matches -> In (element m) elements /\ threshold m <= 2) ->
    (forall m, In m (walk elements fuel rightElement rightElements matches) ->
               In (element m) elements /\ threshold m <= 2) /\
    List.length (walk elements fuel rightElement rightElements matches)
    <= List.length matches + fuel.
Proof.
  induction fuel as [| fuel IH]; intros r rs ms Hr Hms.
  - simpl. split; [exact Hms | lia].
  - cbn [walk].
    destruct (10 <=? String.length _); [split; [exact Hms | lia] |].
    set (ms' := if 8 <=? String.length _ then _ else ms).
    assert (Hms' : (forall m, In m ms' -> In (element m) elements /\ threshold m <= 2)
                   /\ List.length ms' <= S (List.length ms)).
    { unfold ms'. destruct (8 <=? String.length _); [| split; [exact Hms | lia]].
      destruct (matchThreshold _) as [t |] eqn:Ht; [| split; [exact Hms | lia]].
      split.
      - intros m Hm. apply in_app_or in Hm. destruct Hm as [Hm | [<- | []]].
        + apply Hms. exact Hm.
        + simpl. split; [exact Hr | apply (matchThreshold_bound _ _ Ht)].
      - rewrite length_app. simpl. lia. }
    destruct Hms' as [Hin' Hlen'].
    destruct (getRightElement elements r) as [r' |] eqn:Hright;
      [| split; [exact Hin' | lia]].
    destruct (List.length (rs ++ [r]) <? 10); [| split; [exact Hin' | lia]].
    destruct (IH r' (rs ++ [r])%list ms' (getRightElement_In _ _ _ Hright) Hin')
      as [Hin'' Hlen''].
    split; [exact Hin'' | lia].
Qed.

Lemma reduceMatches_member (matches : list Match) (best : Match) :
  reduceMatches matches None = Normal (Some best) -> In best matches.
Proof.
  intro H. destruct (reduceMatches_lowest matches None best H) as ([Hin | Hp] & _).
  - exact Hin.
  - discriminate.
Qed.

Lemma collectStartElements_members (elements : list Element) :
  forall (candidates startElements result : list Element),
    (forall c, In c candidates -> In c elements) ->
    (forall s, In s startElements -> In s elements) ->
    collectStartElements elements candidates startElements = Normal result ->
    (forall s, In s result -> In s elements) /\
    List.length result <= List.length startElements + List.length candidates.
Proof.
  induction candidates as [| c rest IH]; intros acc result Hcand Hacc Hres.
  - simpl in Hres. injection Hres as <-. split; [exact Hacc | lia].
  - cbn [collectStartElements] in Hres.
    assert (Hrest : forall c', In c' rest -> In c' elements)
      by (intros c' Hc'; apply Hcand; right; exact Hc').
    destruct (walk elements 10 c [] []) as [| m ms] eqn:Hwalk.
    + destruct (IH acc result Hrest Hacc Hres) as [Hin Hlen].
      split; [exact Hin | simpl; lia].
    + destruct (reduceMatches (m :: ms) None) as [[best |] | e |] eqn:Hred;
        try discriminate.
      assert (Hbest : In (element best) elements).
      { apply reduceMatches_member in Hred. rewrite <- Hwalk in Hred.
        apply (proj1 (walk_matches elements 10 c [] []
                        (Hcand c (or_introl eq_refl)) (fun m' (H : In m' []) => match H with end))).
        exact Hred. }
      assert (Hacc' : forall s, In s (acc ++ [element best]) -> In s elements).
      { intros s Hs. apply in_app_or in Hs. destruct Hs as [Hs | [<- | []]];
          [apply Hacc; exact Hs | exact Hbest]. }
      destruct (IH (acc ++ [element best])%list result Hrest Hacc' Hres) as [Hin Hlen].
      split; [exact Hin |]. rewrite length_app in Hlen. simpl in *. lia.
Qed.

(** When [findStartElements] returns, the start elements are in
    ascending order of [y], each of them is an element of the page,
    and there are no more of them than elements of the page whose
    text begins with the letter l. *)
Theorem findStartElements_sorted_members :
  forall (elements startElements : list Element),
    findStartElements elements = Normal startElements ->
    StronglySorted (fun a b : Element => (y a <= y b)%Q) startElements /\
    (forall s, In s startElements -> In s elements) /\
    List.length startElements <= List.length (filter startsWithL elements).
Proof.
  intros elements startElements H. unfold findStartElements in H.
  destruct (collectStartElements elements (filter startsWithL elements) [])
    as [collected | e |] eqn:Hc; try discriminate.
  injection H as <-.
  destruct (collectStartElements_members elements (filter startsWithL elements) []
              collected) as [Hin Hlen].
  - intros c Hc'. apply filter_In in Hc'. tauto.
  - intros s [].
  - exact Hc.
  - split; [| split].
    + apply StronglySorted_weaken with (R := noLater yComparer).
      * intros a b. apply yComparer_noLater.
      * apply sort_sorted; [exact yComparer_total | exact yComparer_trans].
    + intros s Hs. apply In_sort in Hs. apply Hin. exact Hs.
    + rewrite length_sort. simpl in Hlen. exact Hlen.
Qed.

(** The two markers of the sample page with a note. *)
Lemma findStartElements_sorted_members_witness :
  StronglySorted (fun a b : Element => (y a <= y b)%Q)
    [Samples.lodgement 30; Samples.lodgement 70] /\
  (forall s, In s [Samples.lodgement 30; Samples.lodgement 70] ->
             In s (JSArray.sort elementComparer Samples.pageWithNote)) /\
  List.length [Samples.lodgement 30; Samples.lodgement 70]
  <= List.length (filter startsWithL (JSArray.sort elementComparer Samples.pageWithNote)).
Proof.
  apply (findStartElements_sorted_members
           (JSArray.sort elementComparer Samples.pageWithNote)
           [Samples.lodgement 30; Samples.lodgement 70]).
  vm_compute. reflexivity.
Defined.

End StartElements.

(** ** What [formatAddress] returns *)

Section AddressFacts.

Local Open Scope string_scope.
Local Open Scope nat_scope.

Lemma trimEnd_idempotent (s : string) : trimEnd (trimEnd s) = trimEnd s.
Proof.
  induction s as [| c s IH]; [reflexivity |].
  simpl. destruct (trimEnd s) as [| d t] eqn:Ht.
  - destruct (isWhiteSpace c) eqn:Hc; [reflexivity |].
    simpl. rewrite Hc. reflexivity.
  - change (trimEnd (String c (String d t)))
      with (match trimEnd (String d t) with
            | EmptyString => if isWhiteSpace c then EmptyString else String c EmptyString
            | u => String c u
            end).
    rewrite IH. reflexivity.
Qed.

Lemma trimStart_startsBlack (s : string) : startsBlack (trimStart s) = true.
Proof.
  induction s as [| c s IH]; [reflexivity |].
  simpl. destruct (isWhiteSpace c) eqn:Hc; [exact IH |].
  simpl. rewrite Hc. reflexivity.
Qed.

Lemma trimStart_fixed (s : string) : startsBlack s = true -> trimStart s = s.
Proof.
  destruct s as [| c s]; [reflexivity |].
  simpl. intro H. apply negb_true_iff in H. rewrite H. reflexivity.
Qed.

Lemma trimEnd_startsBlack (s : string) :
  startsBlack s = true -> startsBlack (trimEnd s) = true.
Proof.
  destruct s as [| c s]; [reflexivity |].
  simpl. intro H. destruct (trimEnd s).
  - apply negb_true_iff in H. rewrite H. simpl. rewrite H. reflexivity.
  - simpl. exact H.
Qed.

Lemma trim_idempotent (s : string) : trim (trim s) = trim s.
Proof.
  unfold trim.
  rewrite (trimStart_fixed (trimEnd (trimStart s))).
  - apply trimEnd_idempotent.
  - apply trimEnd_startsBlack. apply trimStart_startsBlack.
Qed.

Lemma firstClosest_In (matchList : list string) :
  forall (scores : list nat) (marker threshold : nat) (item : string),
    DidYouMean.firstClosest matchList scores marker threshold = Some item ->
    In item matchList.
Proof.
  induction matchList as [| m l IH]; intros scores marker threshold item H.
  - discriminate.
  - destruct scores as [| score scores]; [discriminate |].
    simpl in H. destruct ((score <=? threshold) && (score =? marker)).
    + injection H as <-. left. reflexivity.
    + right. apply (IH scores marker threshold). exact H.
Qed.

Lemma didyoumean_In (input : string) (matchList : list string) (threshold : nat)
    (item : string) :
  DidYouMean.didyoumean input matchList threshold = Some item -> In item matchList.
Proof.
  unfold DidYouMean.didyoumean.
  destruct (map _ matchList) as [| score scores] eqn:Hs; [discriminate |].
  apply firstClosest_In.
Qed.

Lemma lookup_In (SuburbNames : SuburbTable) (key : string) :
  In key (keys SuburbNames) -> In (key, lookup SuburbNames key) SuburbNames.
Proof.
  induction SuburbNames as [| [k v] rest IH]; [intros [] |].
  simpl. intro H. destruct (String.eqb k key) eqn:Hk.
  - apply String.eqb_eq in Hk. subst. left. reflexivity.
  - right. apply IH. destruct H as [H | H]; [| exact H].
    apply String.eqb_neq in Hk. contradiction.
Qed.

Lemma split_nonempty (sep : ascii) (s : string) : split sep s <> [].
Proof.
  destruct s as [| c s]; simpl; [discriminate |].
  destruct (Ascii.eqb c sep); [discriminate |].
  destruct (split sep s); discriminate.
Qed.

Lemma sliceLast_app (A : Type) (before last : list A) :
  JSArray.sliceLast (List.length last) (before ++ last)%list = last.
Proof.
  unfold JSArray.sliceLast. rewrite length_app.
  replace (List.length before + List.length last - List.length last)
    with (List.length before) by lia.
  rewrite skipn_app, skipn_all, Nat.sub_diag. reflexivity.
Qed.

Lemma spliceLast_app (A : Type) (before last : list A) :
  JSArray.spliceLast (List.length last) (before ++ last)%list = before.
Proof.
  unfold JSArray.spliceLast. rewrite length_app.
  replace (List.length before + List.length last - List.length last)
    with (List.length before) by lia.
  rewrite firstn_app, firstn_all, Nat.sub_diag. simpl. apply app_nil_r.
Qed.

(** The loop stops at the first index whose tokens match a key. *)
Lemma findSuburb_first (SuburbNames : SuburbTable) (tokens : list string) :
  forall (pre : list nat) (index : nat) (post : list nat) (key : string),
    (forall j, In j pre ->
       DidYouMean.didyoumean (join " " (JSArray.sliceLast j tokens))
         (keys SuburbNames) 2 = None) ->
    DidYouMean.didyoumean (join " " (JSArray.sliceLast index tokens))
      (keys SuburbNames) 2 = Some key ->
    findSuburb SuburbNames tokens (pre ++ index :: post)%list
    = Some (lookup SuburbNames key, JSArray.spliceLast index tokens).
Proof.
  induction pre as [| i pre IH]; intros index post key Hpre Hkey; simpl.
  - rewrite Hkey. reflexivity.
  - rewrite (Hpre i) by (left; reflexivity).
    apply IH; [| exact Hkey]. intros j Hj. apply Hpre. right. exact Hj.
Qed.

Lemma findSuburb_found (SuburbNames : SuburbTable) (tokens : list string) :
  forall (indexes : list nat) (suburbName : string) (rest : list string),
    findSuburb SuburbNames tokens indexes = Some (suburbName, rest) ->
    exists pre index post key,
      indexes = (pre ++ index :: post)%list /\
      (forall j, In j pre ->
         DidYouMean.didyoumean (join " " (JSArray.sliceLast j tokens))
           (keys SuburbNames) 2 = None) /\
      DidYouMean.didyoumean (join " " (JSArray.sliceLast index tokens))
        (keys SuburbNames) 2 = Some key /\
      suburbName = lookup SuburbNames key /\
      rest = JSArray.spliceLast index tokens.
Proof.
  induction indexes as [| index others IH]; intros suburbName rest H; [discriminate |].
  simpl in H.
  destruct (DidYouMean.didyoumean _ (keys SuburbNames) 2) as [key |] eqn:Hd.
  - injection H as <- <-. exists [], index, others, key.
    repeat split; try reflexivity; [intros j [] | exact Hd].
  - destruct (IH suburbName rest H) as (pre & i & post & key & -> & Hpre & Hkey & Hs & Hr).
    exists (index :: pre), i, post, key.
    repeat split; try assumption.
    intros j [<- | Hj]; [exact Hd | apply Hpre; exact Hj].
Qed.

(** Where the indexes 1 to 4 are cut in two. *)
Lemma indexes_cut (pre : list nat) (index : nat) (post : list nat) :
  [1; 2; 3; 4] = (pre ++ index :: post)%list ->
  1 <= index <= 4 /\ (forall j, 1 <= j < index -> In j pre).
Proof.
  destruct pre as [| a [| b [| c [| d pre]]]]; simpl; intro H.
  - injection H as <- _. split; [lia | intros j Hj; lia].
  - injection H as <- <- _. split; [lia |]. intros j Hj.
    assert (j = 1) as -> by lia. left. reflexivity.
  - injection H as <- <- <- _. split; [lia |]. intros j Hj.
    assert (j = 1 \/ j = 2) as [-> | ->] by lia; simpl; tauto.
  - injection H as <- <- <- <- _. split; [lia |]. intros j Hj.
    assert (j = 1 \/ j = 2 \/ j = 3) as [-> | [-> | ->]] by lia; simpl; tauto.
  - injection H as _ _ _ _ H. destruct pre; discriminate.
Qed.

(** The address [formatAddress] returns has no white space at either
    end, and an address of nothing but white space gives the empty
    string without a console line. *)
Theorem formatAddress_trimmed :
  forall (SuburbNames : SuburbTable) (address formatted : string) (lines : list string),
    formatAddress SuburbNames address = (Normal formatted, lines) ->
    trim formatted = formatted /\
    (trim address = "" -> formatted = "" /\ lines = []).
Proof.
  intros SuburbNames address formatted lines H. unfold formatAddress in H.
  destruct (String.eqb (trim address) "") eqn:He.
  - injection H as <- <-. split; [reflexivity | intros _; split; reflexivity].
  - apply String.eqb_neq in He.
    destruct (findSuburb _ _ _) as [[suburbName tokens] |].
    + injection H as <- <-. split; [apply trim_idempotent | intro K; contradiction].
    + injection H as <- <-. split; [apply trim_idempotent | intro K; contradiction].
Qed.

Lemma formatAddress_trimmed_witness :
  trim "7 McAdam RD, PORT AUGUSTA, SA 5700" = "7 McAdam RD, PORT AUGUSTA, SA 5700".
Proof.
  apply (proj1 (formatAddress_trimmed Samples.portAugusta
                  "  7 McAdam RD PORT AUGUSTA " "7 McAdam RD, PORT AUGUSTA, SA 5700" []
                  eq_refl)).
Defined.

(** When the last one to four tokens of the trimmed address are the
    shortest run of last tokens that matches a key of the table within
    two edits, [formatAddress] takes exactly these tokens off: it
    returns the tokens before them joined by spaces, then a comma and
    a space unless the street is empty, then the value the table holds
    for the key, and writes no console line.  Conversely an address
    that is not blank is formatted without a console line only in that
    way. *)
Theorem formatAddress_recognised :
  forall (SuburbNames : SuburbTable) (address : string),
    trim address <> "" ->
    (forall (street dropped : list string) (key : string),
       split " " (trim address) = (street ++ dropped)%list ->
       1 <= List.length dropped <= 4 ->
       DidYouMean.didyoumean (join " " dropped) (keys SuburbNames) 2 = Some key ->
       (forall before shorter : list string,
          dropped = (before ++ shorter)%list -> before <> [] -> shorter <> [] ->
          DidYouMean.didyoumean (join " " shorter) (keys SuburbNames) 2 = None) ->
       In (key, lookup SuburbNames key) SuburbNames /\
       formatAddress SuburbNames address
       = (Normal (trim (trim (join " " street)
                        ++ (if String.eqb (trim (join " " street)) "" then "" else ", ")
                        ++ lookup SuburbNames key)),
          [])) /\
    (forall formatted : string,
       formatAddress SuburbNames address = (Normal formatted, []) ->
       exists (street dropped : list string) (key : string),
         split " " (trim address) = (street ++ dropped)%list /\
         1 <= List.length dropped <= 4 /\
         DidYouMean.didyoumean (join " " dropped) (keys SuburbNames) 2 = Some key /\
         (forall before shorter : list string,
            dropped = (before ++ shorter)%list -> before <> [] -> shorter <> [] ->
            DidYouMean.didyoumean (join " " shorter) (keys SuburbNames) 2 = None) /\
         In (key, lookup SuburbNames key) SuburbNames /\
         formatted
         = trim (trim (join " " street)
                 ++ (if String.eqb (trim (join " " street)) "" then "" else ", ")
                 ++ lookup SuburbNames key)).
Proof.
  intros SuburbNames address Hne. split.
  - intros street dropped key Htokens Hlen Hkey Hshorter.
    split; [apply lookup_In; apply (didyoumean_In _ _ _ _ Hkey) |].
    assert (Hfound :
              findSuburb SuburbNames (split " " (trim address)) [1; 2; 3; 4]
              = Some (lookup SuburbNames key, street)).
    { rewrite Htokens.
      assert (Hnone : forall j, 1 <= j < List.length dropped ->
                DidYouMean.didyoumean
                  (join " " (JSArray.sliceLast j (street ++ dropped)%list))
                  (keys SuburbNames) 2 = None).
      { intros j Hj.
        assert (Hcut : dropped
                       = (firstn (List.length dropped - j) dropped
                          ++ skipn (List.length dropped - j) dropped)%list)
          by (symmetry; apply firstn_skipn).
        assert (Hj' : List.length (skipn (List.length dropped - j) dropped) = j)
          by (rewrite length_skipn; lia).
        rewrite Hcut at 1. rewrite app_assoc. rewrite <- Hj' at 1.
        rewrite sliceLast_app.
        apply (Hshorter (firstn (List.length dropped - j) dropped)).
        - exact Hcut.
        - intro E. apply (f_equal (@List.length string)) in E.
          rewrite length_firstn in E. simpl in E. lia.
        - intro E. rewrite E in Hj'. simpl in Hj'. lia. }
      assert (Hhere : DidYouMean.didyoumean
                        (join " " (JSArray.sliceLast (List.length dropped)
                                     (street ++ dropped)%list))
                        (keys SuburbNames) 2 = Some key)
        by (rewrite sliceLast_app; exact Hkey).
      rewrite <- (spliceLast_app string street dropped) at 2.
      revert Hnone Hhere Hlen.
      generalize (List.length dropped). intros n Hnone Hhere Hlen.
      destruct n as [| [| [| [| [| n]]]]]; try lia.
      - apply (findSuburb_first SuburbNames _ [] 1 [2; 3; 4] key); [| exact Hhere].
        intros j [].
      - apply (findSuburb_first SuburbNames _ [1] 2 [3; 4] key); [| exact Hhere].
        intros j Hj. apply Hnone. simpl in Hj. lia.
      - apply (findSuburb_first SuburbNames _ [1; 2] 3 [4] key); [| exact Hhere].
        intros j Hj. apply Hnone. simpl in Hj. lia.
      - apply (findSuburb_first SuburbNames _ [1; 2; 3] 4 [] key); [| exact Hhere].
        intros j Hj. apply Hnone. simpl in Hj. lia. }
    unfold formatAddress. apply String.eqb_neq in Hne. rewrite Hne, Hfound.
    reflexivity.
  - intros formatted H. unfold formatAddress in H.
    apply String.eqb_neq in Hne. rewrite Hne in H.
    destruct (findSuburb _ _ _) as [[suburbName rest] |] eqn:Hfound;
      [| discriminate].
    injection H as <-.
    destruct (findSuburb_found SuburbNames _ _ _ _ Hfound)
      as (pre & index & post & key & Hcut & Hpre & Hkey & -> & ->).
    destruct (indexes_cut pre index post Hcut) as [Hindex Hbelow].
    set (tokens := split " " (trim address)) in *.
    assert (Htokens : 1 <= List.length tokens).
    { destruct tokens eqn:E; [exfalso; apply (split_nonempty " " (trim address)); exact E |].
      simpl. lia. }
    exists (JSArray.spliceLast index tokens), (JSArray.sliceLast index tokens), key.
    assert (Hlen : List.length (JSArray.sliceLast index tokens)
                   = Nat.min index (List.length tokens))
      by (unfold JSArray.sliceLast; rewrite length_skipn; lia).
    split; [unfold JSArray.spliceLast, JSArray.sliceLast; symmetry; apply firstn_skipn |].
    split; [lia |]. split; [exact Hkey |]. split.
    + intros before shorter Hsplit Hbefore Hshorter.
      assert (Hb : 1 <= List.length before) by (destruct before; [contradiction | simpl; lia]).
      assert (Hs : 1 <= List.length shorter) by (destruct shorter; [contradiction | simpl; lia]).
      assert (Hsum : List.length (JSArray.sliceLast index tokens)
                     = List.length before + List.length shorter)
        by (rewrite Hsplit; apply length_app).
      assert (E : JSArray.sliceLast (List.length shorter) tokens = shorter).
      { assert (Ht : tokens = ((JSArray.spliceLast index tokens ++ before) ++ shorter)%list).
        { rewrite <- app_assoc, <- Hsplit.
          unfold JSArray.spliceLast, JSArray.sliceLast. symmetry. apply firstn_skipn. }
        rewrite Ht at 1. apply sliceLast_app. }
      rewrite <- E. apply Hpre. apply Hbelow. lia.
    + split; [apply lookup_In; apply (didyoumean_In _ _ _ _ Hkey) | reflexivity].
Qed.

(** A misspelt suburb of two tokens: the last token alone matches no
    key, the last two are within one edit of the key, and they are
    replaced by the value of the table. *)
Lemma formatAddress_recognised_witness :
  formatAddress Samples.portAugusta " 7 McAdam RD PORT AUGUSTO"
  = (Normal "7 McAdam RD, PORT AUGUSTA, SA 5700", []).
Proof.
  apply (proj1 (formatAddress_recognised Samples.portAugusta " 7 McAdam RD PORT AUGUSTO"
                  ltac:(vm_compute; discriminate))
           ["7"; "McAdam"; "RD"] ["PORT"; "AUGUSTO"] "PORT AUGUSTA").
  - vm_compute. reflexivity.
  - simpl. lia.
  - vm_compute. reflexivity.
  - intros before shorter Hsplit Hbefore Hshorter.
    destruct before as [| b1 [| b2 before]]; [contradiction | |].
    + injection Hsplit as _ <-. vm_compute. reflexivity.
    + injection Hsplit as _ _ Hrest.
      destruct before; destruct shorter; try discriminate. contradiction.
Defined.

End AddressFacts.

(** ** More on the fields of a band *)

Section MoreBandFacts.

Local Open Scope string_scope.
Local Open Scope nat_scope.

Lemma endsWithSlashFourDigits_long (c : ascii) (s : string) :
  5 <= String.length s ->
  endsWithSlashFourDigits (String c s) = endsWithSlashFourDigits s.
Proof.
  destruct s as [| c1 [| c2 [| c3 [| c4 [| c5 s]]]]]; simpl; intro H; try lia.
  reflexivity.
Qed.

(** The test on the text of an application number holds exactly for
    the strings that end with a slash and four digits. *)
Lemma endsWithSlashFourDigits_iff (s : string) :
  endsWithSlashFourDigits s = true <-> SlashFourDigits s.
Proof.
  split.
  - induction s as [| c s IH]; [discriminate |].
    intro H.
    assert (Hcases : (exists d1 d2 d3 d4,
                        s = String d1 (String d2 (String d3 (String d4 EmptyString))))
                     \/ endsWithSlashFourDigits (String c s) = endsWithSlashFourDigits s).
    { destruct s as [| c1 [| c2 [| c3 [| c4 [| c5 s]]]]];
        try (right; reflexivity).
      left. exists c1, c2, c3, c4. reflexivity. }
    destruct Hcases as [(d1 & d2 & d3 & d4 & ->) | Hrec].
    + simpl in H. rewrite !andb_true_iff in H.
      destruct H as ((((Hc & H1) & H2) & H3) & H4).
      apply Ascii.eqb_eq in Hc. subst c.
      exists EmptyString, d1, d2, d3, d4. repeat split; assumption.
    + rewrite Hrec in H. destruct (IH H) as (before & d1 & d2 & d3 & d4 & -> & Hd).
      exists (String c before), d1, d2, d3, d4. split; [reflexivity | exact Hd].
  - intros (before & d1 & d2 & d3 & d4 & -> & H1 & H2 & H3 & H4).
    induction before as [| c before IH].
    + simpl. rewrite H1, H2, H3, H4. reflexivity.
    + change (String c before
              ++ String "/" (String d1 (String d2 (String d3 (String d4 EmptyString)))))
        with (String c (before
              ++ String "/" (String d1 (String d2 (String d3 (String d4 EmptyString)))))).
      rewrite endsWithSlashFourDigits_long; [exact IH |].
      rewrite length_append. simpl. lia.
Qed.

Lemma removeWhiteSpace_idempotent (s : string) :
  removeWhiteSpace (removeWhiteSpace s) = removeWhiteSpace s.
Proof.
  induction s as [| c s IH]; [reflexivity |].
  simpl. destruct (isWhiteSpace c) eqn:Hc; [exact IH |].
  simpl. rewrite Hc, IH. reflexivity.
Qed.

(** An application number that is found ends with a slash and four
    digits and holds no white space. *)
Theorem application_number_form :
  forall (elements : list Element) (startElement applicantElement : Element)
         (number : string),
    findApplicationNumber elements startElement applicantElement = Some number ->
    SlashFourDigits number /\ removeWhiteSpace number = number.
Proof.
  intros elements startElement applicantElement number H.
  unfold findApplicationNumber in H.
  apply firstApplicationNumber_some in H.
  destruct H as (k & _ & -> & Hend & _).
  split; [apply endsWithSlashFourDigits_iff; exact Hend |].
  unfold applicationNumberText. apply removeWhiteSpace_idempotent.
Qed.

Lemma application_number_form_witness :
  SlashFourDigits "123/4567" /\ removeWhiteSpace "123/4567" = "123/4567".
Proof.
  apply (application_number_form Samples.firstRow (Samples.lodgement 30)
           Samples.applicantHeading "123/4567").
  vm_compute. reflexivity.
Defined.

(** An element taken for a date has a positive width and a positive
    height and shares more than a point with the span of the
    Application heading from left to right; the heading has a positive
    width and height as well. *)
Theorem inDateColumn_accepts :
  forall applicationElement element : Element,
    inDateColumn applicationElement element = true ->
    (0 < width element)%Q /\ (0 < height element)%Q /\
    (0 < width applicationElement)%Q /\ (0 < height applicationElement)%Q /\
    (x element < x applicationElement + width applicationElement)%Q /\
    (x applicationElement < x element + width element)%Q.
Proof.
  intros app e H. unfold inDateColumn in H.
  rewrite !andb_true_iff, !Qltb_true in H. destruct H as ((Harea & _) & Hin).
  unfold intersect in Hin. simpl in Hin.
  set (x1 := Qmax (x e) (x app)) in *.
  set (y1 := Qmax (y e) (y e)) in *.
  set (x2 := Qmin (x e + width e) (x app + width app)) in *.
  set (y2 := Qmin (y e + height e) (y e + height app)) in *.
  assert (Hx1 : (x e <= x1)%Q) by apply Qmax_ge_l.
  assert (Hx1' : (x app <= x1)%Q) by apply Qmax_ge_r.
  assert (Hy1 : (y e <= y1)%Q) by apply Qmax_ge_l.
  assert (Hx2 : (x2 <= x e + width e)%Q) by apply Qmin_le_l.
  assert (Hx2' : (x2 <= x app + width app)%Q) by apply Qmin_le_r.
  assert (Hy2 : (y2 <= y e + height e)%Q) by apply Qmin_le_l.
  assert (Hy2' : (y2 <= y e + height app)%Q) by apply Qmin_le_r.
  unfold getArea in *. simpl in *.
  destruct (Qleb x1 x2) eqn:Ex; destruct (Qleb y1 y2) eqn:Ey; simpl in Hin;
    try (exfalso; lra).
  apply Qleb_true in Ex. apply Qleb_true in Ey.
  assert (Hpos : (0 < (x2 - x1) * (y2 - y1))%Q) by lra.
  assert (Hxs : (x1 < x2)%Q).
  { destruct (Qlt_le_dec x1 x2) as [K | K]; [exact K |]. exfalso.
    assert (E : (x2 - x1 == 0)%Q) by lra. rewrite E in Hpos. lra. }
  assert (Hys : (y1 < y2)%Q).
  { destruct (Qlt_le_dec y1 y2) as [K | K]; [exact K |]. exfalso.
    assert (E : (y2 - y1 == 0)%Q) by lra. rewrite E in Hpos. lra. }
  repeat split; lra.
Qed.

Lemma inDateColumn_accepts_witness :
  (x (Samples.fragment "1/02/2018" 50 30 40 10)
   < x Samples.applicationHeading + width Samples.applicationHeading)%Q.
Proof.
  apply (inDateColumn_accepts Samples.applicationHeading
           (Samples.fragment "1/02/2018" 50 30 40 10)).
  vm_compute. reflexivity.
Defined.

Section Skipped.

Variable SuburbNames : SuburbTable.
Variables today url : string.
Variables applicantElement applicationElement proposalElement : Element.
Variable referralsElement : option Element.

(** A band that gives no record adds nothing and does not stop the
    bands around it. *)
Lemma parseGroups_skipped (g : Group) (after : list Group) :
  fst (parseApplicationElements SuburbNames today (groupElements g) (startElement g)
         applicantElement applicationElement proposalElement referralsElement url)
  = Normal None ->
  forall (before : list Group) (developmentApplications : list DevelopmentApplication),
    fst (parseGroups SuburbNames today url applicantElement applicationElement
           proposalElement referralsElement (before ++ g :: after)%list
           developmentApplications)
    = fst (parseGroups SuburbNames today url applicantElement applicationElement
             proposalElement referralsElement (before ++ after)%list
             developmentApplications).
Proof.
  intros Hnone before.
  induction before as [| b before IH]; intro apps.
  - simpl app. rewrite parseGroups_cons, Hnone. reflexivity.
  - simpl app. rewrite !parseGroups_cons.
    destruct (fst (parseApplicationElements _ _ (groupElements b) _ _ _ _ _ _))
      as [[d |] | e |]; try reflexivity.
    + destruct (uniqueApplication apps d); try reflexivity. apply IH.
    + apply IH.
Qed.

End Skipped.

(** A band whose number is found and of which no element passes the
    tests of the date column gives no record: the console gets the
    line of the number found and a line that lists the elements of the
    band, and the applications of the page are those of the other
    bands. *)
Theorem application_date_missing :
  forall (SuburbNames : SuburbTable) (today url : string) (elements : list Element)
         (startElement applicantElement applicationElement proposalElement : Element)
         (referralsElement : option Element) (number : string),
    findApplicationNumber elements startElement applicantElement = Some number ->
    (forall e, In e elements -> inDateColumn applicationElement e = false) ->
    parseApplicationElements SuburbNames today elements startElement applicantElement
      applicationElement proposalElement referralsElement url
    = (Normal None,
       ["    Found " ++ dquote ++ number ++ dquote ++ ".";
        "Could not find the application date on the PDF page for the current development application.  The development application will be ignored.  Elements: "
        ++ elementSummary elements]) /\
    (forall (before after : list Group)
            (developmentApplications : list DevelopmentApplication),
       fst (parseGroups SuburbNames today url applicantElement applicationElement
              proposalElement referralsElement
              (before ++ mkGroup startElement elements :: after)%list
              developmentApplications)
       = fst (parseGroups SuburbNames today url applicantElement applicationElement
                proposalElement referralsElement (before ++ after)%list
                developmentApplications)).
Proof.
  intros SuburbNames today url elements startElement applicantElement
         applicationElement proposalElement referralsElement number Hn Hd.
  assert (Hnone : findApplicationDateElement elements applicationElement = None)
    by (apply find_none_iff; exact Hd).
  assert (Hparse : parseApplicationElements SuburbNames today elements startElement
                     applicantElement applicationElement proposalElement
                     referralsElement url
                   = (Normal None,
                      ["    Found " ++ dquote ++ number ++ dquote ++ ".";
                       "Could not find the application date on the PDF page for the current development application.  The development application will be ignored.  Elements: "
                       ++ elementSummary elements])).
  { unfold parseApplicationElements. rewrite Hn, Hnone. reflexivity. }
  split; [exact Hparse |].
  intros before after apps.
  apply (parseGroups_skipped SuburbNames today url applicantElement applicationElement
           proposalElement referralsElement (mkGroup startElement elements) after).
  simpl. rewrite Hparse. reflexivity.
Qed.

Lemma application_date_missing_witness :
  fst (parseApplicationElements Samples.suburbs Samples.today MoreSamples.undatedRow
         (Samples.lodgement 90) Samples.applicantHeading Samples.applicationHeading
         Samples.proposalHeading (Some Samples.referralsHeading) Samples.url)
  = Normal None.
Proof.
  rewrite (proj1 (application_date_missing Samples.suburbs Samples.today Samples.url
                    MoreSamples.undatedRow (Samples.lodgement 90)
                    Samples.applicantHeading Samples.applicationHeading
                    Samples.proposalHeading (Some Samples.referralsHeading) "123/4569"
                    ltac:(vm_compute; reflexivity)
                    ltac:(intros e He; vm_compute in He;
                          repeat (destruct He as [<- | He]; [vm_compute; reflexivity |]);
                          destruct He))).
  reflexivity.
Defined.

End MoreBandFacts.

(** ** What a document adds, page after page *)

Section Appends.

Local Open Scope string_scope.
Local Open Scope nat_scope.

Variable SuburbNames : SuburbTable.
Variables today url : string.

Lemma uniqueApplication_candidate
    (developmentApplications : list DevelopmentApplication)
    (developmentApplication : DevelopmentApplication) :
  exists n,
    uniqueApplication developmentApplications developmentApplication
    = Normal (candidate developmentApplication n).
Proof.
  destruct (first_candidate_free developmentApplication developmentApplications)
    as (n & Hn & Hfree & Hbefore).
  exists n. unfold uniqueApplication.
  apply (addSuffix_reaches developmentApplication developmentApplications n
           (S (List.length developmentApplications)) 0);
    [lia | exact Hfree | exact Hbefore].
Qed.

(** A property of records that holds of the record of any band whose
    number has been found, with or without a suffix. *)
Variable P : DevelopmentApplication -> Prop.

Hypothesis P_record :
  forall (elements : list Element) (startElement applicantElement : Element)
         (number : string) (applicationDateElement proposalElement : Element)
         (referralsElement : option Element) (n : nat),
    findApplicationNumber elements startElement applicantElement = Some number ->
    P (candidate (recordOf SuburbNames today elements number applicationDateElement
                    proposalElement referralsElement url) n).

Lemma parseGroups_adds
    (applicantElement applicationElement proposalElement : Element)
    (referralsElement : option Element) (groups : list Group) :
  forall developmentApplications result,
    fst (parseGroups SuburbNames today url applicantElement applicationElement
           proposalElement referralsElement groups developmentApplications)
    = Normal result ->
    exists added,
      result = (developmentApplications ++ added)%list /\
      Forall P added /\ List.length added <= List.length groups.
Proof.
  induction groups as [| g rest IH]; intros apps result Hr.
  - simpl in Hr. injection Hr as <-. exists []. rewrite app_nil_r.
    split; [reflexivity |]. split; [constructor | simpl; lia].
  - rewrite parseGroups_cons, parseApplicationElements_result in Hr.
    destruct (findApplicationNumber (groupElements g) (startElement g) applicantElement)
      as [number |] eqn:Hn.
    2:{ destruct (IH apps result Hr) as (added & Hres & Hall & Hlen).
        exists added. split; [exact Hres |]. split; [exact Hall | simpl; lia]. }
    destruct (findApplicationDateElement (groupElements g) applicationElement)
      as [d |].
    2:{ destruct (IH apps result Hr) as (added & Hres & Hall & Hlen).
        exists added. split; [exact Hres |]. split; [exact Hall | simpl; lia]. }
    destruct (uniqueApplication_candidate apps
                (recordOf SuburbNames today (groupElements g) number d
                   proposalElement referralsElement url)) as (n & Hu).
    rewrite Hu in Hr.
    destruct (IH _ result Hr) as (added & Hres & Hall & Hlen).
    exists (candidate (recordOf SuburbNames today (groupElements g) number d
                         proposalElement referralsElement url) n :: added).
    split; [rewrite Hres, <- app_assoc; reflexivity |].
    split; [constructor; [apply (P_record _ _ _ _ _ _ _ _ Hn) | exact Hall] |].
    simpl. lia.
Qed.

Lemma parseElements_adds (elements : list Element) :
  forall developmentApplications result,
    fst (parseElements SuburbNames today url elements developmentApplications)
    = Normal result ->
    exists added,
      result = (developmentApplications ++ added)%list /\
      Forall P added /\
      List.length added <= List.length (filter startsWithL elements).
Proof.
  intros apps result Hr. unfold parseElements in Hr.
  assert (Hskip : result = apps ->
                  exists added, result = (apps ++ added)%list /\ Forall P added /\
                                List.length added
                                <= List.length (filter startsWithL elements)).
  { intros ->. exists []. rewrite app_nil_r.
    split; [reflexivity |]. split; [constructor | simpl; lia]. }
  destruct (findHeading "Applicant" elements) as [a |];
    [| apply Hskip; injection Hr as <-; reflexivity].
  destruct (findHeading "Application" elements) as [b |];
    [| apply Hskip; injection Hr as <-; reflexivity].
  destruct (findHeading "Proposal" elements) as [c |];
    [| apply Hskip; injection Hr as <-; reflexivity].
  rewrite fst_bind in Hr. unfold lift in Hr. simpl fst in Hr.
  unfold findStartElements in Hr.
  destruct (collectStartElements elements (filter startsWithL elements) [])
    as [collected | e |] eqn:Hc; try discriminate.
  destruct (parseGroups_adds a b c (findHeading "Referrals/" elements) _ apps result Hr)
    as (added & Hres & Hall & Hlen).
  exists added. split; [exact Hres |]. split; [exact Hall |].
  rewrite groupElementsByRow_length, length_sort in Hlen.
  destruct (collectStartElements_members elements (filter startsWithL elements) []
              collected) as [_ Hcount].
  - intros x Hx. apply filter_In in Hx. tauto.
  - intros s [].
  - exact Hc.
  - simpl in Hcount. lia.
Qed.

Lemma filter_insertSorted_length (A : Type) (comparer : A -> A -> comparison)
    (f : A -> bool) (a : A) (l : list A) :
  List.length (filter f (JSArray.insertSorted comparer a l))
  = List.length (filter f (a :: l)).
Proof.
  induction l as [| b l IH]; [reflexivity |].
  simpl. destruct (comparer a b); try reflexivity.
  simpl in *. destruct (f b), (f a); simpl in *; lia.
Qed.

Lemma filter_sort_length (A : Type) (comparer : A -> A -> comparison)
    (f : A -> bool) (l : list A) :
  List.length (filter f (JSArray.sort comparer l)) = List.length (filter f l).
Proof.
  unfold JSArray.sort. induction l as [| a l IH]; [reflexivity |].
  simpl fold_right. rewrite filter_insertSorted_length.
  simpl. destruct (f a); simpl; rewrite IH; reflexivity.
Qed.

Lemma filter_removelast_length (A : Type) (f : A -> bool) (l : list A) :
  List.length (filter f (removelast l)) <= List.length (filter f l).
Proof.
  induction l as [| a l IH]; [simpl; lia |].
  destruct l as [| b l]; [simpl; destruct (f a); simpl; lia |].
  change (removelast (a :: b :: l)) with (a :: removelast (b :: l)).
  change (filter f (a :: removelast (b :: l)))
    with (if f a then a :: filter f (removelast (b :: l))
          else filter f (removelast (b :: l))).
  change (filter f (a :: b :: l))
    with (if f a then a :: filter f (b :: l) else filter f (b :: l)).
  destruct (f a); cbn [List.length]; lia.
Qed.

Lemma parsePage_adds (pageIndex numPages : nat) (items : list Element) :
  forall developmentApplications result,
    fst (parsePage SuburbNames today url pageIndex numPages items developmentApplications)
    = Normal result ->
    exists added,
      result = (developmentApplications ++ added)%list /\
      Forall P added /\
      List.length added <= List.length (filter startsWithL items).
Proof.
  intros apps result Hr. unfold parsePage in Hr.
  rewrite !fst_bind in Hr. unfold log, lift in Hr. simpl fst in Hr.
  unfold withoutPageNumber in Hr.
  destruct (lastElement _) as [last |]; [| discriminate].
  destruct (parseElements_adds _ apps result Hr) as (added & Hres & Hall & Hlen).
  exists added. split; [exact Hres |]. split; [exact Hall |].
  pose proof (filter_sort_length Element elementComparer startsWithL items) as Hsort.
  pose proof (filter_removelast_length Element startsWithL
                (JSArray.sort elementComparer items)) as Hpop.
  destruct (isPageNumber last); lia.
Qed.

Lemma parsePages_adds (numPages : nat) (pages : list (list Element)) :
  forall pageIndex developmentApplications result,
    fst (parsePages SuburbNames today url pageIndex numPages pages
           developmentApplications)
    = Normal result ->
    exists added,
      result = (developmentApplications ++ added)%list /\ Forall P added.
Proof.
  induction pages as [| items rest IH]; intros pageIndex apps result Hr.
  - simpl in Hr. injection Hr as <-. exists []. rewrite app_nil_r.
    split; [reflexivity | constructor].
  - cbn [parsePages] in Hr. rewrite fst_bind in Hr.
    destruct (fst (parsePage SuburbNames today url pageIndex numPages items apps))
      as [apps' | e |] eqn:Hpage; try discriminate.
    destruct (parsePage_adds pageIndex numPages items apps apps' Hpage)
      as (added1 & -> & Hall1 & _).
    destruct (IH _ _ result Hr) as (added2 & -> & Hall2).
    exists (added1 ++ added2)%list. split; [symmetry; apply app_assoc |].
    apply Forall_app. split; assumption.
Qed.

End Appends.

(** ** The records of a document *)

Section DocumentRecords.

Local Open Scope string_scope.
Local Open Scope nat_scope.

Lemma candidate_wellFormed (SuburbNames : SuburbTable) (today url : string)
    (elements : list Element) (startElement applicantElement : Element)
    (number : string) (applicationDateElement proposalElement : Element)
    (referralsElement : option Element) (n : nat) :
  findApplicationNumber elements startElement applicantElement = Some number ->
  wellFormed today url
    (candidate (recordOf SuburbNames today elements number applicationDateElement
                  proposalElement referralsElement url) n).
Proof.
  intro Hn.
  assert (Hform : SlashFourDigits number).
  { unfold findApplicationNumber in Hn. apply firstApplicationNumber_some in Hn.
    destruct Hn as (k & _ & -> & Hend & _). apply endsWithSlashFourDigits_iff. exact Hend. }
  assert (Hdesc : description
                    (recordOf SuburbNames today elements number applicationDateElement
                       proposalElement referralsElement url) <> "").
  { unfold recordOf. simpl.
    destruct (String.eqb (trim (descriptionText elements proposalElement
                                  referralsElement)) "") eqn:He; [discriminate |].
    intro K. rewrite K in He. discriminate. }
  unfold wellFormed.
  destruct n as [| n]; simpl candidate.
  - repeat split; try reflexivity; try exact Hdesc.
    exists number. split; [exact Hform | left; reflexivity].
  - repeat split; try reflexivity; try exact Hdesc.
    exists number. split; [exact Hform | right; exists n; reflexivity].
Qed.

(** Every record [parsePdf] returns carries the address of the
    document, the address for comments and the date of the scrape, has
    a description that is not empty, and has for its number a text
    that ends with a slash and four digits, alone or followed by a
    suffix in brackets. *)
Theorem parsePdf_records_wellFormed :
  forall (SuburbNames : SuburbTable) (today url : string) (pages : list (list Element))
         (result : list DevelopmentApplication) (r : DevelopmentApplication),
    fst (parsePdf SuburbNames today url pages) = Normal result ->
    In r result ->
    wellFormed today url r.
Proof.
  intros SuburbNames today url pages result r Hr Hin. unfold parsePdf in Hr.
  destruct (parsePages_adds SuburbNames today url (wellFormed today url)
              (candidate_wellFormed SuburbNames today url)
              (List.length pages) pages 0 [] result Hr) as (added & -> & Hall).
  rewrite Forall_forall in Hall. apply Hall. exact Hin.
Qed.

Lemma parsePdf_records_wellFormed_witness :
  Forall (wellFormed Samples.today Samples.url) MoreSamples.twoRowRecords.
Proof.
  apply Forall_forall. intros r Hr.
  apply (parsePdf_records_wellFormed Samples.suburbs Samples.today Samples.url
           [Samples.twoRowPage] MoreSamples.twoRowRecords r).
  - vm_compute. reflexivity.
  - exact Hr.
Defined.

(** The pages of a document only add records: the applications after
    any run of pages begin with the applications before it, unchanged
    and in the same order. *)
Theorem parsePages_only_append :
  forall (SuburbNames : SuburbTable) (today url : string) (pageIndex numPages : nat)
         (pages : list (list Element))
         (developmentApplications result : list DevelopmentApplication),
    fst (parsePages SuburbNames today url pageIndex numPages pages
           developmentApplications)
    = Normal result ->
    exists added, result = (developmentApplications ++ added)%list.
Proof.
  intros SuburbNames today url pageIndex numPages pages apps result Hr.
  destruct (parsePages_adds SuburbNames today url (fun _ => True)
              (fun _ _ _ _ _ _ _ _ _ => I) numPages pages pageIndex apps result Hr)
    as (added & Hres & _).
  exists added. exact Hres.
Qed.

Lemma parsePages_only_append_witness :
  exists added,
    (Samples.shed :: MoreSamples.twoRowRecords) = ([Samples.shed] ++ added)%list.
Proof.
  apply (parsePages_only_append Samples.suburbs Samples.today Samples.url 0 1
           [Samples.twoRowPage] [Samples.shed]
           (Samples.shed :: MoreSamples.twoRowRecords)).
  vm_compute. reflexivity.
Defined.

(** A page adds no more records than it has elements whose text
    begins with the letter l, and leaves the records before it as they
    were. *)
Theorem parsePage_adds_at_most_markers :
  forall (SuburbNames : SuburbTable) (today url : string) (pageIndex numPages : nat)
         (items : list Element)
         (developmentApplications result : list DevelopmentApplication),
    fst (parsePage SuburbNames today url pageIndex numPages items developmentApplications)
    = Normal result ->
    exists added,
      result = (developmentApplications ++ added)%list /\
      List.length added <= List.length (filter startsWithL items).
Proof.
  intros SuburbNames today url pageIndex numPages items apps result Hr.
  destruct (parsePage_adds SuburbNames today url (fun _ => True)
              (fun _ _ _ _ _ _ _ _ _ => I) pageIndex numPages items apps result Hr)
    as (added & Hres & _ & Hlen).
  exists added. split; assumption.
Qed.

Lemma parsePage_adds_at_most_markers_witness :
  exists added,
    MoreSamples.twoRowRecords = ([] ++ added)%list /\
    List.length added <= List.length (filter startsWithL Samples.twoRowPage).
Proof.
  apply (parsePage_adds_at_most_markers Samples.suburbs Samples.today Samples.url 0 1
           Samples.twoRowPage [] MoreSamples.twoRowRecords).
  vm_compute. reflexivity.
Defined.

(** In the list [parsePdf] returns, two records of the same number
    have the same address, description and received date. *)
Theorem parsePdf_numbers_agree :
  forall (SuburbNames : SuburbTable) (today url : string) (pages : list (list Element))
         (result : list DevelopmentApplication) (a b : DevelopmentApplication),
    fst (parsePdf SuburbNames today url pages) = Normal result ->
    In a result -> In b result ->
    applicationNumber a = applicationNumber b ->
    sameContent a b.
Proof.
  intros SuburbNames today url pages result a b Hr Ha Hb Hn.
  apply (proj2 (parsePdf_outcome SuburbNames today url pages) result Hr a b Ha Hb Hn).
Qed.

(** The page of two rows read twice: the second reading repeats the
    numbers and the contents of the first. *)
Lemma parsePdf_numbers_agree_witness :
  sameContent
    (nth 0 (MoreSamples.twoRowRecords ++ MoreSamples.twoRowRecords) Samples.shed)
    (nth 2 (MoreSamples.twoRowRecords ++ MoreSamples.twoRowRecords) Samples.shed).
Proof.
  apply (parsePdf_numbers_agree Samples.suburbs Samples.today Samples.url
           [Samples.twoRowPage; Samples.twoRowPage]
           (MoreSamples.twoRowRecords ++ MoreSamples.twoRowRecords)).
  - vm_compute. reflexivity.
  - vm_compute. tauto.
  - vm_compute. tauto.
  - vm_compute. reflexivity.
Defined.

End DocumentRecords.

(** ** Reading order *)

Section ReadingOrder.

Local Open Scope string_scope.
Local Open Scope nat_scope.

(** [elementComparer] compares as a sort needs it to: it answers 1 one
    way exactly when it answers -1 the other way, it answers 0 exactly
    for elements of the same [y] and the same [x], and if a need not
    come after b, nor b after c, then a need not come after c. *)
Theorem elementComparer_consistent :
  forall a b : Element,
    (elementComparer a b = Gt <-> elementComparer b a = Lt) /\
    (elementComparer a b = Eq <-> (y a == y b)%Q /\ (x a == x b)%Q) /\
    (forall c : Element,
       elementComparer a b <> Gt -> elementComparer b c <> Gt ->
       elementComparer a c <> Gt).
Proof.
  intros a b. split; [| split].
  - unfold elementComparer.
    destruct (Qltb (y b) (y a)) eqn:H1; destruct (Qltb (y a) (y b)) eqn:H2;
      destruct (Qltb (x b) (x a)) eqn:H3; destruct (Qltb (x a) (x b)) eqn:H4;
      rewrite ?Qltb_true, ?Qltb_false in *;
      split; intro K; try reflexivity; try discriminate; exfalso; lra.
  - unfold elementComparer.
    destruct (Qltb (y b) (y a)) eqn:H1; destruct (Qltb (y a) (y b)) eqn:H2;
      destruct (Qltb (x b) (x a)) eqn:H3; destruct (Qltb (x a) (x b)) eqn:H4;
      rewrite ?Qltb_true, ?Qltb_false in *;
      split; intro K; try reflexivity; try discriminate;
      try (split; lra); exfalso; lra.
  - intro c. apply elementComparer_trans.
Qed.

Lemma elementComparer_consistent_witness :
  elementComparer Samples.applicationHeading Samples.applicantHeading <> Gt.
Proof.
  apply (proj2 (proj2 (elementComparer_consistent
                         Samples.applicationHeading Samples.applicationHeading))
           Samples.applicantHeading);
    vm_compute; discriminate.
Defined.

Lemma StronglySorted_filter_keeps (A : Type) (R : A -> A -> Prop) (f : A -> bool)
    (l : list A) :
  StronglySorted R l -> StronglySorted R (filter f l).
Proof.
  intro Hs. induction Hs as [| a l Hl IH Ha]; simpl; [constructor |].
  destruct (f a); [| exact IH].
  constructor; [exact IH |].
  rewrite Forall_forall in *. intros b Hb. apply filter_In in Hb. apply Ha. tauto.
Qed.

Lemma StronglySorted_removelast (A : Type) (R : A -> A -> Prop) (l : list A) :
  StronglySorted R l -> StronglySorted R (removelast l).
Proof.
  intro Hs. induction Hs as [| a l Hl IH Ha]; [constructor |].
  destruct l as [| b l]; [constructor |].
  change (removelast (a :: b :: l)) with (a :: removelast (b :: l)).
  constructor; [exact IH |].
  rewrite Forall_forall in *. intros c Hc. apply Ha. apply In_removelast. exact Hc.
Qed.

(** Every band of a page lists its elements in reading order, [y]
    first and then [x]. *)
Theorem bands_in_reading_order :
  forall (items elements startElements : list Element) (g : Group),
    withoutPageNumber (JSArray.sort elementComparer items) = Normal elements ->
    In g (groupElementsByRow elements startElements) ->
    StronglySorted readingOrder (groupElements g).
Proof.
  intros items elements startElements g Hpop Hg.
  assert (Hsorted : StronglySorted readingOrder elements).
  { apply StronglySorted_weaken with (R := noLater elementComparer).
    - intros a b. apply elementComparer_noLater.
    - unfold withoutPageNumber in Hpop.
      destruct (lastElement _) as [last |]; [| discriminate].
      injection Hpop as <-.
      pose proof (sort_sorted Element elementComparer elementComparer_total
                    elementComparer_trans items) as Hs.
      destruct (isPageNumber last); [apply StronglySorted_removelast |]; exact Hs. }
  apply In_nth_error in Hg. destruct Hg as [i Hi].
  destruct (groupElementsByRow_nth elements startElements i g Hi) as (s & _ & _ & ->).
  apply StronglySorted_filter_keeps. exact Hsorted.
Qed.

Lemma bands_in_reading_order_witness :
  StronglySorted readingOrder
    (filter (inRows (rowTop (removelast (JSArray.sort elementComparer Samples.twoRowPage))
                       (Samples.lodgement 70))
                    (nextRowTop (removelast (JSArray.sort elementComparer Samples.twoRowPage))
                       []))
            (removelast (JSArray.sort elementComparer Samples.twoRowPage))).
Proof.
  apply (bands_in_reading_order Samples.twoRowPage
           (removelast (JSArray.sort elementComparer Samples.twoRowPage))
           [Samples.lodgement 30; Samples.lodgement 70]
           (mkGroup (Samples.lodgement 70)
              (filter (inRows (rowTop (removelast
                                         (JSArray.sort elementComparer Samples.twoRowPage))
                                 (Samples.lodgement 70))
                              (nextRowTop
                                 (removelast
                                    (JSArray.sort elementComparer Samples.twoRowPage))
                                 []))
                      (removelast (JSArray.sort elementComparer Samples.twoRowPage))))).
  - vm_compute. reflexivity.
  - right. left. reflexivity.
Defined.

End ReadingOrder.

(** ** The documents chosen *)

Section Selection.

Local Open Scope string_scope.
Local Open Scope nat_scope.

Lemma floor_scaled_range (random : Q) (n : Z) :
  (0 <= random)%Q -> (random < 1)%Q -> (0 < n)%Z ->
  (0 <= Qfloor (random * inject_Z n) < n)%Z.
Proof.
  intros H0 H1 Hn.
  assert (Hq : (0 < inject_Z n)%Q)
    by (change 0%Q with (inject_Z 0); rewrite <- Zlt_Qlt; exact Hn).
  split.
  - change 0%Z with (Qfloor 0). apply Qfloor_resp_le. nra.
  - rewrite Zlt_Qlt.
    apply Qle_lt_trans with (random * inject_Z n)%Q; [apply Qfloor_le | nra].
Qed.

(** For a number drawn in [[0, 1)], [getRandom(minimum, maximum)] is
    an integer from the ceiling of the minimum up to, and not
    including, the floor of the maximum, when there is such an
    integer; when the two bounds round to the same integer it returns
    that integer. *)
Theorem getRandom_range :
  forall random minimum maximum : Q,
    (0 <= random)%Q -> (random < 1)%Q ->
    ((Qceiling minimum < Qfloor maximum)%Z ->
     (Qceiling minimum <= getRandom random minimum maximum < Qfloor maximum)%Z) /\
    (Qfloor maximum = Qceiling minimum ->
     getRandom random minimum maximum = Qceiling minimum).
Proof.
  intros random minimum maximum H0 H1. unfold getRandom. split.
  - intro Hlt.
    pose proof (floor_scaled_range random (Qfloor maximum - Qceiling minimum) H0 H1)
      as Hr.
    lia.
  - intros ->. rewrite Z.sub_diag.
    assert (E : (random * inject_Z 0 == 0)%Q) by ring.
    rewrite E. reflexivity.
Qed.

Lemma getRandom_range_witness :
  (Qceiling 0 <= getRandom (7 # 10) 0 5 < Qfloor 5)%Z.
Proof.
  apply (proj1 (getRandom_range (7 # 10) 0 5 ltac:(lra) ltac:(lra))).
  reflexivity.
Defined.

Lemma collectPdfUrls_step (hrefs : list string) :
  forall pdfUrls : list string,
    NoDup pdfUrls ->
    let result :=
      fold_left
        (fun pdfUrls href =>
           if includes (toLowerCase href) ".pdf"
           then if existsb (fun url => String.eqb url href) pdfUrls
                then pdfUrls
                else (pdfUrls ++ [href])%list
           else pdfUrls)
        hrefs pdfUrls in
    NoDup result /\
    (forall u, In u result ->
       In u pdfUrls \/ (In u hrefs /\ includes (toLowerCase u) ".pdf" = true)) /\
    (forall u, In u hrefs -> includes (toLowerCase u) ".pdf" = true -> In u result) /\
    (forall u, In u pdfUrls -> In u result).
Proof.
  induction hrefs as [| href rest IH]; intros acc Hnd; simpl.
  - split; [exact Hnd |]. split; [intros u Hu; left; exact Hu |].
    split; [intros u [] | intros u Hu; exact Hu].
  - set (acc' := if includes (toLowerCase href) ".pdf"
                 then if existsb (fun url => String.eqb url href) acc
                      then acc else (acc ++ [href])%list
                 else acc).
    assert (Hacc' : NoDup acc' /\
                    (forall u, In u acc' ->
                       In u acc \/ (u = href /\ includes (toLowerCase u) ".pdf" = true)) /\
                    (includes (toLowerCase href) ".pdf" = true -> In href acc') /\
                    (forall u, In u acc -> In u acc')).
    { unfold acc'. destruct (includes (toLowerCase href) ".pdf") eqn:Hi.
      - destruct (existsb (fun url => String.eqb url href) acc) eqn:He.
        + split; [exact Hnd |]. split; [intros u Hu; left; exact Hu |].
          split; [| intros u Hu; exact Hu].
          intros _. apply existsb_exists in He. destruct He as (u & Hu & Heq).
          apply String.eqb_eq in Heq. subst. exact Hu.
        + assert (Hnot : ~ In href acc).
          { intro Hin. rewrite existsb_false in He. specialize (He href Hin).
            rewrite String.eqb_refl in He. discriminate. }
          split.
          * apply NoDup_app; [exact Hnd | constructor; [intros [] | constructor] |].
            intros a Ha [<- | []]. contradiction.
          * split; [| split].
            -- intros u Hu. apply in_app_or in Hu.
               destruct Hu as [Hu | [<- | []]]; [left; exact Hu | right; split; [reflexivity | exact Hi]].
            -- intros _. apply in_or_app. right. left. reflexivity.
            -- intros u Hu. apply in_or_app. left. exact Hu.
      - split; [exact Hnd |]. split; [intros u Hu; left; exact Hu |].
        split; [discriminate | intros u Hu; exact Hu]. }
    destruct Hacc' as (Hnd' & Hfrom' & Hhref' & Hkeep').
    destruct (IH acc' Hnd') as (Hnd'' & Hfrom'' & Hall'' & Hkeep'').
    split; [exact Hnd'' |]. split; [| split].
    + intros u Hu. destruct (Hfrom'' u Hu) as [Hu' | [Hu' Hi]].
      * destruct (Hfrom' u Hu') as [Hu'' | [-> Hi]];
          [left; exact Hu'' | right; split; [left; reflexivity | exact Hi]].
      * right. split; [right; exact Hu' | exact Hi].
    + intros u [<- | Hu] Hi; [apply Hkeep''; apply Hhref'; exact Hi | apply Hall''; assumption].
    + intros u Hu. apply Hkeep''. apply Hkeep'. exact Hu.
Qed.

(** The addresses collected from the links of the page are the links
    whose text, in lower case, holds [.pdf]: each of them once. *)
Theorem collectPdfUrls_distinct :
  forall hrefs : list string,
    NoDup (collectPdfUrls hrefs) /\
    (forall u, In u (collectPdfUrls hrefs) <->
               In u hrefs /\ includes (toLowerCase u) ".pdf" = true).
Proof.
  intro hrefs.
  destruct (collectPdfUrls_step hrefs [] (NoDup_nil string))
    as (Hnd & Hfrom & Hall & _).
  fold (collectPdfUrls hrefs) in Hnd, Hfrom, Hall.
  split; [exact Hnd |]. intro u. split.
  - intro Hu. destruct (Hfrom u Hu) as [[] | H]. exact H.
  - intros [Hu Hi]. apply Hall; assumption.
Qed.

Lemma collectPdfUrls_distinct_witness :
  In "https://www.light.sa.gov.au/b.PDF" (collectPdfUrls MoreSamples.links).
Proof.
  apply (proj2 (collectPdfUrls_distinct MoreSamples.links)).
  split; [vm_compute; tauto | vm_compute; reflexivity].
Defined.

(** The selection holds one address when the page gives one and two
    otherwise; they are addresses of the page that differ from one
    another, none of them is [undefined], and the last address of the
    page is one of them. *)
Theorem selectPdfUrls_distinct :
  forall (hrefs : list string) (random1 random2 : Q)
         (selectedPdfUrls : list (option string)),
    (0 <= random1)%Q -> (random1 < 1)%Q ->
    selectPdfUrls (collectPdfUrls hrefs) random1 random2 = Some selectedPdfUrls ->
    exists urls,
      selectedPdfUrls = map Some urls /\
      NoDup urls /\
      (forall u, In u urls -> In u (collectPdfUrls hrefs)) /\
      In (last (collectPdfUrls hrefs) "") urls /\
      List.length urls = Nat.min 2 (List.length (collectPdfUrls hrefs)).
Proof.
  intros hrefs random1 random2 selected H0 H1 Hsel.
  destruct (collectPdfUrls_step hrefs [] (NoDup_nil string)) as (Hnd & _).
  fold (collectPdfUrls hrefs) in Hnd.
  unfold selectPdfUrls in Hsel.
  set (pdfUrls := collectPdfUrls hrefs) in *.
  destruct (rev pdfUrls) as [| first rest] eqn:Hrev; [discriminate |].
  assert (Hshape : pdfUrls = (rev rest ++ [first])%list).
  { rewrite <- (rev_involutive pdfUrls), Hrev. reflexivity. }
  assert (Hnd' : NoDup (first :: rest)) by (rewrite <- Hrev; apply NoDup_rev; exact Hnd).
  apply NoDup_cons_iff in Hnd'. destruct Hnd' as [Hfirst Hrest].
  assert (Hlast : last pdfUrls "" = first) by (rewrite Hshape; apply last_last).
  assert (Hlen : List.length pdfUrls = S (List.length rest)).
  { rewrite Hshape, length_app, length_rev. simpl. lia. }
  assert (Hmem : forall u, In u (first :: rest) -> In u pdfUrls).
  { intros u Hu. apply in_rev. rewrite Hrev. exact Hu. }
  destruct rest as [| second rest'] eqn:Hrest'.
  - simpl in Hsel. exists [first]. rewrite Hlast, Hlen.
    split; [destruct (getRandom random2 0 2 =? 0)%Z; injection Hsel as <-; reflexivity |].
    split; [constructor; [intros [] | constructor] |].
    split; [intros u [<- | []]; apply Hmem; left; reflexivity |].
    split; [left; reflexivity | reflexivity].
  - rewrite <- Hrest' in *.
    assert (Hpos : 0 < List.length rest) by (rewrite Hrest'; simpl; lia).
    apply Nat.ltb_lt in Hpos. rewrite Hpos in Hsel. apply Nat.ltb_lt in Hpos.
    set (index := getRandom random1 0 (inject_Z (Z.of_nat (List.length rest)))) in *.
    assert (Hindex : (0 <= index < Z.of_nat (List.length rest))%Z).
    { unfold index, getRandom.
      change (Qceiling 0) with 0%Z. rewrite Qfloor_Z, Z.sub_0_r, Z.add_0_r.
      apply floor_scaled_range; [exact H0 | exact H1 | lia]. }
    assert (Hat : exists u, atIndex rest index = Some u /\ In u rest).
    { unfold atIndex. destruct (index <? 0)%Z eqn:Hneg; [apply Z.ltb_lt in Hneg; lia |].
      destruct (nth_error rest (Z.to_nat index)) as [u |] eqn:Hnth.
      - exists u. split; [reflexivity | apply (nth_error_In _ _ Hnth)].
      - exfalso. apply (proj2 (nth_error_Some rest (Z.to_nat index))); [lia | exact Hnth]. }
    destruct Hat as (u & Hu & Hin). rewrite Hu in Hsel.
    assert (Hne : first <> u) by (intros ->; contradiction).
    destruct (getRandom random2 0 2 =? 0)%Z; injection Hsel as <-.
    + exists [u; first]. rewrite Hlast, Hlen.
      split; [reflexivity |].
      split; [constructor; [intros [K | []]; congruence | constructor; [intros [] | constructor]] |].
      split; [intros v [<- | [<- | []]]; apply Hmem; [right; exact Hin | left; reflexivity] |].
      split; [right; left; reflexivity | rewrite Hrest'; reflexivity].
    + exists [first; u]. rewrite Hlast, Hlen.
      split; [reflexivity |].
      split; [constructor; [intros [K | []]; congruence | constructor; [intros [] | constructor]] |].
      split; [intros v [<- | [<- | []]]; apply Hmem; [left; reflexivity | right; exact Hin] |].
      split; [left; reflexivity | rewrite Hrest'; reflexivity].
Qed.

Lemma selectPdfUrls_distinct_witness :
  exists urls,
    [Some "https://www.light.sa.gov.au/c.pdf"; Some "https://www.light.sa.gov.au/a.pdf"]
    = map Some urls /\
    NoDup urls /\
    (forall u, In u urls -> In u (collectPdfUrls MoreSamples.links)) /\
    In (last (collectPdfUrls MoreSamples.links) "") urls /\
    List.length urls = Nat.min 2 (List.length (collectPdfUrls MoreSamples.links)).
Proof.
  apply (selectPdfUrls_distinct MoreSamples.links (7 # 10) (7 # 10)
           [Some "https://www.light.sa.gov.au/c.pdf";
            Some "https://www.light.sa.gov.au/a.pdf"]);
    [lra | lra | vm_compute; reflexivity].
Defined.

End Selection.

(** ** The threshold of a match *)

Section Thresholds.

Local Open Scope string_scope.
Local Open Scope nat_scope.

Lemma didyoumean_lodgement (text : string) (threshold : nat) :
  DidYouMean.didyoumean text ["Lodgement"] threshold
  = if DidYouMean.getEditDistance (DidYouMean.normalizeString text) "lodgement"
       <=? threshold
    then Some "Lodgement" else None.
Proof.
  unfold DidYouMean.didyoumean.
  change (DidYouMean.normalizeString "Lodgement") with "lodgement".
  cbn [map DidYouMean.firstClosest fold_left].
  rewrite Nat.eqb_refl, andb_true_r. reflexivity.
Qed.

(** The threshold recorded for a text is the least of 0, 1 and 2 at
    which the text is accepted: 0 for the word itself, otherwise 1 for
    a text one edit away from it, otherwise 2 for a text two edits
    away; a text farther away, case and outer white space apart, is
    no match. *)
Theorem matchThreshold_least :
  forall text : string,
    match matchThreshold text with
    | Some t =>
        t <= 2 /\
        DidYouMean.getEditDistance (DidYouMean.normalizeString text) "lodgement" <= t /\
        (t = 0 <-> text = "lodgement") /\
        (t = 2 ->
         DidYouMean.getEditDistance (DidYouMean.normalizeString text) "lodgement" = 2)
    | None =>
        2 < DidYouMean.getEditDistance (DidYouMean.normalizeString text) "lodgement"
    end.
Proof.
  intro text. unfold matchThreshold. rewrite !didyoumean_lodgement.
  destruct (String.eqb text "lodgement") eqn:He.
  - apply String.eqb_eq in He. subst text.
    split; [lia |]. split; [vm_compute; lia |].
    split; [split; reflexivity | discriminate].
  - apply String.eqb_neq in He.
    destruct (_ <=? 1) eqn:H1.
    + apply Nat.leb_le in H1.
      split; [lia |]. split; [exact H1 |].
      split; [split; [discriminate | intro K; contradiction] | discriminate].
    + apply Nat.leb_gt in H1.
      destruct (_ <=? 2) eqn:H2.
      * apply Nat.leb_le in H2.
        split; [lia |]. split; [exact H2 |].
        split; [split; [discriminate | intro K; contradiction] | intros _; lia].
      * apply Nat.leb_gt in H2. exact H2.
Qed.

End Thresholds.
